(** * Season progression engine: schedule store, fatigue model, tactics
      projector, game orchestrator, view cache and play-in lookup.

    Shallow embedding of [static/Game_sims.js], the parts of [static/ui.js]
    that own the cached views, team selection and the play-in lookup, and the
    application state declared next to [getOrCreateTacticsForTeam].

    Conventions of the embedding.
    - The global [appState] is threaded explicitly: every operation takes the
      state and returns the new one.
    - An [async] function that awaits HTTP calls takes the responses it will
      receive as arguments and returns, besides the state, the list of
      externally visible events (requests issued, alerts shown) in order.
    - [null]/[undefined] are [None]; JS truthiness is written out where the
      source relies on it.
    - DOM writes (labels, tables, log entries) carry no state of the engine
      and are left out; DOM presence is kept where it gates a request. *)

From Stdlib Require Import Ascii String QArith Qminmax Lqa.
From stdpp Require Import gmap strings list fin_maps pretty sorting.

Local Open Scope Z_scope.

(** ** JavaScript values used by the engine *)

(** JSON payloads that the engine stores but never inspects; objects and
    arrays are kept as their serialized text. *)
Inductive json :=
  | JNull
  | JStr (s : string)
  | JNum (z : Z)
  | JData (text : string).

(** Truthiness of a string value ([""] is falsy). *)
Definition str_truthy (s : string) : bool :=
  match s with EmptyString => false | _ => true end.

(** Truthiness of a possibly-null string. *)
Definition ostr_truthy (o : option string) : bool :=
  match o with Some s => str_truthy s | None => false end.

(** Truthiness of an opaque payload. *)
Definition json_truthy (j : json) : bool :=
  match j with
  | JNull => false
  | JStr s => str_truthy s
  | JNum z => negb (z =? 0)
  | _ => true
  end.

(** Outcome of [fetch] followed by reading the body: a 2xx response with a
    parsed body, a non-2xx response with its text, or a rejected promise
    (transport failure, unparsable body). *)
Inductive Response (A : Type) :=
  | RespOk (body : A)
  | RespNotOk (text : string)
  | RespThrow.
Arguments RespOk {A} body.
Arguments RespNotOk {A} text.
Arguments RespThrow {A}.

(** The alerts of the modelled functions, one constructor per message. *)
Inductive AlertMsg :=
  | AlertScheduleLoadProblem      (* generateSeasonSchedule, !res.ok *)
  | AlertScheduleLoadError        (* generateSeasonSchedule, catch *)
  | AlertNoGamesLeft              (* simulateGameProgress, season over *)
  | AlertSeasonWrapUp
  | AlertSeasonReportError
  | AlertSeasonReportException
  | AlertEngineCallFailed (text : string)
  | AlertEngineException.

(** ** Data model (appState) *)

Record Team := { t_id : string; t_name : string }.

(** Front-end team table; only [id] and [name] are read by the engine. *)
Definition TEAMS : list Team :=
  [ {| t_id := "ATL"; t_name := "Atlanta Hawks" |};
    {| t_id := "BOS"; t_name := "Boston Celtics" |};
    {| t_id := "BKN"; t_name := "Brooklyn Nets" |};
    {| t_id := "CHA"; t_name := "Charlotte Hornets" |};
    {| t_id := "CHI"; t_name := "Chicago Bulls" |};
    {| t_id := "CLE"; t_name := "Cleveland Cavaliers" |};
    {| t_id := "DAL"; t_name := "Dallas Mavericks" |};
    {| t_id := "DEN"; t_name := "Denver Nuggets" |};
    {| t_id := "DET"; t_name := "Detroit Pistons" |};
    {| t_id := "GSW"; t_name := "Golden State Warriors" |};
    {| t_id := "HOU"; t_name := "Houston Rockets" |};
    {| t_id := "IND"; t_name := "Indiana Pacers" |};
    {| t_id := "LAC"; t_name := "LA Clippers" |};
    {| t_id := "LAL"; t_name := "Los Angeles Lakers" |};
    {| t_id := "MEM"; t_name := "Memphis Grizzlies" |};
    {| t_id := "MIA"; t_name := "Miami Heat" |};
    {| t_id := "MIL"; t_name := "Milwaukee Bucks" |};
    {| t_id := "MIN"; t_name := "Minnesota Timberwolves" |};
    {| t_id := "NOP"; t_name := "New Orleans Pelicans" |};
    {| t_id := "NYK"; t_name := "New York Knicks" |};
    {| t_id := "OKC"; t_name := "Oklahoma City Thunder" |};
    {| t_id := "ORL"; t_name := "Orlando Magic" |};
    {| t_id := "PHI"; t_name := "Philadelphia 76ers" |};
    {| t_id := "PHX"; t_name := "Phoenix Suns" |};
    {| t_id := "POR"; t_name := "Portland Trail Blazers" |};
    {| t_id := "SAC"; t_name := "Sacramento Kings" |};
    {| t_id := "SAS"; t_name := "San Antonio Spurs" |};
    {| t_id := "TOR"; t_name := "Toronto Raptors" |};
    {| t_id := "UTA"; t_name := "Utah Jazz" |};
    {| t_id := "WAS"; t_name := "Washington Wizards" |} ].

(** [TEAMS.find(t => t.id === teamId)] *)
Definition find_team (teamId : string) : option Team :=
  List.find (fun t => String.eqb (t_id t) teamId) TEAMS.

(** [TEAMS.find(...) || { id: teamId, name: teamId }] *)
Definition team_or_stub (teamId : string) : Team :=
  match find_team teamId with
  | Some t => t
  | None => {| t_id := teamId; t_name := teamId |}
  end.

Record ScheduleEntry := {
  game_id : string;
  date : string;
  home_team_id : string;
  away_team_id : string;
  home_score : option Z;
  away_score : option Z;
  result_for_user_team : option string
}.

Record Schedule := {
  teamId : option string;
  games : list ScheduleEntry;
  currentIndex : Z
}.

(** An element of [scores.games]: either a schedule entry put there by
    [generateSeasonSchedule], or a decided-game record built by
    [simulateGameProgress]. *)
Record GameRecord := {
  gr_game_id : string;
  gr_date : string;
  gr_home_team_id : string;
  gr_away_team_id : string;
  gr_home_team_name : string;
  gr_away_team_name : string;
  gr_home_score : option Z;
  gr_away_score : option Z;
  gr_status : string;
  gr_is_overtime : bool
}.

Inductive ScoreItem :=
  | OfSchedule (e : ScheduleEntry)
  | Decided (r : GameRecord).

Record Scores := {
  latest_date : option string;
  scores_games : list ScoreItem
}.

(** The dummy news item of an applied game; the title is kept as the values
    interpolated into its template. *)
Record NewsItem := {
  news_date : string;
  news_user_name : string;
  news_opp_name : string;
  news_my_score : Z;
  news_opp_score : Z;
  news_user_won : bool;
  related_team_ids : list string
}.

Record StatsView := { leaders : option json; stats_lastLoaded : option string }.
Record StandingsView := {
  east : list json; west : list json; standings_lastLoaded : option string }.
Record TeamsView := {
  teams_list : list json;
  detailById : gmap string json;
  teams_lastLoaded : option string }.
Record WeeklyNewsView := { items : list json; weekly_lastLoaded : option string }.

Record CachedViews := {
  last_progress_turn_id : option string;
  scores : Scores;
  schedule : Schedule;
  news : list NewsItem;
  stats : StatsView;
  standings : StandingsView;
  teams : TeamsView;
  weeklyNews : WeeklyNewsView
}.

(** JS numbers held in a tactics profile: a finite value, or NaN/Infinity. *)
Inductive num :=
  | Finite (q : Q)
  | NotFinite.

Record Tactics := {
  pace : option num;
  offenseScheme : option string;
  offenseSecondaryScheme : option string;
  offensePrimaryWeight : option num;
  offenseSecondaryWeight : option num;
  defenseScheme : option string;
  defenseSecondaryScheme : option string;
  defensePrimaryWeight : option num;
  defenseSecondaryWeight : option num;
  rotationSize : option Z;
  starters : option (list string);
  bench : option (list string);
  minutes : option (list (string * Z))
}.

Record AppState := {
  apiKey : option string;
  selectedTeam : option Team;
  progressTurns : Z;
  currentDate : option string;
  cachedViews : CachedViews;
  rosters : gmap string json;
  chatHistory : list json;
  firstMessageShownTeams : gmap string bool;
  tacticsByTeam : gmap string Tactics;
  postseason : option json;
  seasonReportReady : bool;
  seasonReportText : option string
}.

(** *** Field updates *)

Definition set_cachedViews (cv : CachedViews) (s : AppState) : AppState :=
  {| apiKey := apiKey s; selectedTeam := selectedTeam s;
     progressTurns := progressTurns s; currentDate := currentDate s;
     cachedViews := cv; rosters := rosters s; chatHistory := chatHistory s;
     firstMessageShownTeams := firstMessageShownTeams s;
     tacticsByTeam := tacticsByTeam s; postseason := postseason s;
     seasonReportReady := seasonReportReady s;
     seasonReportText := seasonReportText s |}.

Definition set_currentDate (d : option string) (s : AppState) : AppState :=
  {| apiKey := apiKey s; selectedTeam := selectedTeam s;
     progressTurns := progressTurns s; currentDate := d;
     cachedViews := cachedViews s; rosters := rosters s;
     chatHistory := chatHistory s;
     firstMessageShownTeams := firstMessageShownTeams s;
     tacticsByTeam := tacticsByTeam s; postseason := postseason s;
     seasonReportReady := seasonReportReady s;
     seasonReportText := seasonReportText s |}.

Definition set_progressTurns (n : Z) (s : AppState) : AppState :=
  {| apiKey := apiKey s; selectedTeam := selectedTeam s;
     progressTurns := n; currentDate := currentDate s;
     cachedViews := cachedViews s; rosters := rosters s;
     chatHistory := chatHistory s;
     firstMessageShownTeams := firstMessageShownTeams s;
     tacticsByTeam := tacticsByTeam s; postseason := postseason s;
     seasonReportReady := seasonReportReady s;
     seasonReportText := seasonReportText s |}.

Definition set_tacticsByTeam (m : gmap string Tactics) (s : AppState) : AppState :=
  {| apiKey := apiKey s; selectedTeam := selectedTeam s;
     progressTurns := progressTurns s; currentDate := currentDate s;
     cachedViews := cachedViews s; rosters := rosters s;
     chatHistory := chatHistory s;
     firstMessageShownTeams := firstMessageShownTeams s;
     tacticsByTeam := m; postseason := postseason s;
     seasonReportReady := seasonReportReady s;
     seasonReportText := seasonReportText s |}.

Definition set_seasonReport (txt : string) (s : AppState) : AppState :=
  {| apiKey := apiKey s; selectedTeam := selectedTeam s;
     progressTurns := progressTurns s; currentDate := currentDate s;
     cachedViews := cachedViews s; rosters := rosters s;
     chatHistory := chatHistory s;
     firstMessageShownTeams := firstMessageShownTeams s;
     tacticsByTeam := tacticsByTeam s; postseason := postseason s;
     seasonReportReady := true;
     seasonReportText := Some txt |}.

Definition set_schedule (sch : Schedule) (cv : CachedViews) : CachedViews :=
  {| last_progress_turn_id := last_progress_turn_id cv; scores := scores cv;
     schedule := sch; news := news cv; stats := stats cv;
     standings := standings cv; teams := teams cv;
     weeklyNews := weeklyNews cv |}.

Definition set_scores (sc : Scores) (cv : CachedViews) : CachedViews :=
  {| last_progress_turn_id := last_progress_turn_id cv; scores := sc;
     schedule := schedule cv; news := news cv; stats := stats cv;
     standings := standings cv; teams := teams cv;
     weeklyNews := weeklyNews cv |}.

Definition upd_schedule (f : Schedule -> Schedule) (s : AppState) : AppState :=
  set_cachedViews (set_schedule (f (schedule (cachedViews s))) (cachedViews s)) s.

Definition upd_scores (f : Scores -> Scores) (s : AppState) : AppState :=
  set_cachedViews (set_scores (f (scores (cachedViews s))) (cachedViews s)) s.

(** The initial value of [appState]. *)
Definition emptyViews (tid : option string) : CachedViews :=
  {| last_progress_turn_id := None;
     scores := {| latest_date := None; scores_games := [] |};
     schedule := {| teamId := tid; games := []; currentIndex := 0 |};
     news := [];
     stats := {| leaders := None; stats_lastLoaded := None |};
     standings := {| east := []; west := []; standings_lastLoaded := None |};
     teams := {| teams_list := []; detailById := ∅; teams_lastLoaded := None |};
     weeklyNews := {| items := []; weekly_lastLoaded := None |} |}.

Definition initialState : AppState :=
  {| apiKey := None; selectedTeam := None; progressTurns := 0;
     currentDate := None; cachedViews := emptyViews None;
     rosters := ∅; chatHistory := []; firstMessageShownTeams := ∅;
     tacticsByTeam := ∅; postseason := None;
     seasonReportReady := false; seasonReportText := None |}.

(** *** What is sent to the external services *)

(** The tactics object of the user's team in the simulator's format. *)
Record UserTactics := {
  p_pace : num;
  offense_scheme : string;
  defense_scheme : string;
  scheme_weight_sharpness : Q;
  scheme_outcome_strength : Q;
  def_scheme_weight_sharpness : Q;
  def_scheme_outcome_strength : Q;
  rotation_size : Z;
  lineup_starters : list string;
  lineup_bench : list string;
  p_minutes : list (string * Z)
}.

(** The two object literals [buildTacticsForTeam] can return. *)
Inductive TacticsPayload :=
  | UserPayload (t : UserTactics)
  | OpponentPayload (opp_pace : Z).

Record SimRequest := {
  req_home_team_id : string;
  req_away_team_id : string;
  home_tactics : TacticsPayload;
  away_tactics : TacticsPayload;
  game_date : string
}.

Inductive Body :=
  | BodyLeague (target_date user_team_id : string)
  | BodySim (req : SimRequest)
  | BodyReport (key user_team_id : string)
  | BodyNews (key : string).

Inductive Event :=
  | Fetch (url : string)
  | Post (url : string) (body : Body)
  | Alert (m : AlertMsg).

(** ** ScheduleStore (Game_sims.js) *)

(** [g.home_score == null && g.away_score == null] *)
Definition unplayed (g : ScheduleEntry) : bool :=
  match home_score g, away_score g with
  | None, None => true
  | _, _ => false
  end.

(** [g.home_score != null && g.away_score != null] *)
Definition finished (g : ScheduleEntry) : bool :=
  match home_score g, away_score g with
  | Some _, Some _ => true
  | _, _ => false
  end.

(** [schedule.games[i]] for a JS number [i]. *)
Definition game_at (l : list ScheduleEntry) (i : Z) : option ScheduleEntry :=
  if i <? 0 then None else l !! Z.to_nat i.

Definition set_currentIndex (i : Z) (sch : Schedule) : Schedule :=
  {| teamId := teamId sch; games := games sch; currentIndex := i |}.

Definition set_teamId (t : option string) (sch : Schedule) : Schedule :=
  {| teamId := t; games := games sch; currentIndex := currentIndex sch |}.

Definition set_games (l : list ScheduleEntry) (sch : Schedule) : Schedule :=
  {| teamId := teamId sch; games := l; currentIndex := currentIndex sch |}.

(** The loop of [getNextScheduledGame]: the first index [i >= start] whose
    entry has no scores, with that entry. *)
Fixpoint next_unplayed (start : Z) (l : list ScheduleEntry)
  : option (Z * ScheduleEntry) :=
  match l with
  | [] => None
  | g :: rest =>
      if unplayed g then Some (start, g) else next_unplayed (start + 1) rest
  end.

(** [getNextScheduledGame()]: returns the entry found (an alias of
    [schedule.games[currentIndex]] in the new state) or [None] for [null]. *)
Definition getNextScheduledGame (s : AppState)
  : AppState * option ScheduleEntry :=
  let sch := schedule (cachedViews s) in
  match games sch with
  | [] => (s, None)
  | _ =>
      match next_unplayed 0 (games sch) with
      | Some (i, g) => (upd_schedule (set_currentIndex i) s, Some g)
      | None => (s, None)
      end
  end.

(** Body of [GET /api/team-schedule/{teamId}]. *)
Record ScheduleData := { sd_games : option (list ScheduleEntry) }.

(** The object literal built by [games.map(g => ({...}))]. *)
Definition copy_entry (g : ScheduleEntry) : ScheduleEntry :=
  {| game_id := game_id g; date := date g;
     home_team_id := home_team_id g; away_team_id := away_team_id g;
     home_score := home_score g; away_score := away_score g;
     result_for_user_team :=
       match result_for_user_team g with Some r => Some r | None => None end |}.

(** [games.findIndex(g => g.home_score == null && g.away_score == null)],
    with [None] for [-1]. *)
Definition findIndex_unplayed (l : list ScheduleEntry) : option nat :=
  fst <$> list_find (fun g => unplayed g = true) l.

(** [idx === -1 ? schedule.games.length - 1 : idx] *)
Definition loaded_cursor (l : list ScheduleEntry) : Z :=
  match findIndex_unplayed l with
  | None => Z.of_nat (length l) - 1
  | Some i => Z.of_nat i
  end.

(** The comparator [(a, b) => (a.date < b.date ? 1 : -1)]. *)
Definition cmp_date_desc (a b : ScheduleEntry) : Z :=
  if String.ltb (date a) (date b) then 1 else -1.

(** [Array.prototype.sort] with that comparator, as an insertion sort. The
    comparator never answers 0, so the order among entries of equal date is
    left to the engine; nothing below depends on it. *)
Fixpoint insert_desc (x : ScheduleEntry) (l : list ScheduleEntry)
  : list ScheduleEntry :=
  match l with
  | [] => [x]
  | y :: rest =>
      if cmp_date_desc x y <? 0 then x :: y :: rest
      else y :: insert_desc x rest
  end.

Definition sort_desc (l : list ScheduleEntry) : list ScheduleEntry :=
  foldr insert_desc [] l.

(** [finished[0]?.date || null] *)
Definition first_date (l : list ScheduleEntry) : option string :=
  match l with
  | g :: _ => if str_truthy (date g) then Some (date g) else None
  | [] => None
  end.

Definition schedule_url (tid : string) : string := "/api/team-schedule/" +:+ tid.

(** The guard of [generateSeasonSchedule]: the store already holds a
    non-empty schedule of that team. *)
Definition already_loaded (tid : string) (sch : Schedule) : bool :=
  bool_decide (teamId sch = Some tid) && negb (bool_decide (games sch = [])).

(** [generateSeasonSchedule(teamId)], given the response of the schedule
    request should it be issued. *)
Definition generateSeasonSchedule (tid : string) (resp : Response ScheduleData)
    (s : AppState) : AppState * list Event :=
  if already_loaded tid (schedule (cachedViews s)) then (s, [])
  else
    let s1 :=
      upd_schedule
        (fun _ => {| teamId := Some tid; games := []; currentIndex := 0 |}) s in
    match resp with
    | RespNotOk _ =>
        (s1, [Fetch (schedule_url tid); Alert AlertScheduleLoadProblem])
    | RespThrow =>
        (s1, [Fetch (schedule_url tid); Alert AlertScheduleLoadError])
    | RespOk data =>
        let gs := copy_entry <$> default [] (sd_games data) in
        let s2 :=
          upd_schedule
            (fun _ => {| teamId := Some tid; games := gs;
                         currentIndex := loaded_cursor gs |}) s1 in
        let fin := sort_desc (List.filter finished gs) in
        let s3 :=
          upd_scores
            (fun _ => {| latest_date := first_date fin;
                         scores_games := OfSchedule <$> take 50 fin |}) s2 in
        let s4 :=
          match gs with
          | g0 :: _ => set_currentDate (Some (date g0)) s3
          | [] => s3
          end in
        (s4, [Fetch (schedule_url tid)])
    end.

(** ** FatigueModel (Game_sims.js) *)

(** [g.home_team_id === teamId || g.away_team_id === teamId] *)
Definition involves (tid : option string) (g : ScheduleEntry) : bool :=
  bool_decide (Some (home_team_id g) = tid)
  || bool_decide (Some (away_team_id g) = tid).

(** The backward loop [for (i = currentIndex - 1; i >= 0; i--)]; the counter
    [n] is the number of indices still to visit, the next one being [n-1].
    Holes ([!g]) are skipped. *)
Fixpoint last_game_date (tid : option string) (l : list ScheduleEntry)
    (n : nat) : option string :=
  match n with
  | O => None
  | S k =>
      match l !! k with
      | Some g => if involves tid g then Some (date g)
                  else last_game_date tid l k
      | None => last_game_date tid l k
      end
  end.

Definition ms_per_day : Z := 1000 * 60 * 60 * 24.

(** [calcFatigueFactor(restDays)]; [None] is NaN, on which every comparison
    of the function is false. *)
Definition calcFatigueFactor (restDays : option Z) : Q :=
  match restDays with
  | None => 105 # 100
  | Some r =>
      if r <=? 0 then 92 # 100
      else if r =? 1 then 97 # 100
      else if r =? 2 then 100 # 100
      else if r =? 3 then 103 # 100
      else 105 # 100
  end.

(** A reading of calendar dates [YYYY-MM-DD] as milliseconds since the
    epoch at UTC midnight, the value [new Date(s)] holds for such strings.
    It instantiates the date parser on concrete schedules. The engine
    accepts the days 01 to 31 in every month and counts a day past the end
    of the month into the next one ("2025-02-30" is 2 March 2025); so does
    [days_from_civil], which is linear in the day. *)
Definition digit_of (a : ascii) : option Z :=
  let n := Z.of_nat (nat_of_ascii a) - 48 in
  if (0 <=? n) && (n <=? 9) then Some n else None.

Definition days_from_civil (y m d : Z) : Z :=
  let y' := if m <=? 2 then y - 1 else y in
  let era := y' / 400 in
  let yoe := y' - era * 400 in
  let mp := if m >? 2 then m - 3 else m + 9 in
  let doy := (153 * mp + 2) / 5 + d - 1 in
  let doe := yoe * 365 + yoe / 4 - yoe / 100 + doy in
  era * 146097 + doe - 719468.

Definition isoDateMs (s : string) : option Z :=
  match s with
  | String y1 (String y2 (String y3 (String y4 (String "-"%char
      (String m1 (String m2 (String "-"%char
        (String d1 (String d2 EmptyString))))))))) =>
      a ← digit_of y1; b ← digit_of y2; c ← digit_of y3; e ← digit_of y4;
      f ← digit_of m1; g ← digit_of m2; h ← digit_of d1; i ← digit_of d2;
      let y := a * 1000 + b * 100 + c * 10 + e in
      let m := f * 10 + g in
      let d := h * 10 + i in
      if (1 <=? m) && (m <=? 12) && (1 <=? d) && (d <=? 31)
      then Some (days_from_civil y m d * ms_per_day)
      else None
  | _ => None
  end.

(** ** TacticsProjector *)

Definition getDefaultTactics : Tactics :=
  {| pace := Some (Finite 0);
     offenseScheme := Some "pace_space";
     offenseSecondaryScheme := Some "pace_space";
     offensePrimaryWeight := Some (Finite 5);
     offenseSecondaryWeight := Some (Finite 5);
     defenseScheme := Some "drop_coverage";
     defenseSecondaryScheme := Some "drop_coverage";
     defensePrimaryWeight := Some (Finite 5);
     defenseSecondaryWeight := Some (Finite 5);
     rotationSize := Some 9;
     starters := Some [];
     bench := Some [];
     minutes := Some [] |}.

(** [getOrCreateTacticsForTeam(teamId)]: the profiles live in
    [appState.tacticsByTeam], keyed by team id; a profile is created only
    where the team has none. [None] is the [null] returned for a falsy id. *)
Definition getOrCreateTacticsForTeam (tid : string) (s : AppState)
  : AppState * option Tactics :=
  if negb (str_truthy tid) then (s, None)
  else
    match tacticsByTeam s !! tid with
    | Some t => (s, Some t)
    | None =>
        (set_tacticsByTeam (<[tid := getDefaultTactics]> (tacticsByTeam s)) s,
         Some getDefaultTactics)
    end.

(** [normalizeWeight(value, fallback)]. Numbers are rationals here: the
    division is exact, where the source rounds it to a double. What is
    stated below about the value of a weight is what rounding keeps: its
    bounds and its order, and the images 1 and 2 of the weights 5 and
    10. *)
Definition normalizeWeight (value : option num) (fallback : Q) : Q :=
  let raw := default (Finite fallback) value in
  let numeric := match raw with Finite q => q | NotFinite => fallback end in
  Qmax (2 # 10) (numeric / 5)%Q.

(** [x || d] on a possibly-null string. *)
Definition str_or (x : option string) (d : string) : string :=
  match x with
  | Some v => if str_truthy v then v else d
  | None => d
  end.

(** [x || d] on a possibly-null integer. *)
Definition int_or (x : option Z) (d : Z) : Z :=
  match x with
  | Some v => if v =? 0 then d else v
  | None => d
  end.

Definition project_tactics (t : Tactics) : UserTactics :=
  {| p_pace := default (Finite 0) (pace t);
     offense_scheme := str_or (offenseScheme t) "Spread_HeavyPnR";
     defense_scheme := str_or (defenseScheme t) "Drop";
     scheme_weight_sharpness := normalizeWeight (offensePrimaryWeight t) 5;
     scheme_outcome_strength := normalizeWeight (offenseSecondaryWeight t) 5;
     def_scheme_weight_sharpness := normalizeWeight (defensePrimaryWeight t) 5;
     def_scheme_outcome_strength := normalizeWeight (defenseSecondaryWeight t) 5;
     rotation_size := int_or (rotationSize t) 9;
     lineup_starters := default [] (starters t);
     lineup_bench := default [] (bench t);
     p_minutes := default [] (minutes t) |}.

(** [appState.selectedTeam && appState.selectedTeam.id === teamId] *)
Definition isUserTeam (tid : string) (s : AppState) : bool :=
  match selectedTeam s with
  | Some u => bool_decide (t_id u = tid)
  | None => false
  end.

(** [buildTacticsForTeam(teamId, fatigueFactor)]. The payload is [None]
    where the source would dereference a [null] profile and throw. *)
Definition buildTacticsForTeam (tid : string) (fatigueFactor : Q)
    (s : AppState) : AppState * option TacticsPayload :=
  if isUserTeam tid s then
    match getOrCreateTacticsForTeam tid s with
    | (s', Some t) => (s', Some (UserPayload (project_tactics t)))
    | (s', None) => (s', None)
    end
  else (s, Some (OpponentPayload 0)).

(** ** ViewCache accessors (ui.js) *)

(** [new Date().toISOString()]: always a non-empty string. *)
Record IsoTime := { iso : string; iso_truthy : str_truthy iso = true }.

Record StandingsData := { sd_east : option (list json); sd_west : option (list json) }.
Record StatsData := { st_leaders : option json; st_updated_at : option string }.
Record NewsData := { nd_items : option (list json); nd_current_date : option string }.

(** [x || now] for a marker. *)
Definition marker_or (x : option string) (now : IsoTime) : string :=
  str_or x (iso now).

Definition upd_views (f : CachedViews -> CachedViews) (s : AppState) : AppState :=
  set_cachedViews (f (cachedViews s)) s.

Definition set_stats (v : StatsView) (cv : CachedViews) : CachedViews :=
  {| last_progress_turn_id := last_progress_turn_id cv; scores := scores cv;
     schedule := schedule cv; news := news cv; stats := v;
     standings := standings cv; teams := teams cv;
     weeklyNews := weeklyNews cv |}.

Definition set_standings (v : StandingsView) (cv : CachedViews) : CachedViews :=
  {| last_progress_turn_id := last_progress_turn_id cv; scores := scores cv;
     schedule := schedule cv; news := news cv; stats := stats cv;
     standings := v; teams := teams cv; weeklyNews := weeklyNews cv |}.

Definition set_teams (v : TeamsView) (cv : CachedViews) : CachedViews :=
  {| last_progress_turn_id := last_progress_turn_id cv; scores := scores cv;
     schedule := schedule cv; news := news cv; stats := stats cv;
     standings := standings cv; teams := v; weeklyNews := weeklyNews cv |}.

Definition set_weeklyNews (v : WeeklyNewsView) (cv : CachedViews) : CachedViews :=
  {| last_progress_turn_id := last_progress_turn_id cv; scores := scores cv;
     schedule := schedule cv; news := news cv; stats := stats cv;
     standings := standings cv; teams := teams cv; weeklyNews := v |}.

(** Each accessor is split at its [await]: [*_fetches] says whether the
    request is issued, [*_complete] is the continuation run on the response,
    and [load*IfNeeded] is the whole call. *)

Definition standings_fetches (force : bool) (s : AppState) : bool :=
  force || negb (ostr_truthy (standings_lastLoaded (standings (cachedViews s)))).

Definition standings_complete (resp : Response StandingsData) (now : IsoTime)
    (s : AppState) : AppState :=
  match resp with
  | RespOk d =>
      upd_views (set_standings
        {| east := default [] (sd_east d); west := default [] (sd_west d);
           standings_lastLoaded := Some (iso now) |}) s
  | _ => s
  end.

Definition loadStandingsIfNeeded (force : bool) (resp : Response StandingsData)
    (now : IsoTime) (s : AppState) : AppState * list Event :=
  if standings_fetches force s
  then (standings_complete resp now s, [Fetch "/api/standings"])
  else (s, []).

Definition stats_fetches (force : bool) (s : AppState) : bool :=
  force || negb (ostr_truthy (stats_lastLoaded (stats (cachedViews s)))).

Definition stats_complete (resp : Response StatsData) (now : IsoTime)
    (s : AppState) : AppState :=
  match resp with
  | RespOk d =>
      upd_views (set_stats
        {| leaders := match st_leaders d with
                      | Some j => if json_truthy j then Some j else None
                      | None => None
                      end;
           stats_lastLoaded := Some (marker_or (st_updated_at d) now) |}) s
  | _ => s
  end.

Definition loadStatsLeadersIfNeeded (force : bool) (resp : Response StatsData)
    (now : IsoTime) (s : AppState) : AppState * list Event :=
  if stats_fetches force s
  then (stats_complete resp now s, [Fetch "/api/stats/leaders"])
  else (s, []).

(** The teams accessor tests the list, not the marker. The body is [Some l]
    when the response is an array. *)
Definition teams_fetches (force : bool) (s : AppState) : bool :=
  force || negb (0 <? Z.of_nat (length (teams_list (teams (cachedViews s))))).

Definition teams_complete (resp : Response (option (list json))) (now : IsoTime)
    (s : AppState) : AppState :=
  match resp with
  | RespOk d =>
      upd_views (set_teams
        {| teams_list := default [] d;
           detailById := detailById (teams (cachedViews s));
           teams_lastLoaded := Some (iso now) |}) s
  | _ => s
  end.

Definition loadTeamsListIfNeeded (force : bool)
    (resp : Response (option (list json))) (now : IsoTime) (s : AppState)
  : AppState * list Event :=
  if teams_fetches force s
  then (teams_complete resp now s, [Fetch "/api/teams"])
  else (s, []).

Definition weeklyNews_fetches (force : bool) (s : AppState) : bool :=
  ostr_truthy (apiKey s)
  && (force || negb (ostr_truthy (weekly_lastLoaded (weeklyNews (cachedViews s))))).

Definition weeklyNews_complete (resp : Response NewsData) (now : IsoTime)
    (s : AppState) : AppState :=
  match resp with
  | RespOk d =>
      upd_views (set_weeklyNews
        {| items := default [] (nd_items d);
           weekly_lastLoaded := Some (marker_or (nd_current_date d) now) |}) s
  | _ => s
  end.

Definition loadWeeklyNewsIfNeeded (force : bool) (resp : Response NewsData)
    (now : IsoTime) (s : AppState) : AppState * list Event :=
  if weeklyNews_fetches force s
  then (weeklyNews_complete resp now s,
        [Post "/api/news/week" (BodyNews (default "" (apiKey s)))])
  else (s, []).

(** The requests started by [renderAllTabs()] ([renderStats], [renderTeams],
    [renderNews]; the other renderers only write to the page). The calls are
    not awaited: their continuations run after the caller has returned. *)
Definition renderAllTabs_requests (s : AppState) : list Event :=
  (if stats_fetches false s then [Fetch "/api/stats/leaders"] else [])
  ++ (if teams_fetches false s then [Fetch "/api/teams"] else [])
  ++ (if weeklyNews_fetches false s
      then [Post "/api/news/week" (BodyNews (default "" (apiKey s)))] else []).

(** The four assignments [cv.X.lastLoaded = null]. *)
Definition invalidate_views (cv : CachedViews) : CachedViews :=
  {| last_progress_turn_id := last_progress_turn_id cv;
     scores := scores cv; schedule := schedule cv; news := news cv;
     stats := {| leaders := leaders (stats cv); stats_lastLoaded := None |};
     standings := {| east := east (standings cv); west := west (standings cv);
                     standings_lastLoaded := None |};
     teams := {| teams_list := teams_list (teams cv);
                 detailById := detailById (teams cv);
                 teams_lastLoaded := None |};
     weeklyNews := {| items := items (weeklyNews cv);
                      weekly_lastLoaded := None |} |}.

(** ** Team selection (ui.js) *)

Definition set_rosters (m : gmap string json) (s : AppState) : AppState :=
  {| apiKey := apiKey s; selectedTeam := selectedTeam s;
     progressTurns := progressTurns s; currentDate := currentDate s;
     cachedViews := cachedViews s; rosters := m;
     chatHistory := chatHistory s;
     firstMessageShownTeams := firstMessageShownTeams s;
     tacticsByTeam := tacticsByTeam s; postseason := postseason s;
     seasonReportReady := seasonReportReady s;
     seasonReportText := seasonReportText s |}.

(** [appState.rosters[teamId]] is truthy. *)
Definition roster_cached (tid : string) (s : AppState) : bool :=
  match rosters s !! tid with
  | Some j => json_truthy j
  | None => false
  end.

(** [loadRosterForTeam(teamId)] (llm.js), run to completion. *)
Definition loadRosterForTeam (tid : string) (resp : Response json)
    (s : AppState) : AppState * list Event :=
  if negb (str_truthy tid) then (s, [])
  else if roster_cached tid s then (s, [])
  else
    match resp with
    | RespOk d =>
        (set_rosters (<[tid := d]> (rosters s)) s,
         [Fetch ("/api/roster-summary/" +:+ tid)])
    | _ => (s, [Fetch ("/api/roster-summary/" +:+ tid)])
    end.

(** [selectTeam(teamId)]: an unknown id returns at once; otherwise the
    cached views are replaced by fresh ones for the team, the per-team
    tactics map is kept and completed for the team, and the roster summary is
    requested. *)
Definition selectTeam (tid : string) (roster_resp : Response json)
    (s : AppState) : AppState * list Event :=
  match find_team tid with
  | None => (s, [])
  | Some team =>
      let s1 :=
        {| apiKey := apiKey s; selectedTeam := Some team;
           progressTurns := 0; currentDate := currentDate s;
           cachedViews := emptyViews (Some (t_id team));
           rosters := ∅; chatHistory := [];
           firstMessageShownTeams := firstMessageShownTeams s;
           tacticsByTeam := tacticsByTeam s; postseason := None;
           seasonReportReady := false;
           seasonReportText := seasonReportText s |} in
      let s2 := fst (getOrCreateTacticsForTeam (t_id team) s1) in
      loadRosterForTeam (t_id team) roster_resp s2
  end.

(** ** Play-in lookup (ui.js) *)

Record Participant := { team_id : option string }.
Record PlayInResult := { winner : option string }.
Record Matchup := {
  home : option Participant;
  away : option Participant;
  result : option PlayInResult
}.
Record ConfState := {
  matchups : option (gmap string Matchup);
  participants : option (list (string * option Participant))
}.

Definition play_in_order : list string :=
  ["seven_vs_eight"; "nine_vs_ten"; "final"].

(** [confState.matchups?.[key]] *)
Definition matchup_of (c : ConfState) (key : string) : option Matchup :=
  matchups c ≫= (fun m => m !! key).

(** [matchup.home?.team_id] *)
Definition side_id (p : option Participant) : option string := p ≫= team_id.

(** [myId && (homeId === myId || awayId === myId)] *)
Definition mine (myId : option string) (m : Matchup) : bool :=
  ostr_truthy myId
  && (bool_decide (side_id (home m) = myId)
      || bool_decide (side_id (away m) = myId)).

(** The [for (const key of order)] loop of [nextPlayInMatchup]. *)
Fixpoint play_in_scan (c : ConfState) (myId : option string)
    (keys : list string) : option Matchup :=
  match keys with
  | [] => None
  | key :: rest =>
      match matchup_of c key with
      | None => play_in_scan c myId rest
      | Some m =>
          match result m with
          | Some _ => play_in_scan c myId rest
          | None => if mine myId m then Some m else play_in_scan c myId rest
          end
      end
  end.

Definition nextPlayInMatchup (confState : option ConfState) (s : AppState)
  : option Matchup :=
  match confState with
  | None => None
  | Some c => play_in_scan c (t_id <$> selectedTeam s) play_in_order
  end.

(** [Object.values(participants).some(p => p && p.team_id === myId)] *)
Definition has_participant (myId : string) (c : ConfState) : bool :=
  existsb
    (fun kv => match snd kv with
               | Some p => bool_decide (team_id p = Some myId)
               | None => false
               end)
    (default [] (participants c)).

(** [findMyPlayInConf(playInState)]; the state lists its conferences in key
    order. *)
Definition findMyPlayInConf (playInState : option (list (string * ConfState)))
    (s : AppState) : option (string * ConfState) :=
  match playInState, selectedTeam s with
  | Some confs, Some u => List.find (fun kc => has_participant (t_id u) (snd kc)) confs
  | _, _ => None
  end.

(** The matchup shown by [renderPlayInStage]:
    [myInfo ? nextPlayInMatchup(myInfo.confState) : null]. *)
Definition my_next_play_in (playInState : option (list (string * ConfState)))
    (s : AppState) : option Matchup :=
  match findMyPlayInConf playInState s with
  | Some (_, c) => nextPlayInMatchup (Some c) s
  | None => None
  end.

(** ** GameOrchestrator (Game_sims.js) *)

Record LeagueGame := {
  lg_game_id : string;
  lg_date : string;
  lg_home_team_id : string;
  lg_away_team_id : string;
  lg_home_score : option Z;
  lg_away_score : option Z;
  lg_status : option string;
  lg_is_overtime : option bool
}.

Record LeagueData := { simulated_games : option (list LeagueGame) }.
Record SimData := { final_score : option (gmap string Z); commentary : option string }.
Record ReportData := { report_markdown : option string; report : option string }.

(** What the outside answers during one call of [simulateGameProgress],
    and whether the page has the [homeLLMOutput] element. *)
Record World := {
  schedule_resp : Response ScheduleData;
  report_resp : Response ReportData;
  league_resp : Response LeagueData;
  sim_resp : Response SimData;
  homeLLMOutput : bool
}.

Record GameResult := {
  r_game_id : string;
  r_game_date : string;
  r_home_team_id : string;
  r_away_team_id : string;
  r_home_team_name : string;
  r_away_team_name : string;
  r_home_score : Z;
  r_away_score : Z;
  r_result_for_user_team : option string;
  log_entry : GameRecord
}.

(** The three shapes of the returned value: the success object,
    [{ success: false, reason }], and plain [false]. *)
Inductive Outcome :=
  | Success (r : GameResult)
  | Failure (reason : string)
  | ReturnedFalse.

(** The record unshifted into [scores.games] for a league game. *)
Definition league_record (g : LeagueGame) : GameRecord :=
  {| gr_game_id := lg_game_id g; gr_date := lg_date g;
     gr_home_team_id := lg_home_team_id g;
     gr_away_team_id := lg_away_team_id g;
     gr_home_team_name := t_name (team_or_stub (lg_home_team_id g));
     gr_away_team_name := t_name (team_or_stub (lg_away_team_id g));
     gr_home_score := lg_home_score g; gr_away_score := lg_away_score g;
     gr_status := str_or (lg_status g) "final";
     gr_is_overtime := default false (lg_is_overtime g) |}.

(** [simulated.forEach(g => scores.games.unshift(...))] followed by the
    update of [latest_date]. *)
Definition merge_league (simulated : list LeagueGame) (sc : Scores) : Scores :=
  {| latest_date :=
       match simulated with
       | g :: _ => Some (lg_date g)
       | [] => latest_date sc
       end;
     scores_games :=
       fold_left (fun acc g => Decided (league_record g) :: acc)
                 simulated (scores_games sc) |}.

(** [finalScore[teamId] ?? 0] with [finalScore = data.final_score || {}]. *)
Definition score_of (d : SimData) (tid : string) : Z :=
  default 0 (default ∅ (final_score d) !! tid).

(** [myScore > oppScore ? "W" : "L"] *)
Definition result_label (myScore oppScore : Z) : string :=
  if myScore >? oppScore then "W" else "L".

(** The writes through the alias [nextGame]. *)
Definition with_result (h a : Z) (r : string) (g : ScheduleEntry)
  : ScheduleEntry :=
  {| game_id := game_id g; date := date g;
     home_team_id := home_team_id g; away_team_id := away_team_id g;
     home_score := Some h; away_score := Some a;
     result_for_user_team := Some r |}.

(** [nextGame] is the object at [schedule.games[currentIndex]]: writing
    through it updates the schedule in place. *)
Definition write_next_game (f : ScheduleEntry -> ScheduleEntry)
    (sch : Schedule) : Schedule :=
  set_games (alter f (Z.to_nat (currentIndex sch)) (games sch)) sch.

(** [data.report_markdown || data.report || ""] *)
Definition report_text (d : ReportData) : string :=
  str_or (report_markdown d) (str_or (report d) "").

(** [selectedTeam || TEAMS[0]] *)
Definition user_team (s : AppState) : Team :=
  default {| t_id := "ATL"; t_name := "Atlanta Hawks" |} (selectedTeam s).

Section Orchestrator.

(** The time value, in milliseconds, that [new Date(str)] holds; [None] for
    an invalid date (NaN). Supplied by the JavaScript runtime. *)
Variable Date_ms : string -> option Z.

(** [computeRestDaysForUserTeam()]; [None] is NaN. *)
Definition computeRestDaysForUserTeam (s : AppState) : option Z :=
  let sch := schedule (cachedViews s) in
  match games sch with
  | [] => Some 0
  | _ =>
      let ci := currentIndex sch in
      match last_game_date (teamId sch) (games sch) (Z.to_nat ci) with
      | None => Some 3
      | Some lastGameDate =>
          if negb (str_truthy lastGameDate) then Some 3
          else
            match game_at (games sch) ci with
            | None => Some 0
            | Some currentGame =>
                match Date_ms lastGameDate, Date_ms (date currentGame) with
                | Some d1, Some d2 =>
                    let diffDays := (d2 - d1) / ms_per_day in
                    Some (Z.max 0 (diffDays - 1))
                | _, _ => None
                end
            end
      end
  end.

(** The season-over branch: two alerts, then the report request where the
    key, the team and the output element are all there. *)
Definition season_over (w : World) (s : AppState) : AppState * list Event :=
  let pre := [Alert AlertNoGamesLeft; Alert AlertSeasonWrapUp] in
  match apiKey s, selectedTeam s with
  | Some k, Some u =>
      if str_truthy k && homeLLMOutput w then
        let req := Post "/api/season-report" (BodyReport k (t_id u)) in
        match report_resp w with
        | RespNotOk _ => (s, pre ++ [req; Alert AlertSeasonReportError])
        | RespThrow => (s, pre ++ [req; Alert AlertSeasonReportException])
        | RespOk d =>
            if str_truthy (report_text d)
            then (set_seasonReport (report_text d) s, pre ++ [req])
            else (s, pre ++ [req])
        end
      else (s, pre)
  | _, _ => (s, pre)
  end.

(** The block after a successful [/api/simulate-game] response. The state
    is the one at the moment the function returns. [renderAllTabs()] is not
    awaited: the requests it starts are in the trace, and their answers
    arrive after the return; [settle_views] below runs what they do then. *)
Definition apply_result (userTeam homeTeam awayTeam : Team)
    (nextGame : ScheduleEntry) (d : SimData) (s : AppState)
  : AppState * Outcome * list Event :=
  let gameDate := date nextGame in
  let isUserHome := bool_decide (t_id userTeam = t_id homeTeam) in
  let homeScore := score_of d (t_id homeTeam) in
  let awayScore := score_of d (t_id awayTeam) in
  let turns := progressTurns s + 1 in
  let userGameEntry :=
    {| gr_game_id := game_id nextGame; gr_date := gameDate;
       gr_home_team_id := t_id homeTeam; gr_away_team_id := t_id awayTeam;
       gr_home_team_name := t_name homeTeam;
       gr_away_team_name := t_name awayTeam;
       gr_home_score := Some homeScore; gr_away_score := Some awayScore;
       gr_status := "final"; gr_is_overtime := false |} in
  let myScore := if isUserHome then homeScore else awayScore in
  let oppScore := if isUserHome then awayScore else homeScore in
  let res := result_label myScore oppScore in
  let oppTeam := if isUserHome then awayTeam else homeTeam in
  let item :=
    {| news_date := gameDate; news_user_name := t_name userTeam;
       news_opp_name := t_name oppTeam; news_my_score := myScore;
       news_opp_score := oppScore; news_user_won := myScore >? oppScore;
       related_team_ids := [t_id userTeam; t_id oppTeam] |} in
  let cv := cachedViews s in
  let cv1 :=
    {| last_progress_turn_id := Some ("turn_" +:+ pretty turns);
       scores := {| latest_date := Some gameDate;
                    scores_games := Decided userGameEntry
                                      :: scores_games (scores cv) |};
       schedule := write_next_game (with_result homeScore awayScore res)
                     (schedule cv);
       news := item :: news cv;
       stats := stats cv; standings := standings cv; teams := teams cv;
       weeklyNews := weeklyNews cv |} in
  let s1 :=
    set_currentDate (Some gameDate)
      (set_cachedViews cv1 (set_progressTurns turns s)) in
  let started := renderAllTabs_requests s1 in
  let s2 := upd_views invalidate_views s1 in
  (s2,
   Success
     {| r_game_id := game_id nextGame; r_game_date := gameDate;
        r_home_team_id := t_id homeTeam; r_away_team_id := t_id awayTeam;
        r_home_team_name := t_name homeTeam;
        r_away_team_name := t_name awayTeam;
        r_home_score := homeScore; r_away_score := awayScore;
        r_result_for_user_team := Some res;
        log_entry := userGameEntry |},
   started).

(** [simulateGameProgress()] *)
Definition simulateGameProgress (w : World) (s : AppState)
  : AppState * Outcome * list Event :=
  let userTeam := user_team s in
  let s1 :=
    if ostr_truthy (teamId (schedule (cachedViews s))) then s
    else upd_schedule (set_teamId (Some (t_id userTeam))) s in
  let '(s2, ev_load) :=
    match games (schedule (cachedViews s1)) with
    | [] =>
        generateSeasonSchedule
          (default "" (teamId (schedule (cachedViews s1))))
          (schedule_resp w) s1
    | _ => (s1, [])
    end in
  match getNextScheduledGame s2 with
  | (s3, None) =>
      let '(s4, ev) := season_over w s3 in
      (s4, Failure "no-more-regular-season", ev_load ++ ev)
  | (s3, Some nextGame) =>
      let homeTeam := team_or_stub (home_team_id nextGame) in
      let awayTeam := team_or_stub (away_team_id nextGame) in
      let gameDate := date nextGame in
      let ev_league :=
        [Post "/api/advance-league" (BodyLeague gameDate (t_id userTeam))] in
      let s4 :=
        match league_resp w with
        | RespOk d =>
            upd_scores (merge_league (default [] (simulated_games d))) s3
        | _ => s3
        end in
      let restDays := computeRestDaysForUserTeam s4 in
      let fatigueFactor := calcFatigueFactor restDays in
      let isUserHome := bool_decide (t_id userTeam = t_id homeTeam) in
      let homeFatigue := if isUserHome then fatigueFactor else 1%Q in
      let awayFatigue := if negb isUserHome then fatigueFactor else 1%Q in
      let before := ev_load ++ ev_league in
      match buildTacticsForTeam (t_id homeTeam) homeFatigue s4 with
      | (s5, None) => (s5, ReturnedFalse, before ++ [Alert AlertEngineException])
      | (s5, Some homeTactics) =>
          match buildTacticsForTeam (t_id awayTeam) awayFatigue s5 with
          | (s6, None) =>
              (s6, ReturnedFalse, before ++ [Alert AlertEngineException])
          | (s6, Some awayTactics) =>
              let req :=
                Post "/api/simulate-game"
                  (BodySim {| req_home_team_id := t_id homeTeam;
                              req_away_team_id := t_id awayTeam;
                              home_tactics := homeTactics;
                              away_tactics := awayTactics;
                              game_date := gameDate |}) in
              match sim_resp w with
              | RespNotOk msg =>
                  (s6, ReturnedFalse,
                   before ++ [req; Alert (AlertEngineCallFailed msg)])
              | RespThrow =>
                  (s6, ReturnedFalse,
                   before ++ [req; Alert AlertEngineException])
              | RespOk d =>
                  let '(s7, out, started) :=
                    apply_result userTeam homeTeam awayTeam nextGame d s6 in
                  (s7, out, before ++ [req] ++ started)
              end
          end
      end
  end.

End Orchestrator.

(** The [input] handler of the pace slider (ui.js):
    [tactics.pace = Number(tacticsPaceInput.value || 0)] on the profile
    object stored for the selected team. *)
Definition set_pace (v : num) (t : Tactics) : Tactics :=
  {| pace := Some v; offenseScheme := offenseScheme t;
     offenseSecondaryScheme := offenseSecondaryScheme t;
     offensePrimaryWeight := offensePrimaryWeight t;
     offenseSecondaryWeight := offenseSecondaryWeight t;
     defenseScheme := defenseScheme t;
     defenseSecondaryScheme := defenseSecondaryScheme t;
     defensePrimaryWeight := defensePrimaryWeight t;
     defenseSecondaryWeight := defenseSecondaryWeight t;
     rotationSize := rotationSize t; starters := starters t;
     bench := bench t; minutes := minutes t |}.

Definition onPaceInput (v : num) (s : AppState) : AppState :=
  match selectedTeam s with
  | None => s
  | Some team =>
      match getOrCreateTacticsForTeam (t_id team) s with
      | (s', Some t) =>
          set_tacticsByTeam (<[t_id team := set_pace v t]> (tacticsByTeam s')) s'
      | (s', None) => s'
      end
  end.

(** Number of HTTP requests in a trace. *)
Definition is_request (e : Event) : bool :=
  match e with
  | Fetch _ | Post _ _ => true
  | Alert _ => false
  end.

Definition request_count (evs : list Event) : nat :=
  length (List.filter is_request evs).

(** The part of the state that only the result-application block of
    [simulateGameProgress] writes. *)
Definition applied_part (s : AppState) :=
  (progressTurns s,
   last_progress_turn_id (cachedViews s),
   news (cachedViews s),
   stats (cachedViews s),
   standings (cachedViews s),
   teams (cachedViews s),
   weeklyNews (cachedViews s)).

(** *** The stages of [simulateGameProgress]

    Names for the consecutive blocks of the function, used to state what
    each block reads and writes. *)

(** The first two steps of [simulateGameProgress]: the team id of the
    schedule is filled in, and an empty schedule is loaded. *)
Definition stage_load (w : World) (s : AppState) : AppState * list Event :=
  let s1 :=
    if ostr_truthy (teamId (schedule (cachedViews s))) then s
    else upd_schedule (set_teamId (Some (t_id (user_team s)))) s in
  match games (schedule (cachedViews s1)) with
  | [] =>
      generateSeasonSchedule
        (default "" (teamId (schedule (cachedViews s1))))
        (schedule_resp w) s1
  | _ => (s1, [])
  end.

(** The league catch-up merge. *)
Definition stage_league (w : World) (s : AppState) : AppState :=
  match league_resp w with
  | RespOk d => upd_scores (merge_league (default [] (simulated_games d))) s
  | _ => s
  end.

(** The two calls of [buildTacticsForTeam]. *)
Definition stage_tactics (homeId awayId : string) (fh fa : Q) (s : AppState)
  : AppState * option (TacticsPayload * TacticsPayload) :=
  match buildTacticsForTeam homeId fh s with
  | (s5, None) => (s5, None)
  | (s5, Some h) =>
      match buildTacticsForTeam awayId fa s5 with
      | (s6, None) => (s6, None)
      | (s6, Some a) => (s6, Some (h, a))
      end
  end.

Definition league_request (g : ScheduleEntry) (u : Team) : Event :=
  Post "/api/advance-league" (BodyLeague (date g) (t_id u)).

Definition sim_request (g : ScheduleEntry) (h a : TacticsPayload) : Event :=
  Post "/api/simulate-game"
    (BodySim {| req_home_team_id := t_id (team_or_stub (home_team_id g));
                req_away_team_id := t_id (team_or_stub (away_team_id g));
                home_tactics := h; away_tactics := a;
                game_date := date g |}).

(** ** Requests still under way when an advance returns

    [renderStats], [renderTeams] and [renderNews] each await their accessor.
    Called from [renderAllTabs()] at the end of an advance, an accessor that
    finds its view unloaded sends its request at once; its continuation
    runs when the answer arrives, after [simulateGameProgress] has nulled
    the markers and returned, and on an OK answer stores the payload and
    sets the marker again. *)






(** The requests of the four marker-gated views. *)
Definition view_request (e : Event) : bool :=
  match e with
  | Fetch url =>
      String.eqb url "/api/stats/leaders" || String.eqb url "/api/standings"
      || String.eqb url "/api/teams"
  | Post url _ => String.eqb url "/api/news/week"
  | Alert _ => false
  end.

(** What the stages before the result-application block leave alone. *)
Definition same_applied (a b : AppState) : Prop :=
  applied_part a = applied_part b
  ∧ apiKey a = apiKey b
  ∧ selectedTeam a = selectedTeam b.

(** The simulate-game call did not succeed. *)
Definition sim_failed (w : World) : Prop :=
  (∃ text, sim_resp w = RespNotOk text) ∨ sim_resp w = RespThrow.

(** ** Concrete schedules and answers used in the examples *)

Module Demo.

Definition entry (id d h a : string) (hs vs : option Z) (r : option string)
  : ScheduleEntry :=
  {| game_id := id; date := d; home_team_id := h; away_team_id := a;
     home_score := hs; away_score := vs; result_for_user_team := r |}.

(** Atlanta: one game played on 21 October, the next ones on the 25th and
    the 26th. *)
Definition atl_games : list ScheduleEntry :=
  [ entry "g1" "2025-10-21" "ATL" "BOS" (Some 100) (Some 90) (Some "W");
    entry "g2" "2025-10-25" "CHI" "ATL" None None None;
    entry "g3" "2025-10-26" "ATL" "MIA" None None None ].

(** A season whose every game has been played. *)
Definition all_played : list ScheduleEntry :=
  [ entry "g1" "2025-10-21" "ATL" "BOS" (Some 100) (Some 90) (Some "W");
    entry "g2" "2025-10-22" "CHI" "ATL" (Some 99) (Some 101) (Some "W") ].

(** The same season before its last game. *)
Definition last_open : list ScheduleEntry :=
  [ entry "g1" "2025-10-21" "ATL" "BOS" (Some 100) (Some 90) (Some "W");
    entry "g2" "2025-10-22" "CHI" "ATL" None None None ].

Definition no_roster : Response json := RespThrow.

Definition atl_selected : AppState :=
  Eval vm_compute in fst (selectTeam "ATL" no_roster initialState).

Definition load (gs : list ScheduleEntry) (s : AppState) : AppState :=
  fst (generateSeasonSchedule "ATL" (RespOk {| sd_games := Some gs |}) s).

Definition atl_loaded : AppState :=
  Eval vm_compute in load atl_games atl_selected.

(** Atlanta about to play the second night of a back-to-back. *)
Definition atl_back_to_back : AppState :=
  Eval vm_compute in load last_open atl_selected.


Definition atl_101_chi_99 : gmap string Z :=
  Eval vm_compute in {[ "ATL" := 101; "CHI" := 99 ]}.

Definition sim_ok : Response SimData :=
  RespOk {| final_score := Some atl_101_chi_99; commentary := None |}.

(** The simulator answers without any score. *)
Definition sim_no_scores : Response SimData :=
  RespOk {| final_score := None; commentary := None |}.

Definition league_one : Response LeagueData :=
  RespOk {| simulated_games :=
    Some [ {| lg_game_id := "x1"; lg_date := "2025-10-24";
              lg_home_team_id := "BOS"; lg_away_team_id := "MIA";
              lg_home_score := Some 110; lg_away_score := Some 104;
              lg_status := None; lg_is_overtime := None |} ] |}.

Definition world (league : Response LeagueData) (sim : Response SimData)
  : World :=
  {| schedule_resp := RespThrow; report_resp := RespThrow;
     league_resp := league; sim_resp := sim; homeLLMOutput := true |}.

Definition world_ok : World := world league_one sim_ok.
Definition world_rejected : World := world league_one (RespNotOk "engine down").
Definition world_no_scores : World := world league_one sim_no_scores.

Definition result_g2 : GameResult :=
  {| r_game_id := "g2"; r_game_date := "2025-10-25";
     r_home_team_id := "CHI"; r_away_team_id := "ATL";
     r_home_team_name := "Chicago Bulls"; r_away_team_name := "Atlanta Hawks";
     r_home_score := 99; r_away_score := 101;
     r_result_for_user_team := Some "W";
     log_entry :=
       {| gr_game_id := "g2"; gr_date := "2025-10-25";
          gr_home_team_id := "CHI"; gr_away_team_id := "ATL";
          gr_home_team_name := "Chicago Bulls";
          gr_away_team_name := "Atlanta Hawks";
          gr_home_score := Some 99; gr_away_score := Some 101;
          gr_status := "final"; gr_is_overtime := false |} |}.

Definition result_g2_tie : GameResult :=
  {| r_game_id := "g2"; r_game_date := "2025-10-25";
     r_home_team_id := "CHI"; r_away_team_id := "ATL";
     r_home_team_name := "Chicago Bulls"; r_away_team_name := "Atlanta Hawks";
     r_home_score := 0; r_away_score := 0;
     r_result_for_user_team := Some "L";
     log_entry :=
       {| gr_game_id := "g2"; gr_date := "2025-10-25";
          gr_home_team_id := "CHI"; gr_away_team_id := "ATL";
          gr_home_team_name := "Chicago Bulls";
          gr_away_team_name := "Atlanta Hawks";
          gr_home_score := Some 0; gr_away_score := Some 0;
          gr_status := "final"; gr_is_overtime := false |} |}.

(** Play-in: 7v8 decided, the user's team (ATL) in 9v10, final open. *)
Definition side (t : string) : option Participant := Some {| team_id := Some t |}.

Definition m78 : Matchup :=
  {| home := side "MIA"; away := side "CHI";
     result := Some {| winner := Some "MIA" |} |}.
Definition m910 : Matchup :=
  {| home := side "ATL"; away := side "TOR"; result := None |}.
Definition mfinal : Matchup :=
  {| home := side "CHI"; away := side "ATL"; result := None |}.

Definition east_conf : ConfState :=
  {| matchups := Some {[ "seven_vs_eight" := m78; "nine_vs_ten" := m910;
                         "final" := mfinal ]};
     participants := Some [("9", side "ATL"); ("10", side "TOR")] |}.

Definition with_key (k : string) (s : AppState) : AppState :=
  {| apiKey := Some k; selectedTeam := selectedTeam s;
     progressTurns := progressTurns s; currentDate := currentDate s;
     cachedViews := cachedViews s; rosters := rosters s;
     chatHistory := chatHistory s;
     firstMessageShownTeams := firstMessageShownTeams s;
     tacticsByTeam := tacticsByTeam s; postseason := postseason s;
     seasonReportReady := seasonReportReady s;
     seasonReportText := seasonReportText s |}.

Definition noon : IsoTime :=
  {| iso := "2025-10-24T12:00:00.000Z"; iso_truthy := eq_refl |}.

Definition stats_ok : Response StatsData :=
  RespOk {| st_leaders := Some (JData "{}"); st_updated_at := None |}.
Definition standings_ok : Response StandingsData :=
  RespOk {| sd_east := Some [JData "{}"]; sd_west := None |}.
Definition teams_ok : Response (option (list json)) :=
  RespOk (Some [JData "{}"]).
Definition news_ok : Response NewsData :=
  RespOk {| nd_items := None; nd_current_date := Some "2025-10-24" |}.

(** Atlanta's schedule loaded, an API key entered, and the four tabs opened
    once. *)
Definition atl_viewed : AppState :=
  Eval vm_compute in
  fst (loadWeeklyNewsIfNeeded false news_ok noon
    (fst (loadTeamsListIfNeeded false teams_ok noon
      (fst (loadStandingsIfNeeded false standings_ok noon
        (fst (loadStatsLeadersIfNeeded false stats_ok noon
          (with_key "key" atl_loaded)))))))).

(** The states and traces of the advances used below, evaluated. *)
Definition after_ok : AppState :=
  Eval vm_compute in fst (fst (simulateGameProgress isoDateMs world_ok atl_loaded)).
Definition events_ok : list Event :=
  Eval vm_compute in snd (simulateGameProgress isoDateMs world_ok atl_loaded).

Definition after_rejected : AppState :=
  Eval vm_compute in
  fst (fst (simulateGameProgress isoDateMs world_rejected atl_loaded)).
Definition events_rejected : list Event :=
  Eval vm_compute in snd (simulateGameProgress isoDateMs world_rejected atl_loaded).

Definition after_no_scores : AppState :=
  Eval vm_compute in
  fst (fst (simulateGameProgress isoDateMs world_no_scores atl_loaded)).
Definition events_no_scores : list Event :=
  Eval vm_compute in
  snd (simulateGameProgress isoDateMs world_no_scores atl_loaded).

Definition after_viewed : AppState :=
  Eval vm_compute in fst (fst (simulateGameProgress isoDateMs world_ok atl_viewed)).
Definition events_viewed : list Event :=
  Eval vm_compute in snd (simulateGameProgress isoDateMs world_ok atl_viewed).


End Demo.

(** ** Batch of advances (llm.js) *)

(** Entries of the schedule still without scores. *)
Definition remaining_games (s : AppState) : nat :=
  length (List.filter unplayed (games (schedule (cachedViews s)))).

(** The selected team, when there is one, has a non-empty id, as every
    team of the table has. *)
Definition selected_ok (s : AppState) : Prop :=
  match selectedTeam s with
  | Some u => str_truthy (t_id u) = true
  | None => True
  end.

(** The requests to the match simulator in a trace. *)
Definition is_sim_post (e : Event) : bool :=
  match e with
  | Post url (BodySim _) => String.eqb url "/api/simulate-game"
  | _ => false
  end.

Definition sim_post_count (evs : list Event) : nat :=
  length (List.filter is_sim_post evs).

Section Batch.

Variable Date_ms : string -> option Z.

(** The answers of the outside during the [i]-th call of the loop. *)
Variable worlds : nat -> World.

(** The [for] loop of [runLLMSimulationWorkflow]: [i] is the loop counter,
    [todo] the iterations left. A result that is [false] or carries
    [success: false] breaks the loop. *)
Fixpoint workflow_loop (i todo : nat) (s : AppState)
  : AppState * list GameResult * list Event :=
  match todo with
  | O => (s, [], [])
  | S k =>
      match simulateGameProgress Date_ms (worlds i) s with
      | (s', Success r, ev) =>
          let '(s'', rs, evs) := workflow_loop (S i) k s' in
          (s'', r :: rs, ev ++ evs)
      | (s', _, ev) => (s', [], ev)
      end
  end.

(** [runLLMSimulationWorkflow(gamesToSimulate)] *)
Definition runLLMSimulationWorkflow (gamesToSimulate : nat) (s : AppState)
  : AppState * list GameResult * list Event :=
  workflow_loop 0 gamesToSimulate s.

End Batch.

(** The league games answered by [/api/advance-league], none when the call
    did not succeed. *)
Definition league_games (w : World) : list LeagueGame :=
  match league_resp w with
  | RespOk d => default [] (simulated_games d)
  | _ => []
  end.

(** Everything of the state except the recent-scores view. *)
Definition outside_scores (s : AppState) :=
  (schedule (cachedViews s), applied_part s, tacticsByTeam s, currentDate s,
   selectedTeam s, apiKey s, seasonReportReady s, seasonReportText s).

(** The schedule request found no game: it failed, was rejected, or
    answered an empty list. *)
Definition load_fails (w : World) : Prop :=
  match schedule_resp w with
  | RespOk d => default [] (sd_games d) = []
  | _ => True
  end.

(** The tactics object a side of the game is sent with: the projection of
    the stored profile (the default one when the team has none yet) for the
    selected team, [{ pace: 0 }] for any other team. *)
Definition side_payload (tid : string) (s : AppState) : TacticsPayload :=
  if isUserTeam tid s
  then UserPayload
         (project_tactics (default getDefaultTactics (tacticsByTeam s !! tid)))
  else OpponentPayload 0.


(** ** Conferences and divisions (state module) *)

(** [DIVISIONS], in the key order of the object literal. *)
Definition DIVISIONS : list (string * list (string * list string)) :=
  [ ("West",
     [ ("Southwest", ["DAL"; "HOU"; "MEM"; "NOP"; "SAS"]);
       ("Northwest", ["DEN"; "MIN"; "OKC"; "POR"; "UTA"]);
       ("Pacific", ["GSW"; "LAC"; "LAL"; "PHX"; "SAC"]) ]);
    ("East",
     [ ("Atlantic", ["BOS"; "BKN"; "NYK"; "PHI"; "TOR"]);
       ("Central", ["CHI"; "CLE"; "DET"; "IND"; "MIL"]);
       ("Southeast", ["ATL"; "CHA"; "MIA"; "ORL"; "WAS"]) ]) ].

(** The inner loop of [getTeamConfAndDiv]: the first division of the
    conference whose array includes the id. *)
Fixpoint division_of (teamId : string) (divs : list (string * list string))
  : option string :=
  match divs with
  | [] => None
  | (divName, teamArr) :: rest =>
      if bool_decide (teamId ∈ teamArr) then Some divName
      else division_of teamId rest
  end.

(** The outer loop over the conferences. *)
Fixpoint conf_and_div_of (teamId : string)
    (confs : list (string * list (string * list string)))
  : option (string * string) :=
  match confs with
  | [] => None
  | (conf, divs) :: rest =>
      match division_of teamId divs with
      | Some d => Some (conf, d)
      | None => conf_and_div_of teamId rest
      end
  end.

(** [getTeamConfAndDiv(teamId)]: the pair [(conference, division)], both
    [null] when the id is in no division. *)
Definition getTeamConfAndDiv (teamId : string) : option string * option string :=
  match conf_and_div_of teamId DIVISIONS with
  | Some (c, d) => (Some c, Some d)
  | None => (None, None)
  end.

(** ** Playoff bracket lookups (ui.js) *)

Record Series := {
  sr_round : string;
  sr_matchup : string;
  home_court : option string;
  road : option string;
  sr_wins : option (gmap string Z);
  sr_winner : option string
}.

Record ConfBracket := {
  quarterfinals : option (list (option Series));
  semifinals : option (list (option Series));
  finals : option Series
}.

Record Bracket := {
  bracket_east : option ConfBracket;
  bracket_west : option ConfBracket;
  bracket_finals : option Series
}.

Record Playoffs := {
  current_round : option string;
  bracket : option Bracket
}.

(** [bracket.east?.quarterfinals || []] and its siblings. *)
Definition conf_list (c : option ConfBracket)
    (field : ConfBracket -> option (list (option Series)))
  : list (option Series) :=
  default [] (c ≫= field).

(** [bracket.east?.finals ? [bracket.east.finals] : []] *)
Definition conf_final_list (c : option ConfBracket) : list (option Series) :=
  match c ≫= finals with
  | Some sr => [Some sr]
  | None => []
  end.

(** [collectRoundSeries(playoffs, roundName)]; a missing bracket counts as
    the empty object. *)
Definition collectRoundSeries (playoffs : option Playoffs) (roundName : string)
  : list (option Series) :=
  let east := (playoffs ≫= bracket) ≫= bracket_east in
  let west := (playoffs ≫= bracket) ≫= bracket_west in
  if String.eqb roundName "Conference Quarterfinals" then
    conf_list east quarterfinals ++ conf_list west quarterfinals
  else if String.eqb roundName "Conference Semifinals" then
    conf_list east semifinals ++ conf_list west semifinals
  else if String.eqb roundName "Conference Finals" then
    conf_final_list east ++ conf_final_list west
  else if String.eqb roundName "NBA Finals" then
    match (playoffs ≫= bracket) ≫= bracket_finals with
    | Some sr => [Some sr]
    | None => []
    end
  else [].

(** [s && (s.home_court === id || s.road === id)] *)
Definition series_involves (tid : string) (sr : option Series) : bool :=
  match sr with
  | Some x =>
      bool_decide (home_court x = Some tid) || bool_decide (road x = Some tid)
  | None => false
  end.

(** [findMySeries(playoffs)] *)
Definition findMySeries (playoffs : option Playoffs) (s : AppState)
  : option Series :=
  match playoffs, selectedTeam s with
  | Some p, Some u =>
      let round := str_or (current_round p) "Conference Quarterfinals" in
      mjoin (List.find (series_involves (t_id u))
               (collectRoundSeries playoffs round))
  | _, _ => None
  end.

(** What [renderPlayoffStage] assigns to the two command buttons:
    whether each is displayed, and its [disabled] flag ([None] where the
    branch does not assign it). *)
Record PlayoffButtons := {
  game_displayed : bool;
  game_disabled : option bool;
  auto_displayed : bool;
  auto_disabled : bool
}.

(** The button assignments of [renderPlayoffStage(playoffs)], [champion]
    being [appState.postseason?.champion]. *)
Definition playoff_buttons (champion : option string)
    (playoffs : option Playoffs) (s : AppState) : PlayoffButtons :=
  let has_champion := ostr_truthy champion in
  match findMySeries playoffs s with
  | None =>
      let canAutoAdvance := negb has_champion in
      {| game_displayed := false; game_disabled := None;
         auto_displayed := canAutoAdvance;
         auto_disabled := negb canAutoAdvance |}
  | Some sr =>
      let won := ostr_truthy (sr_winner sr) in
      let canAutoAdvance := negb has_champion && won in
      {| game_displayed := negb (won || has_champion);
         game_disabled := Some won;
         auto_displayed := canAutoAdvance;
         auto_disabled := negb canAutoAdvance |}
  end.

Module PlayoffDemo.

Definition series (h r : string) (w : option string) : option Series :=
  Some {| sr_round := "Conference Quarterfinals"; sr_matchup := "1 vs 8";
          home_court := Some h; road := Some r; sr_wins := None;
          sr_winner := w |}.

(** First round under way: Boston against Atlanta is still open. *)
Definition first_round : option Playoffs :=
  Some {| current_round := Some "Conference Quarterfinals";
          bracket := Some
            {| bracket_east := Some
                 {| quarterfinals := Some [series "NYK" "MIA" (Some "NYK");
                                           None;
                                           series "BOS" "ATL" None];
                    semifinals := None; finals := None |};
               bracket_west := Some
                 {| quarterfinals := Some [series "DEN" "LAL" None];
                    semifinals := None; finals := None |};
               bracket_finals := None |} |}.

End PlayoffDemo.

(** ** Scheme share sliders (ui.js) *)

(** A JS number as [Number(input.value)] yields it. *)
Inductive jsnum :=
  | JsFinite (q : Q)
  | JsNaN
  | JsPosInf
  | JsNegInf.

(** [Math.max(0, Math.min(5, x))]; [NaN] goes through both. *)
Definition clamp_share (x : jsnum) : num :=
  match x with
  | JsFinite q => Finite (Qmax 0 (Qmin 5 q))
  | JsNaN => NotFinite
  | JsPosInf => Finite 5
  | JsNegInf => Finite 0
  end.

(** [Math.max(secondary, 10 - secondary)]; not finite where [secondary] is
    not. *)
Definition share_primary (secondary : num) : num :=
  match secondary with
  | Finite q => Finite (Qmax q (10 - q))
  | NotFinite => NotFinite
  end.

Definition set_offense_weights (primary secondary : num) (t : Tactics) : Tactics :=
  {| pace := pace t; offenseScheme := offenseScheme t;
     offenseSecondaryScheme := offenseSecondaryScheme t;
     offensePrimaryWeight := Some primary;
     offenseSecondaryWeight := Some secondary;
     defenseScheme := defenseScheme t;
     defenseSecondaryScheme := defenseSecondaryScheme t;
     defensePrimaryWeight := defensePrimaryWeight t;
     defenseSecondaryWeight := defenseSecondaryWeight t;
     rotationSize := rotationSize t; starters := starters t;
     bench := bench t; minutes := minutes t |}.

Definition set_defense_weights (primary secondary : num) (t : Tactics) : Tactics :=
  {| pace := pace t; offenseScheme := offenseScheme t;
     offenseSecondaryScheme := offenseSecondaryScheme t;
     offensePrimaryWeight := offensePrimaryWeight t;
     offenseSecondaryWeight := offenseSecondaryWeight t;
     defenseScheme := defenseScheme t;
     defenseSecondaryScheme := defenseSecondaryScheme t;
     defensePrimaryWeight := Some primary;
     defenseSecondaryWeight := Some secondary;
     rotationSize := rotationSize t; starters := starters t;
     bench := bench t; minutes := minutes t |}.

Definition set_offenseSecondaryWeight (v : num) (t : Tactics) : Tactics :=
  {| pace := pace t; offenseScheme := offenseScheme t;
     offenseSecondaryScheme := offenseSecondaryScheme t;
     offensePrimaryWeight := offensePrimaryWeight t;
     offenseSecondaryWeight := Some v;
     defenseScheme := defenseScheme t;
     defenseSecondaryScheme := defenseSecondaryScheme t;
     defensePrimaryWeight := defensePrimaryWeight t;
     defenseSecondaryWeight := defenseSecondaryWeight t;
     rotationSize := rotationSize t; starters := starters t;
     bench := bench t; minutes := minutes t |}.

Definition set_defenseSecondaryWeight (v : num) (t : Tactics) : Tactics :=
  {| pace := pace t; offenseScheme := offenseScheme t;
     offenseSecondaryScheme := offenseSecondaryScheme t;
     offensePrimaryWeight := offensePrimaryWeight t;
     offenseSecondaryWeight := offenseSecondaryWeight t;
     defenseScheme := defenseScheme t;
     defenseSecondaryScheme := defenseSecondaryScheme t;
     defensePrimaryWeight := defensePrimaryWeight t;
     defenseSecondaryWeight := Some v;
     rotationSize := rotationSize t; starters := starters t;
     bench := bench t; minutes := minutes t |}.

Definition set_offenseSecondaryScheme (v : string) (t : Tactics) : Tactics :=
  {| pace := pace t; offenseScheme := offenseScheme t;
     offenseSecondaryScheme := Some v;
     offensePrimaryWeight := offensePrimaryWeight t;
     offenseSecondaryWeight := offenseSecondaryWeight t;
     defenseScheme := defenseScheme t;
     defenseSecondaryScheme := defenseSecondaryScheme t;
     defensePrimaryWeight := defensePrimaryWeight t;
     defenseSecondaryWeight := defenseSecondaryWeight t;
     rotationSize := rotationSize t; starters := starters t;
     bench := bench t; minutes := minutes t |}.

Definition set_defenseSecondaryScheme (v : string) (t : Tactics) : Tactics :=
  {| pace := pace t; offenseScheme := offenseScheme t;
     offenseSecondaryScheme := offenseSecondaryScheme t;
     offensePrimaryWeight := offensePrimaryWeight t;
     offenseSecondaryWeight := offenseSecondaryWeight t;
     defenseScheme := defenseScheme t;
     defenseSecondaryScheme := Some v;
     defensePrimaryWeight := defensePrimaryWeight t;
     defenseSecondaryWeight := defenseSecondaryWeight t;
     rotationSize := rotationSize t; starters := starters t;
     bench := bench t; minutes := minutes t |}.

(** [updateOffenseShareLabel(tactics)]; [controls] says that the slider
    and its label both exist in the page (the function returns at once
    otherwise). *)
Definition updateOffenseShareLabel (controls : bool) (t : Tactics) : Tactics :=
  if negb controls then t
  else
    let secondary := default (Finite 5) (offenseSecondaryWeight t) in
    set_offense_weights (share_primary secondary) secondary t.

(** [updateDefenseShareLabel(tactics)] *)
Definition updateDefenseShareLabel (controls : bool) (t : Tactics) : Tactics :=
  if negb controls then t
  else
    let secondary := default (Finite 5) (defenseSecondaryWeight t) in
    set_defense_weights (share_primary secondary) secondary t.

(** A handler that edits the profile object of the selected team in
    place: nothing happens without a selected team, and the handler throws
    on the [null] profile of a falsy id before it has written anything. *)
Definition edit_selected_tactics (edit : Tactics -> Tactics) (s : AppState)
  : AppState :=
  match selectedTeam s with
  | None => s
  | Some team =>
      match getOrCreateTacticsForTeam (t_id team) s with
      | (s', Some t) =>
          set_tacticsByTeam (<[t_id team := edit t]> (tacticsByTeam s')) s'
      | (s', None) => s'
      end
  end.

(** The [input] handler of the offense share slider; [v] is
    [Number(tacticsOffenseShareInput.value)]. *)
Definition onOffenseShareInput (controls : bool) (v : jsnum) (s : AppState)
  : AppState :=
  edit_selected_tactics
    (fun t => updateOffenseShareLabel controls
                (set_offenseSecondaryWeight (clamp_share v) t)) s.

(** The [input] handler of the defense share slider. *)
Definition onDefenseShareInput (controls : bool) (v : jsnum) (s : AppState)
  : AppState :=
  edit_selected_tactics
    (fun t => updateDefenseShareLabel controls
                (set_defenseSecondaryWeight (clamp_share v) t)) s.

(** The [change] handler of the secondary offense scheme. *)
Definition onOffenseSecondaryChange (controls : bool) (scheme : string)
    (s : AppState) : AppState :=
  edit_selected_tactics
    (fun t =>
       let t1 := set_offenseSecondaryScheme scheme t in
       let t2 := if String.eqb scheme "none"
                 then set_offenseSecondaryWeight (Finite 0) t1 else t1 in
       updateOffenseShareLabel controls t2) s.

(** The [change] handler of the secondary defense scheme. *)
Definition onDefenseSecondaryChange (controls : bool) (scheme : string)
    (s : AppState) : AppState :=
  edit_selected_tactics
    (fun t =>
       let t1 := set_defenseSecondaryScheme scheme t in
       let t2 := if String.eqb scheme "none"
                 then set_defenseSecondaryWeight (Finite 0) t1 else t1 in
       updateDefenseShareLabel controls t2) s.

(** ** Lineup editor (ui.js, renderTacticsLineup) *)

(** A roster entry; the editor reads its [player_id] only. *)
Record Player := { player_id : string }.

(** A JS [Set] of ids: its elements in insertion order. *)
Definition set_has (x : string) (l : list string) : bool := bool_decide (x ∈ l).

Definition set_add (x : string) (l : list string) : list string :=
  if set_has x l then l else l ++ [x].

Definition set_delete (x : string) (l : list string) : list string :=
  filter (λ y, y ≠ x) l.

(** [new Set(array)] *)
Definition set_of (l : list string) : list string :=
  foldl (λ acc x, set_add x acc) [] l.

(** The fields of a tactics profile the lineup editor reads and writes.
    (The minutes of the profile are kept by [renderMinutesEditor], which
    touches none of these.) *)
Record Lineup := {
  lu_rotationSize : option Z;
  lu_starters : option (list string);
  lu_bench : option (list string)
}.

(** What the button handlers of one rendering share: the roster and the
    rotation size captured by the closures, the two sets they mutate, and
    the profile object. *)
Record LineupEditor := {
  ed_players : list Player;
  ed_rotationSize : Z;
  normalizedStarters : list string;
  normalizedBench : list string;
  ed_tactics : Lineup
}.

Inductive LineupAlert :=
  | AlertMaxStarters           (* at most 5 starters *)
  | AlertRotationFull (rotationSize : Z).

(** [renderTacticsLineup(players, tactics)], the three containers being
    in the page: the lineup is normalised against the roster, written back
    to the profile, and the buttons are created afresh. *)
Definition renderTacticsLineup (players : list Player) (t : Lineup)
  : LineupEditor :=
  let rotationSize := int_or (lu_rotationSize t) 9 in
  let starterSet := set_of (default [] (lu_starters t)) in
  let benchSet := set_of (default [] (lu_bench t)) in
  let startersList :=
    take 5 (filter (λ p, player_id p ∈ starterSet) players) in
  let benchAll := filter (λ p, player_id p ∈ benchSet) players in
  let maxBench := Z.max 0 (rotationSize - Z.of_nat (length startersList)) in
  let benchList :=
    if Z.of_nat (length benchAll) >? maxBench
    then take (Z.to_nat maxBench) benchAll else benchAll in
  let ns := set_of (player_id <$> startersList) in
  let nb := set_of (player_id <$> benchList) in
  {| ed_players := players; ed_rotationSize := rotationSize;
     normalizedStarters := ns; normalizedBench := nb;
     ed_tactics := {| lu_rotationSize := lu_rotationSize t;
                      lu_starters := Some ns; lu_bench := Some nb |} |}.

Definition with_sets (ns nb : list string) (e : LineupEditor) : LineupEditor :=
  {| ed_players := ed_players e; ed_rotationSize := ed_rotationSize e;
     normalizedStarters := ns; normalizedBench := nb;
     ed_tactics := ed_tactics e |}.

(** The two assignments and the re-rendering that end a successful click. *)
Definition commit_lineup (ns nb : list string) (e : LineupEditor)
  : LineupEditor :=
  renderTacticsLineup (ed_players e)
    {| lu_rotationSize := lu_rotationSize (ed_tactics e);
       lu_starters := Some ns; lu_bench := Some nb |}.

(** The click handler of the starter button of player [pid]. *)
Definition clickStarter (pid : string) (e : LineupEditor)
  : LineupEditor * list LineupAlert :=
  let ns := normalizedStarters e in
  let nb := normalizedBench e in
  let toggled :=
    if set_has pid ns then Some (set_delete pid ns, nb)
    else if (5 <=? length ns)%nat then None
    else Some (set_add pid ns, set_delete pid nb) in
  match toggled with
  | None => (e, [AlertMaxStarters])
  | Some (ns', nb') =>
      if Z.of_nat (length ns' + length nb') >? ed_rotationSize e
      then (with_sets (set_delete pid ns') nb' e,
            [AlertRotationFull (ed_rotationSize e)])
      else (commit_lineup ns' nb' e, [])
  end.

(** The click handler of the bench button of player [pid]. *)
Definition clickBench (pid : string) (e : LineupEditor)
  : LineupEditor * list LineupAlert :=
  let ns := normalizedStarters e in
  let nb := normalizedBench e in
  if set_has pid nb then (commit_lineup ns (set_delete pid nb) e, [])
  else if Z.of_nat (length ns + length nb) >=? ed_rotationSize e
  then (e, [AlertRotationFull (ed_rotationSize e)])
  else (commit_lineup (set_delete pid ns) (set_add pid nb) e, []).

(** The [change] handler of the rotation-size select, on the lineup:
    the size is stored and the lineup rendered again for the roster at
    hand. *)
Definition onRotationChange (size : Z) (players : list Player)
    (e : LineupEditor) : LineupEditor :=
  renderTacticsLineup players
    {| lu_rotationSize := Some size;
       lu_starters := lu_starters (ed_tactics e);
       lu_bench := lu_bench (ed_tactics e) |}.

Inductive LineupAction :=
  | ClickStarter (pid : string)
  | ClickBench (pid : string)
  | ChangeRotation (size : Z).

Definition lineup_step (e : LineupEditor) (a : LineupAction) : LineupEditor :=
  match a with
  | ClickStarter pid => fst (clickStarter pid e)
  | ClickBench pid => fst (clickBench pid e)
  | ChangeRotation size => onRotationChange size (ed_players e) e
  end.

(** The lineup of a fresh profile ([getDefaultTactics]). *)
Definition default_lineup : Lineup :=
  {| lu_rotationSize := rotationSize getDefaultTactics;
     lu_starters := starters getDefaultTactics;
     lu_bench := bench getDefaultTactics |}.

(** What the editor keeps true of a lineup. *)
Definition lineup_ok (e : LineupEditor) : Prop :=
  NoDup (normalizedStarters e) ∧ NoDup (normalizedBench e)
  ∧ (∀ x, x ∈ normalizedStarters e → x ∉ normalizedBench e)
  ∧ (length (normalizedStarters e) ≤ 5)%nat
  ∧ Z.of_nat (length (normalizedStarters e) + length (normalizedBench e))
    ≤ ed_rotationSize e
  ∧ (∀ x, x ∈ normalizedStarters e ++ normalizedBench e →
          x ∈ player_id <$> ed_players e)
  ∧ lu_starters (ed_tactics e) = Some (normalizedStarters e)
  ∧ lu_bench (ed_tactics e) = Some (normalizedBench e)
  ∧ int_or (lu_rotationSize (ed_tactics e)) 9 = ed_rotationSize e.

(** The sizes the rotation select offers leave room for five starters. *)
Definition rotation_fits (a : LineupAction) : Prop :=
  match a with
  | ChangeRotation size => 5 ≤ size
  | _ => True
  end.

Module LineupDemo.

Definition roster : list Player :=
  [ {| player_id := "p1" |}; {| player_id := "p2" |}; {| player_id := "p3" |};
    {| player_id := "p4" |}; {| player_id := "p5" |}; {| player_id := "p6" |};
    {| player_id := "p7" |} ].

(** Five starters picked, a sixth refused, two bench players, the
    rotation cut to 6, a starter taken out. *)
Definition session : list LineupAction :=
  [ ClickStarter "p1"; ClickStarter "p2"; ClickStarter "p3";
    ClickStarter "p4"; ClickStarter "p5"; ClickStarter "p6";
    ClickBench "p6"; ClickBench "p7"; ChangeRotation 6; ClickStarter "p2" ].

Definition fresh : LineupEditor :=
  Eval vm_compute in renderTacticsLineup roster default_lineup.

(** Five starters and one bench player fill a rotation of 6. *)
Definition full : LineupEditor :=
  Eval vm_compute in
    foldl lineup_step fresh
      [ ClickStarter "p1"; ClickStarter "p2"; ClickStarter "p3";
        ClickStarter "p4"; ClickStarter "p5"; ClickBench "p6";
        ChangeRotation 6 ].

End LineupDemo.

(** ** Postseason flow (ui.js) *)

(** How a [fetch] whose status is not looked at before the body is read
    can end: an answer whose body parses, whatever the status; an answer
    whose body does not parse; a rejected promise. *)
Inductive Fetched (A : Type) :=
  | Parsed (ok : bool) (body : A)
  | NotParsed (ok : bool)
  | FetchRejected.
Arguments Parsed {A} ok body.
Arguments NotParsed {A} ok.
Arguments FetchRejected {A}.

(** A [fetch] that is only awaited: it resolves with some status or is
    rejected. *)
Inductive Settled :=
  | Resolved (ok : bool)
  | Refused.

(** How an [async] function ends. *)
Inductive Completion :=
  | Completes
  | Rejects.

Record LeadersData := {
  ld_leaders : option json;
  ld_updated_at : option json
}.

(** [data?.leaders ?? data ?? {}] *)
Inductive StoredLeaders :=
  | LeadersOf (leaders : json)
  | WholeAnswer (data : LeadersData)
  | NoLeaders.

Definition stored_leaders (data : option LeadersData) : StoredLeaders :=
  match data with
  | None => NoLeaders
  | Some d =>
      match ld_leaders d with
      | Some JNull | None => WholeAnswer d
      | Some j => LeadersOf j
      end
  end.

(** The application state with the fields the postseason flow adds to
    [appState], and the screen [showScreen] displayed last. The texts and
    the buttons of the page are not part of it, and rendering is taken not
    to throw (the page has its elements, the answers have their shape). *)
Record Page := {
  page_app : AppState;
  playoffStats : option StoredLeaders;
  playoffStatsUpdatedAt : option json;
  playoffNews : option (list json);
  screen : string
}.

Inductive PostBody :=
  | NoBody
  | EmptyObject                 (* '{}' *)
  | SetupBody (my_team_id : string) (use_random_field : bool)
  | KeyBody (apiKey : string).

Inductive PageAlertMsg :=
  | AlertSelectTeamFirst        (* startPostseasonFlow, no team *)
  | AlertPostseasonSetupFailed  (* startPostseasonFlow, catch *)
  | AlertAutoAdvanceRejected (detail : string)
  | AlertAutoAdvanceFailed      (* handleAutoAdvanceRound, catch *)
  | AlertPlayoffGameFailed      (* handlePlayoffGame, catch *)
  | AlertPlayInGameFailed.      (* handlePlayInGame, catch *)

Inductive PageEvent :=
  | Get (url : string)
  | PostJson (url : string) (body : PostBody)
  | PageAlert (m : PageAlertMsg).

Definition set_postseason (v : option json) (s : AppState) : AppState :=
  {| apiKey := apiKey s; selectedTeam := selectedTeam s;
     progressTurns := progressTurns s; currentDate := currentDate s;
     cachedViews := cachedViews s; rosters := rosters s;
     chatHistory := chatHistory s;
     firstMessageShownTeams := firstMessageShownTeams s;
     tacticsByTeam := tacticsByTeam s; postseason := v;
     seasonReportReady := seasonReportReady s;
     seasonReportText := seasonReportText s |}.

Definition set_page_app (a : AppState) (p : Page) : Page :=
  {| page_app := a; playoffStats := playoffStats p;
     playoffStatsUpdatedAt := playoffStatsUpdatedAt p;
     playoffNews := playoffNews p; screen := screen p |}.

(** [showScreen(name)] *)
Definition showScreen (name : string) (p : Page) : Page :=
  {| page_app := page_app p; playoffStats := playoffStats p;
     playoffStatsUpdatedAt := playoffStatsUpdatedAt p;
     playoffNews := playoffNews p; screen := name |}.

(** [refreshPostseasonState()]: no status check and no [try]; the parsed
    body, [null] included, becomes [appState.postseason]. *)
Definition refreshPostseasonState (r : Fetched json) (p : Page)
  : Page * Completion * list PageEvent :=
  match r with
  | Parsed _ body =>
      (set_page_app
         (set_postseason (match body with JNull => None | b => Some b end)
            (page_app p)) p,
       Completes, [Get "/api/postseason/state"])
  | NotParsed _ | FetchRejected => (p, Rejects, [Get "/api/postseason/state"])
  end.

(** The state change of [refreshPlayoffStats()]. *)
Definition store_playoff_stats (r : Response (option LeadersData))
    (p : Page) : Page :=
  match r with
  | RespOk data =>
      {| page_app := page_app p;
         playoffStats := Some (stored_leaders data);
         playoffStatsUpdatedAt := data ≫= ld_updated_at;
         playoffNews := playoffNews p; screen := screen p |}
  | RespNotOk _ | RespThrow => p
  end.

(** The state change of [refreshPlayoffNews()]; [RespThrow] stands for a
    rejected promise, a body that does not parse and a [null] body. *)
Definition store_playoff_news (r : Response NewsData) (p : Page)
  : Page :=
  {| page_app := page_app p; playoffStats := playoffStats p;
     playoffStatsUpdatedAt := playoffStatsUpdatedAt p;
     playoffNews := Some match r with
                         | RespOk data => default [] (nd_items data)
                         | RespNotOk _ | RespThrow => []
                         end;
     screen := screen p |}.

(** [Promise.all([refreshPlayoffStats(), refreshPlayoffNews()])]: both
    requests leave before either answer is handled; the two handlers write
    different fields, and neither lets an error out. *)
Definition refreshPlayoffStatsAndNews
    (rs : Response (option LeadersData)) (rn : Response NewsData)
    (p : Page) : Page * list PageEvent :=
  (store_playoff_news rn (store_playoff_stats rs p),
   [Get "/api/stats/playoffs/leaders";
    PostJson "/api/news/playoffs" EmptyObject]).

(** The answers of the server to one refresh of the page. *)
Record RefreshAnswers := {
  state_answer : Fetched json;
  stats_answer : Response (option LeadersData);
  news_answer : Response NewsData
}.

(** [await refreshPostseasonState(); await Promise.all([...])] *)
Definition refresh_page (a : RefreshAnswers) (p : Page)
  : Page * Completion * list PageEvent :=
  match refreshPostseasonState (state_answer a) p with
  | (p1, Rejects, ev) => (p1, Rejects, ev)
  | (p1, Completes, ev) =>
      let '(p2, ev2) :=
        refreshPlayoffStatsAndNews (stats_answer a) (news_answer a) p1 in
      (p2, Completes, ev ++ ev2)
  end.

(** [startPostseasonFlow()] *)
Definition startPostseasonFlow (reset setup : Settled) (a : RefreshAnswers)
    (p : Page) : Page * Completion * list PageEvent :=
  match selectedTeam (page_app p) with
  | None => (p, Completes, [PageAlert AlertSelectTeamFirst])
  | Some team =>
      let post_reset := PostJson "/api/postseason/reset" NoBody in
      let post_setup :=
        PostJson "/api/postseason/setup" (SetupBody (t_id team) false) in
      match reset with
      | Refused =>
          (p, Completes, [post_reset; PageAlert AlertPostseasonSetupFailed])
      | Resolved _ =>
          match setup with
          | Refused =>
              (p, Completes,
               [post_reset; post_setup; PageAlert AlertPostseasonSetupFailed])
          | Resolved _ =>
              match refresh_page a p with
              | (p1, Rejects, ev) => (p1, Rejects, [post_reset; post_setup] ++ ev)
              | (p1, Completes, ev) =>
                  (showScreen "playoff" p1, Completes,
                   [post_reset; post_setup] ++ ev)
              end
          end
      end
  end.

(** [handleAutoAdvanceRound()]; [button] says whether the button exists,
    and the body of the answer is the [detail] of its payload. *)
Definition handleAutoAdvanceRound (button : bool)
    (advance : Fetched (option string)) (a : RefreshAnswers) (p : Page)
  : Page * Completion * list PageEvent :=
  if negb button then (p, Completes, [])
  else
    let post :=
      PostJson "/api/postseason/playoffs/auto-advance-round" EmptyObject in
    let refresh :=
      match refresh_page a p with
      | (p1, Rejects, ev) =>
          (p1, Completes, post :: ev ++ [PageAlert AlertAutoAdvanceFailed])
      | (p1, Completes, ev) => (p1, Completes, post :: ev)
      end in
    match advance with
    | FetchRejected => (p, Completes, [post; PageAlert AlertAutoAdvanceFailed])
    | Parsed false detail =>
        (p, Completes,
         [post; PageAlert (AlertAutoAdvanceRejected (str_or detail ""))])
    | NotParsed false =>
        (p, Completes, [post; PageAlert (AlertAutoAdvanceRejected "")])
    | Parsed true _ | NotParsed true => refresh
    end.

(** The body shared by [handlePlayoffGame()] and [handlePlayInGame()]:
    the answer to the request is awaited and not looked at. *)
Definition play_and_refresh (url : string) (failed : PageAlertMsg)
    (button : bool) (game : Settled) (a : RefreshAnswers) (p : Page)
  : Page * Completion * list PageEvent :=
  if negb button then (p, Completes, [])
  else
    let post := PostJson url EmptyObject in
    match game with
    | Refused => (p, Completes, [post; PageAlert failed])
    | Resolved _ =>
        match refresh_page a p with
        | (p1, Rejects, ev) => (p1, Completes, post :: ev ++ [PageAlert failed])
        | (p1, Completes, ev) => (p1, Completes, post :: ev)
        end
    end.

(** [handlePlayoffGame()] *)
Definition handlePlayoffGame :=
  play_and_refresh "/api/postseason/playoffs/advance-my-team-game"
    AlertPlayoffGameFailed.

(** [handlePlayInGame()] *)
Definition handlePlayInGame :=
  play_and_refresh "/api/postseason/play-in/my-team-game"
    AlertPlayInGameFailed.

Definition is_page_alert (e : PageEvent) : bool :=
  match e with PageAlert _ => true | _ => false end.

Definition page_alerts (evs : list PageEvent) : list PageEvent :=
  List.filter is_page_alert evs.

Module PostseasonDemo.

Definition main_page : Page :=
  {| page_app := Demo.atl_selected; playoffStats := None;
     playoffStatsUpdatedAt := None; playoffNews := None; screen := "main" |}.

(** The state request answers 500 with a body that is no JSON; leaders and
    news would be there. *)
Definition state_down : RefreshAnswers :=
  {| state_answer := NotParsed false;
     stats_answer := RespOk None;
     news_answer := RespOk {| nd_items := None; nd_current_date := None |} |}.

(** Everything answers, the leaders request with an error status. *)
Definition state_up : RefreshAnswers :=
  {| state_answer := Parsed true (JData "postseason");
     stats_answer := RespNotOk "down";
     news_answer := RespOk {| nd_items := Some [JStr "n1"];
                              nd_current_date := None |} |}.

End PostseasonDemo.

(** ** Season report on request (Game_sims.js) *)

Record ReportAnswer := {
  ans_report_markdown : option string;
  ans_report : option string;
  ans_text : option string
}.

Inductive ReportAlert :=
  | AlertApiKeyMissing      (* no API key *)
  | AlertNoTeamForReport    (* no team id *)
  | AlertReportFailed       (* !res.ok *)
  | AlertReportError.       (* catch *)

Inductive ReportEvent :=
  | ReportRequest (key user_team_id : string)   (* POST /api/season-report *)
  | ReportAlerted (m : ReportAlert).

(** [appState.selectedTeam?.id || appState.cachedViews.schedule?.teamId
     || TEAMS[0]?.id] *)
Definition report_team_id (s : AppState) : option string :=
  let selected := t_id <$> selectedTeam s in
  if ostr_truthy selected then selected
  else if ostr_truthy (teamId (schedule (cachedViews s)))
       then teamId (schedule (cachedViews s))
       else t_id <$> head TEAMS.

Section SeasonReport.

(** [String.prototype.trim] *)
Variable trim : string -> string.

(** [data.report_markdown || data.report || data.text || ""], trimmed. *)
Definition answer_text (d : ReportAnswer) : string :=
  trim (str_or (ans_report_markdown d)
          (str_or (ans_report d) (str_or (ans_text d) ""))).

(** [requestSeasonReportForUserTeam()]: the state, the value returned
    ([None] for [null]) and what was sent and shown. [RespThrow] stands
    for every exception inside the [try]. *)
Definition requestSeasonReportForUserTeam (resp : Response ReportAnswer)
    (s : AppState) : AppState * option string * list ReportEvent :=
  let teamId := report_team_id s in
  if negb (ostr_truthy (apiKey s))
  then (s, None, [ReportAlerted AlertApiKeyMissing])
  else if negb (ostr_truthy teamId)
  then (s, None, [ReportAlerted AlertNoTeamForReport])
  else
    let req := ReportRequest (default "" (apiKey s)) (default "" teamId) in
    match resp with
    | RespNotOk _ => (s, None, [req; ReportAlerted AlertReportFailed])
    | RespThrow => (s, None, [req; ReportAlerted AlertReportError])
    | RespOk d =>
        (set_seasonReport (answer_text d) s, Some (answer_text d), [req])
    end.

End SeasonReport.

(** ** API key screen (ui.js) *)

(** The character class [[0-9A-Za-z\-_]]. *)
Definition key_char (c : ascii) : bool :=
  let n := nat_of_ascii c in
  ((48 <=? n) && (n <=? 57) || (65 <=? n) && (n <=? 90)
   || (97 <=? n) && (n <=? 122) || (n =? 45) || (n =? 95))%nat.

(** [/^AIza[0-9A-Za-z\-_]{10,}$/.test(key)] *)
Definition key_format (key : string) : bool :=
  match key with
  | String c1 (String c2 (String c3 (String c4 rest))) =>
      Ascii.eqb c1 "A" && Ascii.eqb c2 "I" && Ascii.eqb c3 "z"
      && Ascii.eqb c4 "a"
      && (10 <=? String.length rest)%nat
      && forallb key_char (list_ascii_of_string rest)
  | _ => false
  end.

(** What the screen tells the user. *)
Inductive KeyNotice :=
  | KeyMissing                        (* empty input *)
  | KeyMalformed                      (* not of the form AIza... *)
  | KeyRefused (detail : option string)  (* answer not OK: its detail, or the stock text *)
  | KeyCheckFailed                    (* the request was rejected *)
  | KeyConfirmed.

Definition set_apiKey (k : option string) (s : AppState) : AppState :=
  {| apiKey := k; selectedTeam := selectedTeam s;
     progressTurns := progressTurns s; currentDate := currentDate s;
     cachedViews := cachedViews s; rosters := rosters s;
     chatHistory := chatHistory s;
     firstMessageShownTeams := firstMessageShownTeams s;
     tacticsByTeam := tacticsByTeam s; postseason := postseason s;
     seasonReportReady := seasonReportReady s;
     seasonReportText := seasonReportText s |}.

(** The click handler of the button of the key screen; [key] is the
    trimmed input, and the body of the answer is the [detail] of its
    payload. *)
Definition onApiKeyNext (key : string) (resp : Fetched (option string))
    (p : Page) : Page * KeyNotice * list PageEvent :=
  if negb (str_truthy key) then (p, KeyMissing, [])
  else if negb (key_format key) then (p, KeyMalformed, [])
  else
    let post := PostJson "/api/validate-key" (KeyBody key) in
    match resp with
    | FetchRejected => (p, KeyCheckFailed, [post])
    | Parsed false detail =>
        (p, KeyRefused (if ostr_truthy detail then detail else None), [post])
    | NotParsed false => (p, KeyRefused None, [post])
    | Parsed true _ | NotParsed true =>
        (showScreen "teamSelect"
           (set_page_app (set_apiKey (Some key) (page_app p)) p),
         KeyConfirmed, [post])
    end.

(** The key held by the application, if any, has the format. *)
Definition key_well_formed (p : Page) : Prop :=
  match apiKey (page_app p) with
  | Some k => key_format k = true
  | None => True
  end.

(** ** Postseason views (ui.js) *)

(** The fields of [appState.postseason] the views read. *)
Record Postseason := {
  ps_playoffs : option Playoffs;
  ps_play_in : option (list (string * ConfState));
  ps_champion : option string
}.

(** Which of the three command buttons a rendering leaves displayed. *)
Record StageButtons := {
  play_in_shown : bool;
  playoff_game_shown : bool;
  auto_advance_shown : bool
}.

(** The buttons as [renderPlayInStage(playInState)] leaves them. *)
Definition renderPlayInStage (playInState : option (list (string * ConfState)))
    (s : AppState) : StageButtons :=
  {| play_in_shown := bool_decide (is_Some (my_next_play_in playInState s));
     playoff_game_shown := false;
     auto_advance_shown := false |}.

(** The buttons as [renderPlayoffStage(playoffs)] leaves them. *)
Definition renderPlayoffStage (champion : option string) (playoffs : Playoffs)
    (s : AppState) : StageButtons :=
  let b := playoff_buttons champion (Some playoffs) s in
  {| play_in_shown := false;
     playoff_game_shown := game_displayed b;
     auto_advance_shown := auto_displayed b |}.

(** [renderPostseasonViews()], on the decoded postseason state: [None]
    where no stage is rendered and the buttons stay as they were. *)
Definition renderPostseasonViews (ps : option Postseason) (s : AppState)
  : option StageButtons :=
  match ps with
  | None => None
  | Some d =>
      match ps_playoffs d, ps_play_in d with
      | Some playoffs, _ => Some (renderPlayoffStage (ps_champion d) playoffs s)
      | None, Some playIn => Some (renderPlayInStage (Some playIn) s)
      | None, None => None
      end
  end.

Definition shown_count (b : StageButtons) : nat :=
  Nat.b2n (play_in_shown b) + Nat.b2n (playoff_game_shown b)
  + Nat.b2n (auto_advance_shown b).

Module StageDemo.

(** Play-in under way in the East, no playoffs data yet. *)
Definition play_in_open : option Postseason :=
  Some {| ps_playoffs := None;
          ps_play_in := Some [("east", Demo.east_conf)];
          ps_champion := None |}.

End StageDemo.

(** ** Default minutes (ui.js) *)

(** [ROTATION_MINUTE_DEFAULTS]: rotation size, minutes of a starter,
    minutes of a bench player. *)
Definition ROTATION_MINUTE_DEFAULTS : list (Z * (Z * Z)) :=
  [ (6, (41, 35)); (7, (36, 30)); (8, (33, 25)); (9, (28, 25));
    (10, (25, 23)) ].

(** [getDefaultMinutesForRole(role, rotationSize)] *)
Definition getDefaultMinutesForRole (role : string) (rotationSize : Z) : Z :=
  let defaults :=
    default (32, 22)
      (snd <$> List.find (λ kv, fst kv =? rotationSize) ROTATION_MINUTE_DEFAULTS) in
  if String.eqb role "starter" then fst defaults else snd defaults.

(** * Properties *)

(** ** FatigueModel *)

Lemma last_game_date_none tid (l : list ScheduleEntry) n :
  (∀ j g, (j < n)%nat → l !! j = Some g → involves tid g = false) →
  last_game_date tid l n = None.
Proof.
  induction n as [|k IH]; intros Hno; [done|]. simpl.
  destruct (l !! k) as [g|] eqn:Hk.
  - rewrite (Hno k g); [|lia|done]. apply IH. intros j g' Hj. apply Hno. lia.
  - apply IH. intros j g' Hj. apply Hno. lia.
Qed.

Lemma last_game_date_found tid (l : list ScheduleEntry) n j g :
  (j < n)%nat → l !! j = Some g → involves tid g = true →
  (∀ k g', (j < k < n)%nat → l !! k = Some g' → involves tid g' = false) →
  last_game_date tid l n = Some (date g).
Proof.
  induction n as [|k IH]; intros Hj Hg Hin Hlater; [lia|]. simpl.
  destruct (decide (k = j)) as [->|Hne].
  - by rewrite Hg, Hin.
  - assert (j < k)%nat by lia.
    destruct (l !! k) as [g'|] eqn:Hk.
    + rewrite (Hlater k g'); [|lia|done]. apply IH; [done..|].
      intros k' g'' Hk'. apply Hlater. lia.
    + apply IH; [done..|]. intros k' g'' Hk'. apply Hlater. lia.
Qed.

Section FatigueFacts.
Variable Date_ms : string → option Z.

Lemma rest_days_first_game (s : AppState) :
  let sch := schedule (cachedViews s) in
  games sch ≠ [] →
  (∀ j g, Z.of_nat j < currentIndex sch → games sch !! j = Some g →
          involves (teamId sch) g = false) →
  computeRestDaysForUserTeam Date_ms s = Some 3.
Proof.
  intros sch Hne Hno. unfold computeRestDaysForUserTeam. fold sch.
  destruct (games sch) as [|g0 gs] eqn:Hg; [done|].
  rewrite last_game_date_none; [done|].
  intros j g Hj. apply Hno. lia.
Qed.

Lemma rest_days_after_game (s : AppState) j last cur d1 d2 :
  let sch := schedule (cachedViews s) in
  Z.of_nat j < currentIndex sch →
  games sch !! j = Some last →
  involves (teamId sch) last = true →
  (∀ k g, (j < k)%nat → Z.of_nat k < currentIndex sch →
          games sch !! k = Some g → involves (teamId sch) g = false) →
  str_truthy (date last) = true →
  game_at (games sch) (currentIndex sch) = Some cur →
  Date_ms (date last) = Some d1 →
  Date_ms (date cur) = Some d2 →
  computeRestDaysForUserTeam Date_ms s
  = Some (Z.max 0 ((d2 - d1) / ms_per_day - 1)).
Proof.
  intros sch Hj Hlast Hin Hlater Hdate Hcur Hd1 Hd2.
  unfold computeRestDaysForUserTeam. fold sch.
  destruct (games sch) as [|g0 gs] eqn:Hg; [done|].
  rewrite (last_game_date_found _ _ _ j last); [|lia|done|done|].
  - by rewrite Hdate, Hcur, Hd1, Hd2.
  - intros k g [Hk1 Hk2]. apply Hlater; [done|lia].
Qed.

End FatigueFacts.

(** C7 (as amended). On a non-empty schedule [computeRestDaysForUserTeam]
    answers 3 when no entry before the cursor involves the team, whatever
    the dates are; otherwise, with [d1] and [d2] the times of the team's
    last game before the cursor and of the game at the cursor, it answers
    [max 0 (floor ((d2 - d1) / one day) - 1)], so a gap of exactly [k] days
    gives [max 0 (k - 1)]. [calcFatigueFactor] maps rest days at most 0 to
    0.92, 1 to 0.97, 2 to 1.00, 3 to 1.03 and 4 or more to 1.05. Hence a
    1-day gap gives 0 rest days and 0.92, and a 4-day gap gives 3 rest days
    and 1.03 (it is a 3-day gap that gives 2 rest days and 1.00). *)
Theorem C7_rest_days_and_fatigue_factor :
  (∀ Date_ms s,
     games (schedule (cachedViews s)) ≠ [] →
     (∀ j g, Z.of_nat j < currentIndex (schedule (cachedViews s)) →
             games (schedule (cachedViews s)) !! j = Some g →
             involves (teamId (schedule (cachedViews s))) g = false) →
     computeRestDaysForUserTeam Date_ms s = Some 3)
  ∧ (∀ Date_ms s j last cur d1 k,
       let sch := schedule (cachedViews s) in
       Z.of_nat j < currentIndex sch →
       games sch !! j = Some last →
       involves (teamId sch) last = true →
       (∀ i g, (j < i)%nat → Z.of_nat i < currentIndex sch →
               games sch !! i = Some g → involves (teamId sch) g = false) →
       str_truthy (date last) = true →
       game_at (games sch) (currentIndex sch) = Some cur →
       Date_ms (date last) = Some d1 →
       Date_ms (date cur) = Some (d1 + k * ms_per_day) →
       let rest := computeRestDaysForUserTeam Date_ms s in
       rest = Some (Z.max 0 (k - 1))
       ∧ (k = 1 → rest = Some 0 ∧ calcFatigueFactor rest = 92 # 100)
       ∧ (k = 3 → rest = Some 2 ∧ calcFatigueFactor rest = 100 # 100)
       ∧ (k = 4 → rest = Some 3 ∧ calcFatigueFactor rest = 103 # 100))
  ∧ (∀ Date_ms s j last cur d1 d2,
       let sch := schedule (cachedViews s) in
       Z.of_nat j < currentIndex sch →
       games sch !! j = Some last →
       involves (teamId sch) last = true →
       (∀ i g, (j < i)%nat → Z.of_nat i < currentIndex sch →
               games sch !! i = Some g → involves (teamId sch) g = false) →
       str_truthy (date last) = true →
       game_at (games sch) (currentIndex sch) = Some cur →
       Date_ms (date last) = Some d1 →
       Date_ms (date cur) = Some d2 →
       computeRestDaysForUserTeam Date_ms s
       = Some (Z.max 0 ((d2 - d1) / ms_per_day - 1)))
  ∧ (∀ r, r ≤ 0 → calcFatigueFactor (Some r) = 92 # 100)
  ∧ calcFatigueFactor (Some 1) = 97 # 100
  ∧ calcFatigueFactor (Some 2) = 100 # 100
  ∧ calcFatigueFactor (Some 3) = 103 # 100
  ∧ (∀ r, 4 ≤ r → calcFatigueFactor (Some r) = 105 # 100).
Proof.
  split_and!.
  - intros D s. apply rest_days_first_game.
  - intros D s j last cur d1 k sch Hj Hlast Hin Hlater Hdate Hcur Hd1 Hd2 rest.
    assert (Hrest : rest = Some (Z.max 0 (k - 1))).
    { unfold rest.
      rewrite (rest_days_after_game D s j last cur d1 (d1 + k * ms_per_day));
        try done.
      replace (d1 + k * ms_per_day - d1) with (k * ms_per_day) by lia.
      by rewrite Z.div_mul. }
    rewrite Hrest. split_and!; [done|..]; by intros ->.
  - intros D s j last cur d1 d2. apply rest_days_after_game.
  - intros r Hr. unfold calcFatigueFactor.
    by rewrite (proj2 (Z.leb_le r 0) Hr).
  - done.
  - done.
  - done.
  - intros r Hr. unfold calcFatigueFactor.
    destruct (Z.leb_spec r 0); [lia|].
    destruct (Z.eqb_spec r 1); [lia|].
    destruct (Z.eqb_spec r 2); [lia|].
    destruct (Z.eqb_spec r 3); [lia|]. done.
Qed.

(** C7, witness: Atlanta's first game (empty history before the cursor),
    and its game of 25 October, four days after the one of 21 October. *)
Lemma C7_witness :
  computeRestDaysForUserTeam isoDateMs Demo.atl_selected = Some 0
  ∧ computeRestDaysForUserTeam isoDateMs
      (Demo.load (drop 1 Demo.atl_games) Demo.atl_selected) = Some 3
  ∧ computeRestDaysForUserTeam isoDateMs Demo.atl_loaded = Some 3
  ∧ calcFatigueFactor (computeRestDaysForUserTeam isoDateMs Demo.atl_loaded)
    = 103 # 100
  ∧ computeRestDaysForUserTeam isoDateMs Demo.atl_back_to_back = Some 0
  ∧ calcFatigueFactor (Some (-1)) = 92 # 100
  ∧ calcFatigueFactor (Some 7) = 105 # 100.
Proof.
  destruct C7_rest_days_and_fatigue_factor
    as (Hfirst & Hgap & Hgen & Hlow & _ & _ & _ & Hhigh).
  split_and!.
  - reflexivity.
  - apply Hfirst; [by vm_compute|]. intros j g Hj. exfalso. revert Hj.
    change (Z.of_nat j < 0 → False). lia.
  - refine (proj1 (proj2 (proj2 (proj2
      (Hgap isoDateMs Demo.atl_loaded 0%nat
         (Demo.entry "g1" "2025-10-21" "ATL" "BOS" (Some 100) (Some 90) (Some "W"))
         (Demo.entry "g2" "2025-10-25" "CHI" "ATL" None None None)
         1761004800000 4 _ _ _ _ _ _ _ _))) eq_refl)); try reflexivity.
    intros i g Hi Hlt. exfalso. revert Hlt.
    change (Z.of_nat i < 1 → False). lia.
  - refine (proj2 (proj2 (proj2 (proj2
      (Hgap isoDateMs Demo.atl_loaded 0%nat
         (Demo.entry "g1" "2025-10-21" "ATL" "BOS" (Some 100) (Some 90) (Some "W"))
         (Demo.entry "g2" "2025-10-25" "CHI" "ATL" None None None)
         1761004800000 4 _ _ _ _ _ _ _ _))) eq_refl)); try reflexivity.
    intros i g Hi Hlt. exfalso. revert Hlt.
    change (Z.of_nat i < 1 → False). lia.
  - refine (proj1 (proj1 (proj2
      (Hgap isoDateMs Demo.atl_back_to_back 0%nat
         (Demo.entry "g1" "2025-10-21" "ATL" "BOS" (Some 100) (Some 90) (Some "W"))
         (Demo.entry "g2" "2025-10-22" "CHI" "ATL" None None None)
         1761004800000 1 _ _ _ _ _ _ _ _)) eq_refl)); try reflexivity.
    intros i g Hi Hlt. exfalso. revert Hlt.
    change (Z.of_nat i < 1 → False). lia.
  - apply Hlow. lia.
  - apply Hhigh. lia.
Defined.

(** C7, counterexample to the claim as worded: with games on 21 and 25
    October (a 4-calendar-day gap) the rest days are 3 and the factor is
    1.03, not 2 and 1.00. *)
Lemma C7_four_day_gap_counterexample :
  let rest := computeRestDaysForUserTeam isoDateMs Demo.atl_loaded in
  isoDateMs "2025-10-25" = Some (1761004800000 + 4 * ms_per_day)
  ∧ isoDateMs "2025-10-21" = Some 1761004800000
  ∧ rest = Some 3
  ∧ rest ≠ Some 2
  ∧ calcFatigueFactor rest = 103 # 100
  ∧ ¬ (calcFatigueFactor rest == 1)%Q.
Proof. vm_compute. split_and!; try done. Qed.

(** ** Play-in lookup *)

Lemma find_first {A} (P : A → bool) (l : list A) (x : A) :
  List.find P l = Some x ↔
  ∃ i, l !! i = Some x ∧ P x = true
       ∧ ∀ j y, (j < i)%nat → l !! j = Some y → P y = false.
Proof.
  induction l as [|a l IH]; simpl.
  - split; [done|]. intros (i & Hi & _). by destruct i.
  - destruct (P a) eqn:Pa.
    + split.
      * intros [= <-]. exists 0%nat. split_and!; [done..|]. intros; lia.
      * intros ([|i] & Hi & Px & Hfirst).
        -- simpl in Hi. congruence.
        -- specialize (Hfirst 0%nat a ltac:(lia) eq_refl). congruence.
    + rewrite IH. split.
      * intros (i & Hi & Px & Hfirst). exists (S i). split_and!; [done..|].
        intros [|j] y Hj Hy; simpl in Hy; [congruence|].
        apply (Hfirst j); [lia|done].
      * intros ([|i] & Hi & Px & Hfirst).
        -- simpl in Hi. congruence.
        -- exists i. split_and!; [done..|]. intros j y Hj Hy.
           apply (Hfirst (S j)); [lia|done].
Qed.

(** The test of the loop, for a team with an id: one of the two sides of
    the matchup is that team. *)
Lemma mine_sides (u : string) (m : Matchup) :
  str_truthy u = true →
  mine (Some u) m = true ↔
  (∃ p, home m = Some p ∧ team_id p = Some u)
  ∨ (∃ p, away m = Some p ∧ team_id p = Some u).
Proof.
  intros Hu. unfold mine, side_id. cbn [ostr_truthy]. rewrite Hu. cbn [andb].
  rewrite orb_true_iff, !bool_decide_eq_true. split.
  - intros [H|H]; [left|right].
    + destruct (home m) as [p|]; [|done]. by exists p.
    + destruct (away m) as [p|]; [|done]. by exists p.
  - intros [(p & -> & Hp)|(p & -> & Hp)]; [left|right]; exact Hp.
Qed.

(** One turn of the loop: the matchup under the key is returned when it has
    no result and involves the team, and the loop goes on otherwise. *)
Lemma play_in_scan_hit (c : ConfState) (u key : string) rest mm (m : Matchup) :
  str_truthy u = true →
  matchups c = Some mm → mm !! key = Some m → result m = None →
  (∃ p, home m = Some p ∧ team_id p = Some u)
  ∨ (∃ p, away m = Some p ∧ team_id p = Some u) →
  play_in_scan c (Some u) (key :: rest) = Some m.
Proof.
  intros Hu Hmm Hm Hr Hside. cbn [play_in_scan]. unfold matchup_of.
  rewrite Hmm. cbn. rewrite Hm, Hr.
  by rewrite (proj2 (mine_sides u m Hu) Hside).
Qed.

Lemma play_in_scan_miss (c : ConfState) (u key : string) rest :
  str_truthy u = true →
  (¬ ∃ mm m,
       matchups c = Some mm ∧ mm !! key = Some m ∧ result m = None
       ∧ ((∃ p, home m = Some p ∧ team_id p = Some u)
          ∨ (∃ p, away m = Some p ∧ team_id p = Some u))) →
  play_in_scan c (Some u) (key :: rest) = play_in_scan c (Some u) rest.
Proof.
  intros Hu Hno. cbn [play_in_scan]. unfold matchup_of.
  destruct (matchups c) as [mm|] eqn:Hmm; [|done]. cbn.
  destruct (mm !! key) as [m|] eqn:Hm; [|done].
  destruct (result m) as [r|] eqn:Hr; [done|].
  destruct (mine (Some u) m) eqn:Hmine; [|done].
  exfalso. apply Hno. exists mm, m. split_and!; [done..|].
  by apply mine_sides.
Qed.

Lemma play_in_scan_no_team (c : ConfState) (myId : option string) keys :
  ostr_truthy myId = false → play_in_scan c myId keys = None.
Proof.
  intros Hid. induction keys as [|key rest IH]; [done|].
  cbn [play_in_scan]. destruct (matchup_of c key) as [m|]; [|done].
  destruct (result m); [done|]. unfold mine. by rewrite Hid.
Qed.

(** C9. [nextPlayInMatchup] goes through the keys seven_vs_eight,
    nine_vs_ten, final in that order and returns the first matchup stored
    under one of them that has no result and has the user's team as its
    home or its away side; it returns nothing when there is none, and
    nothing without a selected team. The conference it is applied to is the
    first one that lists the team among its participants. In particular,
    when seven_vs_eight has a result and nine_vs_ten has none and involves
    the team, nine_vs_ten is returned, whatever the state of final. *)
Theorem C9_next_play_in_matchup (c : ConfState) (s : AppState) :
  let stored (key : string) (m : Matchup) : Prop :=
    ∃ mm, matchups c = Some mm ∧ mm !! key = Some m in
  let plays (u : string) (m : Matchup) : Prop :=
    (∃ p, home m = Some p ∧ team_id p = Some u)
    ∨ (∃ p, away m = Some p ∧ team_id p = Some u) in
  let playable (u key : string) : Prop :=
    ∃ m, stored key m ∧ result m = None ∧ plays u m in
  let listed (u : string) (conf : ConfState) : Prop :=
    ∃ ps slot p, participants conf = Some ps ∧ (slot, Some p) ∈ ps
                 ∧ team_id p = Some u in
  (∀ u, selectedTeam s = Some u → str_truthy (t_id u) = true →
     (∀ m, stored "seven_vs_eight" m → result m = None → plays (t_id u) m →
           nextPlayInMatchup (Some c) s = Some m)
     ∧ (∀ m, ¬ playable (t_id u) "seven_vs_eight" →
             stored "nine_vs_ten" m → result m = None → plays (t_id u) m →
             nextPlayInMatchup (Some c) s = Some m)
     ∧ (∀ m, ¬ playable (t_id u) "seven_vs_eight" →
             ¬ playable (t_id u) "nine_vs_ten" →
             stored "final" m → result m = None → plays (t_id u) m →
             nextPlayInMatchup (Some c) s = Some m)
     ∧ (¬ playable (t_id u) "seven_vs_eight" →
        ¬ playable (t_id u) "nine_vs_ten" →
        ¬ playable (t_id u) "final" →
        nextPlayInMatchup (Some c) s = None)
     ∧ (∀ m78 m910 r,
          stored "seven_vs_eight" m78 → result m78 = Some r →
          stored "nine_vs_ten" m910 → result m910 = None →
          plays (t_id u) m910 →
          nextPlayInMatchup (Some c) s = Some m910))
  ∧ (∀ m, nextPlayInMatchup (Some c) s = Some m →
       ∃ u, selectedTeam s = Some u ∧ str_truthy (t_id u) = true
            ∧ result m = None ∧ plays (t_id u) m
            ∧ (stored "seven_vs_eight" m ∨ stored "nine_vs_ten" m
               ∨ stored "final" m))
  ∧ (ostr_truthy (t_id <$> selectedTeam s) = false →
     nextPlayInMatchup (Some c) s = None)
  ∧ nextPlayInMatchup None s = None
  ∧ (∀ confs key conf,
       findMyPlayInConf (Some confs) s = Some (key, conf) ↔
       ∃ u i, selectedTeam s = Some u ∧ confs !! i = Some (key, conf)
              ∧ listed (t_id u) conf
              ∧ ∀ j kc, (j < i)%nat → confs !! j = Some kc →
                        ¬ listed (t_id u) (snd kc))
  ∧ (∀ playIn m,
       my_next_play_in playIn s = Some m ↔
       ∃ key conf, findMyPlayInConf playIn s = Some (key, conf)
                   ∧ nextPlayInMatchup (Some conf) s = Some m).
Proof.
  intros stored plays playable listed.
  assert (Hmiss : ∀ u key rest, str_truthy u = true → ¬ playable u key →
            play_in_scan c (Some u) (key :: rest) = play_in_scan c (Some u) rest).
  { intros u key rest Hu Hno. apply play_in_scan_miss; [done|].
    intros (mm & m & Hmm & Hm & Hr & Hp). apply Hno. exists m.
    split_and!; [by exists mm|done..]. }
  assert (Hhit : ∀ u key rest m, str_truthy u = true →
            stored key m → result m = None → plays u m →
            play_in_scan c (Some u) (key :: rest) = Some m).
  { intros u key rest m Hu (mm & Hmm & Hm) Hr Hp.
    by apply (play_in_scan_hit c u key rest mm m). }
  assert (Hcases : ∀ u, selectedTeam s = Some u → str_truthy (t_id u) = true →
            (∃ m, nextPlayInMatchup (Some c) s = Some m
                  ∧ result m = None ∧ plays (t_id u) m
                  ∧ (stored "seven_vs_eight" m ∨ stored "nine_vs_ten" m
                     ∨ stored "final" m))
            ∨ (nextPlayInMatchup (Some c) s = None)).
  { intros u Hsel Hu. unfold nextPlayInMatchup, play_in_order.
    rewrite Hsel. cbn [fmap option_fmap option_map].
    assert (Hstep : ∀ key rest,
      (∃ m, play_in_scan c (Some (t_id u)) (key :: rest) = Some m
            ∧ result m = None ∧ plays (t_id u) m ∧ stored key m)
      ∨ play_in_scan c (Some (t_id u)) (key :: rest)
        = play_in_scan c (Some (t_id u)) rest).
    { intros key rest. cbn [play_in_scan]. unfold matchup_of.
      destruct (matchups c) as [mm|] eqn:Hmm; [|by right]. cbn.
      destruct (mm !! key) as [m|] eqn:Hm; [|by right].
      destruct (result m) as [r|] eqn:Hr; [by right|].
      destruct (mine (Some (t_id u)) m) eqn:Hmine; [|by right].
      left. exists m. split_and!; [done..| |by exists mm].
      by apply (mine_sides (t_id u) m Hu). }
    destruct (Hstep "seven_vs_eight" ["nine_vs_ten"; "final"])
      as [(m & -> & Hr & Hp & Hst) | ->].
    { left. exists m. split_and!; [done..|]. by left. }
    destruct (Hstep "nine_vs_ten" ["final"]) as [(m & -> & Hr & Hp & Hst) | ->].
    { left. exists m. split_and!; [done..|]. right. by left. }
    destruct (Hstep "final" []) as [(m & -> & Hr & Hp & Hst) | ->].
    { left. exists m. split_and!; [done..|]. right. by right. }
    by right. }
  split_and!.
  - intros u Hsel Hu.
    unfold nextPlayInMatchup, play_in_order. rewrite Hsel.
    cbn [fmap option_fmap option_map].
    split_and!.
    + intros m Hst Hr Hp. by apply Hhit.
    + intros m H78 Hst Hr Hp. rewrite (Hmiss _ _ _ Hu H78). by apply Hhit.
    + intros m H78 H910 Hst Hr Hp.
      rewrite (Hmiss _ _ _ Hu H78), (Hmiss _ _ _ Hu H910). by apply Hhit.
    + intros H78 H910 Hfin.
      by rewrite (Hmiss _ _ _ Hu H78), (Hmiss _ _ _ Hu H910),
        (Hmiss _ _ _ Hu Hfin).
    + intros m78 m910 r H78 Hr78 H910 Hr910 Hp.
      rewrite Hmiss; [by apply Hhit|done|].
      intros (m & (mm & Hmm & Hm) & Hr & _).
      destruct H78 as (mm' & Hmm' & Hm'). congruence.
  - intros m Hm.
    destruct (selectedTeam s) as [u|] eqn:Hsel.
    2:{ unfold nextPlayInMatchup in Hm. rewrite Hsel in Hm.
        by rewrite play_in_scan_no_team in Hm. }
    destruct (str_truthy (t_id u)) eqn:Hu.
    2:{ unfold nextPlayInMatchup in Hm. rewrite Hsel in Hm.
        rewrite play_in_scan_no_team in Hm; [done|]. exact Hu. }
    destruct (Hcases u eq_refl Hu) as [(m' & Hm' & Hr & Hp & Hst)|Hnone];
      [|congruence].
    rewrite Hm in Hm'. injection Hm' as <-. by exists u.
  - intros Hid. unfold nextPlayInMatchup. by apply play_in_scan_no_team.
  - done.
  - intros confs key conf. unfold findMyPlayInConf.
    assert (Hlisted : ∀ u conf', has_participant (t_id u) conf' = true
                                 ↔ listed (t_id u) conf').
    { intros u conf'. unfold has_participant, listed.
      rewrite existsb_exists. split.
      - intros ([slot [p|]] & Hin & Hp); [|done]. cbn in Hp.
        apply bool_decide_eq_true in Hp.
        destruct (participants conf') as [ps|]; [|done].
        exists ps, slot, p. split_and!; [done| |done].
        by apply list_elem_of_In.
      - intros (ps & slot & p & -> & Hin & Hp). exists (slot, Some p).
        split; [by apply list_elem_of_In|]. cbn. by apply bool_decide_eq_true. }
    destruct (selectedTeam s) as [u|] eqn:Hsel.
    2:{ split; [done|]. by intros (u & i & ? & _). }
    rewrite find_first. split.
    + intros (i & Hi & Hp & Hfirst). exists u, i.
      split_and!; [done..|by apply Hlisted|].
      intros j kc Hj Hkc Hl. apply Hlisted in Hl.
      by rewrite (Hfirst j kc Hj Hkc) in Hl.
    + intros (u' & i & [= <-] & Hi & Hl & Hfirst). exists i.
      split_and!; [done|by apply Hlisted|].
      intros j kc Hj Hkc.
      destruct (has_participant (t_id u) kc.2) eqn:Hp; [|done].
      exfalso. apply (Hfirst j kc Hj Hkc). by apply Hlisted.
  - intros playIn m. unfold my_next_play_in.
    destruct (findMyPlayInConf playIn s) as [[key conf]|]; split.
    + intros Hm. by exists key, conf.
    + by intros (key' & conf' & [= <- <-] & Hm).
    + done.
    + by intros (? & ? & ? & _).
Qed.

(** C9, witness: Atlanta, drawn in 9v10 of a conference whose 7v8 is decided
    and whose final is open and would involve Atlanta as well. *)
Lemma C9_witness :
  nextPlayInMatchup (Some Demo.east_conf) Demo.atl_selected = Some Demo.m910
  ∧ my_next_play_in (Some [("east", Demo.east_conf)]) Demo.atl_selected
    = Some Demo.m910
  ∧ result Demo.mfinal = None
  ∧ away Demo.mfinal = Some {| team_id := Some "ATL" |}.
Proof.
  destruct (C9_next_play_in_matchup Demo.east_conf Demo.atl_selected)
    as (Hnext & _ & _ & _ & Hconf & Hmine).
  destruct (Hnext {| t_id := "ATL"; t_name := "Atlanta Hawks" |}
              eq_refl eq_refl) as (_ & _ & _ & _ & Hcase).
  assert (H910 : nextPlayInMatchup (Some Demo.east_conf) Demo.atl_selected
                 = Some Demo.m910).
  { apply (Hcase Demo.m78 Demo.m910 {| winner := Some "MIA" |}).
    - eexists. split; [reflexivity|]. by vm_compute.
    - reflexivity.
    - eexists. split; [reflexivity|]. by vm_compute.
    - reflexivity.
    - left. by eexists. }
  split_and!.
  - exact H910.
  - apply Hmine. exists "east", Demo.east_conf. split; [|exact H910].
    apply Hconf.
    exists {| t_id := "ATL"; t_name := "Atlanta Hawks" |}, 0%nat.
    split_and!; [reflexivity..| |intros j kc Hj; lia].
    exists [("9", Demo.side "ATL"); ("10", Demo.side "TOR")], "9",
      {| team_id := Some "ATL" |}.
    split_and!; [reflexivity| |reflexivity].
    apply elem_of_cons. by left.
  - reflexivity.
  - reflexivity.
Defined.

(** ** TacticsProjector *)

(** C3. The fatigue factor handed to [buildTacticsForTeam] does not reach
    the payload: the function returns the same state and the same object
    whatever the factor, for the user's team as for the opponent, and the
    whole advance, request to the simulator included, is the same whatever
    the dates say about rest. *)
Theorem C3_payload_ignores_fatigue :
  (∀ tid f1 f2 s, buildTacticsForTeam tid f1 s = buildTacticsForTeam tid f2 s)
  ∧ (∀ D1 D2 w s, simulateGameProgress D1 w s = simulateGameProgress D2 w s)
  ∧ (∀ f, snd (buildTacticsForTeam "ATL" f Demo.atl_back_to_back)
          = Some (UserPayload (project_tactics getDefaultTactics)))
  ∧ calcFatigueFactor
      (computeRestDaysForUserTeam isoDateMs
         (fst (getNextScheduledGame Demo.atl_back_to_back))) = 92 # 100.
Proof.
  split_and!.
  - done.
  - done.
  - done.
  - reflexivity.
Qed.

(** ** ScheduleStore *)

Lemma already_loaded_true tid (sch : Schedule) :
  already_loaded tid sch = true ↔ teamId sch = Some tid ∧ games sch ≠ [].
Proof.
  unfold already_loaded. rewrite andb_true_iff, negb_true_iff.
  rewrite bool_decide_eq_true, bool_decide_eq_false. done.
Qed.

Lemma generateSeasonSchedule_teamId tid resp (s : AppState) :
  teamId (schedule (cachedViews (fst (generateSeasonSchedule tid resp s))))
  = Some tid.
Proof.
  unfold generateSeasonSchedule.
  destruct (already_loaded tid (schedule (cachedViews s))) eqn:Hl.
  - apply already_loaded_true in Hl as [Ht _]. done.
  - destruct resp as [d| |]; [|done..]. simpl.
    destruct (copy_entry <$> default [] (sd_games d)); done.
Qed.

(** After a failed or empty load the store is still empty, so the next call
    asks the server again. *)
Lemma generateSeasonSchedule_retries_after_failure tid text resp (s : AppState) :
  already_loaded tid (schedule (cachedViews s)) = false →
  let s1 := fst (generateSeasonSchedule tid (RespNotOk text) s) in
  games (schedule (cachedViews s1)) = []
  ∧ Fetch (schedule_url tid) ∈ snd (generateSeasonSchedule tid resp s1).
Proof.
  intros Hl s1.
  assert (Hs1 : games (schedule (cachedViews s1)) = []).
  { unfold s1, generateSeasonSchedule. rewrite Hl. done. }
  split; [done|]. unfold generateSeasonSchedule, already_loaded.
  rewrite Hs1. rewrite (bool_decide_true ([] = [])) by reflexivity.
  rewrite andb_false_r.
  destruct resp; simpl; apply elem_of_cons; by left.
Qed.

(** C8. When the store already holds a non-empty schedule of the team,
    [generateSeasonSchedule] changes nothing and sends nothing. Hence, when
    a call leaves a non-empty schedule in the store, the call that follows
    for the same team is such a no-op: the two calls send at most one
    request and the state after the second is the state after the first. *)
Theorem C8_ensure_loaded_idempotent
    (tid : string) (r1 r2 : Response ScheduleData) (s : AppState) :
  let s1 := fst (generateSeasonSchedule tid r1 s) in
  let e1 := snd (generateSeasonSchedule tid r1 s) in
  (teamId (schedule (cachedViews s)) = Some tid →
   games (schedule (cachedViews s)) ≠ [] →
   generateSeasonSchedule tid r2 s = (s, []))
  ∧ (games (schedule (cachedViews s1)) ≠ [] →
     generateSeasonSchedule tid r2 s1 = (s1, [])
     ∧ (request_count (e1 ++ snd (generateSeasonSchedule tid r2 s1)) ≤ 1)%nat
     ∧ (already_loaded tid (schedule (cachedViews s)) = false →
        request_count (e1 ++ snd (generateSeasonSchedule tid r2 s1)) = 1%nat)).
Proof.
  intros s1 e1. split.
  - intros Ht Hg. unfold generateSeasonSchedule.
    rewrite (proj2 (already_loaded_true tid _)); done.
  - intros Hne.
    assert (Hnoop : generateSeasonSchedule tid r2 s1 = (s1, [])).
    { unfold generateSeasonSchedule at 1.
      rewrite (proj2 (already_loaded_true tid _)); [done|].
      split; [apply generateSeasonSchedule_teamId|done]. }
    split; [done|]. rewrite Hnoop. simpl. rewrite app_nil_r.
    unfold e1, generateSeasonSchedule.
    destruct (already_loaded tid (schedule (cachedViews s))) eqn:Hl.
    + split; [simpl; unfold request_count; simpl; lia|done].
    + destruct r1; simpl; unfold request_count; simpl; split; (lia || done).
Qed.

(** C8, witness: Atlanta's schedule is fetched by the first call only. *)
Lemma C8_witness :
  let first :=
    generateSeasonSchedule "ATL" (RespOk {| sd_games := Some Demo.atl_games |})
      Demo.atl_selected in
  games (schedule (cachedViews (fst first))) ≠ []
  ∧ generateSeasonSchedule "ATL" RespThrow (fst first) = (fst first, [])
  ∧ request_count
      (snd first ++ snd (generateSeasonSchedule "ATL" RespThrow (fst first)))
    = 1%nat.
Proof.
  pose proof (C8_ensure_loaded_idempotent "ATL"
                (RespOk {| sd_games := Some Demo.atl_games |}) RespThrow
                Demo.atl_selected) as [_ H].
  assert (Hne : games (schedule (cachedViews (fst
            (generateSeasonSchedule "ATL"
               (RespOk {| sd_games := Some Demo.atl_games |})
               Demo.atl_selected)))) ≠ []) by (by vm_compute).
  destruct (H Hne) as (Hnoop & _ & Hone).
  split_and!; [exact Hne|exact Hnoop|apply Hone; reflexivity].
Defined.

Lemma findIndex_unplayed_Some (l : list ScheduleEntry) i :
  findIndex_unplayed l = Some i ↔
  ∃ g, l !! i = Some g ∧ unplayed g = true
       ∧ ∀ j h, (j < i)%nat → l !! j = Some h → unplayed h = false.
Proof.
  unfold findIndex_unplayed. split.
  - intros H. apply fmap_Some in H as ([i' g] & Hf & ->).
    apply list_find_Some in Hf as (Hi & Hp & Hmin). exists g.
    split_and!; [done..|]. intros j h Hj Hh.
    apply not_true_is_false. by apply (Hmin j h).
  - intros (g & Hi & Hp & Hmin). apply fmap_Some. exists (i, g).
    split; [|done]. apply list_find_Some. split_and!; [done..|].
    intros j h Hh Hj. rewrite (Hmin j h); done.
Qed.

Lemma findIndex_unplayed_None (l : list ScheduleEntry) :
  findIndex_unplayed l = None ↔ ∀ g, g ∈ l → unplayed g = false.
Proof.
  unfold findIndex_unplayed. rewrite fmap_None, list_find_None, Forall_forall.
  split; intros H g Hg.
  - apply not_true_is_false. by apply H.
  - rewrite (H g Hg). done.
Qed.

(** C1 (as amended). Right after a successful fetch the store holds the
    fetched entries; if one of them has both scores unset the cursor is the
    least index of such an entry; if none has, the cursor is the index of
    the last entry ([length - 1], which is [-1] on an empty schedule). *)
Theorem C1_cursor_after_load
    (tid : string) (data : ScheduleData) (s : AppState) :
  already_loaded tid (schedule (cachedViews s)) = false →
  let s' := fst (generateSeasonSchedule tid (RespOk data) s) in
  let sch := schedule (cachedViews s') in
  games sch = copy_entry <$> default [] (sd_games data)
  ∧ (∀ i g, games sch !! i = Some g → unplayed g = true →
       (∀ j h, (j < i)%nat → games sch !! j = Some h → unplayed h = false) →
       currentIndex sch = Z.of_nat i)
  ∧ ((∃ g, g ∈ games sch ∧ unplayed g = true) →
       ∃ i g, currentIndex sch = Z.of_nat i
              ∧ games sch !! i = Some g ∧ unplayed g = true
              ∧ ∀ j h, (j < i)%nat → games sch !! j = Some h →
                       unplayed h = false)
  ∧ ((∀ g, g ∈ games sch → unplayed g = false) →
       currentIndex sch = Z.of_nat (length (games sch)) - 1).
Proof.
  intros Hl s' sch.
  assert (Hsch : sch = {| teamId := Some tid;
                          games := copy_entry <$> default [] (sd_games data);
                          currentIndex :=
                            loaded_cursor
                              (copy_entry <$> default [] (sd_games data)) |}).
  { unfold sch, s', generateSeasonSchedule. rewrite Hl. simpl.
    destruct (copy_entry <$> default [] (sd_games data)); done. }
  rewrite Hsch. simpl.
  set (gs := copy_entry <$> default [] (sd_games data)).
  split_and!.
  - done.
  - intros i g Hi Hu Hmin. unfold loaded_cursor.
    rewrite (proj2 (findIndex_unplayed_Some gs i)); [done|]. eauto.
  - intros (g & Hg & Hu). unfold loaded_cursor.
    destruct (findIndex_unplayed gs) as [i|] eqn:Hf.
    + apply findIndex_unplayed_Some in Hf as (g' & ? & ? & ?).
      exists i, g'. done.
    + rewrite findIndex_unplayed_None in Hf. rewrite (Hf g Hg) in Hu. done.
  - intros Hall. unfold loaded_cursor.
    rewrite (proj2 (findIndex_unplayed_None gs)); done.
Qed.

(** C1, witness: Atlanta's schedule, whose first unplayed game is the
    second entry. *)
Lemma C1_witness :
  already_loaded "ATL" (schedule (cachedViews Demo.atl_selected)) = false
  ∧ currentIndex (schedule (cachedViews Demo.atl_loaded)) = 1
  ∧ currentIndex (schedule (cachedViews (Demo.load Demo.all_played
                                           Demo.atl_selected))) = 1.
Proof.
  pose proof (C1_cursor_after_load "ATL" {| sd_games := Some Demo.atl_games |}
                Demo.atl_selected eq_refl) as (_ & Hmin & _ & _).
  pose proof (C1_cursor_after_load "ATL" {| sd_games := Some Demo.all_played |}
                Demo.atl_selected eq_refl) as (_ & _ & _ & Hlast).
  split_and!.
  - reflexivity.
  - apply (Hmin 1%nat (Demo.entry "g2" "2025-10-25" "CHI" "ATL" None None None));
      [reflexivity..|].
    intros [|j] h Hj Hh; [|lia]. by injection Hh as <-.
  - apply Hlast. intros g Hg.
    apply list_elem_of_In in Hg. vm_compute in Hg.
    destruct Hg as [<-|[<-|[]]]; reflexivity.
Defined.

(** C1, counterexample to the claim as worded: when every entry has its
    scores the cursor is not a value set apart for exhaustion. It is 1, the
    index of the last entry, which has scores; and 1 is also the cursor of
    the schedule whose second entry is still to be played. *)
Lemma C1_exhausted_cursor_counterexample :
  let done_ := schedule (cachedViews (Demo.load Demo.all_played Demo.atl_selected)) in
  let open := schedule (cachedViews (Demo.load Demo.last_open Demo.atl_selected)) in
  (∀ g, g ∈ games done_ → unplayed g = false)
  ∧ currentIndex done_ = 1
  ∧ (∃ g, game_at (games done_) (currentIndex done_) = Some g
          ∧ unplayed g = false)
  ∧ currentIndex open = currentIndex done_
  ∧ (∃ g, game_at (games open) (currentIndex open) = Some g
          ∧ unplayed g = true).
Proof.
  split_and!.
  - intros g Hg. apply list_elem_of_In in Hg. vm_compute in Hg.
    destruct Hg as [<-|[<-|[]]]; reflexivity.
  - reflexivity.
  - eexists. split; reflexivity.
  - reflexivity.
  - eexists. split; reflexivity.
Qed.

(** ** Team selection *)

Lemma find_team_id tid team : find_team tid = Some team → t_id team = tid.
Proof.
  unfold find_team. intros H. apply find_some in H as [_ H].
  by apply String.eqb_eq.
Qed.

Lemma find_team_truthy tid team :
  find_team tid = Some team → str_truthy tid = true.
Proof.
  intros H. destruct tid; [|done]. by vm_compute in H.
Qed.

Lemma team_or_stub_id tid : t_id (team_or_stub tid) = tid.
Proof.
  unfold team_or_stub. destruct (find_team tid) eqn:H; [|done].
  by apply find_team_id.
Qed.

(** An id that is not in the team table selects nothing. *)
Lemma selectTeam_unknown tid resp (s : AppState) :
  find_team tid = None → selectTeam tid resp s = (s, []).
Proof. intros H. unfold selectTeam. by rewrite H. Qed.

(** C6 (as amended). Selecting a team of the table replaces the cached
    views, the schedule among them, by empty ones for that team, whatever
    was selected before. The tactics profiles are kept per team id: the
    selected team keeps the profile it already has and gets the default one
    only when it has none, and the profiles of the other teams, the
    previously selected one included, stay as they are. *)
Theorem C6_select_team_resets_schedule_keeps_profiles
    (tid : string) (team : Team) (resp : Response json) (s : AppState) :
  find_team tid = Some team →
  let s' := fst (selectTeam tid resp s) in
  selectedTeam s' = Some team
  ∧ cachedViews s' = emptyViews (Some tid)
  ∧ schedule (cachedViews s')
    = {| teamId := Some tid; games := []; currentIndex := 0 |}
  ∧ tacticsByTeam s' !! tid
    = Some (default getDefaultTactics (tacticsByTeam s !! tid))
  ∧ (∀ other, other ≠ tid → tacticsByTeam s' !! other = tacticsByTeam s !! other).
Proof.
  intros Hfind s'.
  pose proof (find_team_id _ _ Hfind) as Hid.
  pose proof (find_team_truthy _ _ Hfind) as Htr.
  unfold s', selectTeam. rewrite Hfind, Hid.
  unfold loadRosterForTeam, getOrCreateTacticsForTeam. rewrite Htr. simpl.
  unfold roster_cached.
  destruct (tacticsByTeam s !! tid) as [t|] eqn:Ht; simpl;
    rewrite lookup_empty; destruct resp; simpl;
    rewrite ?Ht, ?lookup_insert_eq;
    (split_and!; [done..|]); intros other Hne;
    rewrite ?lookup_insert_ne; done.
Qed.

(** C6, witness: Boston selected after Atlanta. *)
Lemma C6_witness :
  find_team "BOS" = Some {| t_id := "BOS"; t_name := "Boston Celtics" |}
  ∧ schedule (cachedViews (fst (selectTeam "BOS" Demo.no_roster Demo.atl_loaded)))
    = {| teamId := Some "BOS"; games := []; currentIndex := 0 |}
  ∧ tacticsByTeam (fst (selectTeam "BOS" Demo.no_roster Demo.atl_loaded)) !! "BOS"
    = Some getDefaultTactics
  ∧ tacticsByTeam (fst (selectTeam "BOS" Demo.no_roster Demo.atl_loaded)) !! "ATL"
    = Some getDefaultTactics.
Proof.
  pose proof (C6_select_team_resets_schedule_keeps_profiles "BOS"
                {| t_id := "BOS"; t_name := "Boston Celtics" |}
                Demo.no_roster Demo.atl_loaded eq_refl)
    as (_ & _ & Hsch & Hnew & Hold).
  split_and!.
  - reflexivity.
  - exact Hsch.
  - rewrite Hnew. reflexivity.
  - rewrite Hold by done. reflexivity.
Defined.

(** C6, counterexample to the claim as worded: Boston is selected and its
    pace lowered, Atlanta is selected and its pace raised, Boston is
    selected again. Atlanta's profile is still stored with its raised pace,
    and Boston's profile is the one of its earlier selection, not the
    default one. *)
Lemma C6_profiles_carried_over_counterexample :
  let s1 := onPaceInput (Finite (-1)) (fst (selectTeam "BOS" Demo.no_roster initialState)) in
  let s2 := onPaceInput (Finite 2) (fst (selectTeam "ATL" Demo.no_roster s1)) in
  let s3 := fst (selectTeam "BOS" Demo.no_roster s2) in
  (t_id <$> selectedTeam s2) = Some "ATL"
  ∧ (t_id <$> selectedTeam s3) = Some "BOS"
  ∧ tacticsByTeam s3 !! "ATL" = Some (set_pace (Finite 2) getDefaultTactics)
  ∧ tacticsByTeam s3 !! "BOS" = Some (set_pace (Finite (-1)) getDefaultTactics)
  ∧ tacticsByTeam s3 !! "ATL" ≠ Some getDefaultTactics
  ∧ tacticsByTeam s3 !! "BOS" ≠ Some getDefaultTactics.
Proof. vm_compute. split_and!; done. Qed.

(** ** GameOrchestrator: the stages of one advance *)

Lemma next_unplayed_Some (l : list ScheduleEntry) start i g :
  next_unplayed start l = Some (i, g) →
  ∃ n, i = start + Z.of_nat n ∧ l !! n = Some g ∧ unplayed g = true
       ∧ ∀ j h, (j < n)%nat → l !! j = Some h → unplayed h = false.
Proof.
  revert start. induction l as [|x l IH]; intros start H; [done|].
  simpl in H. destruct (unplayed x) eqn:Hx.
  - injection H as <- <-. exists 0%nat. split_and!; [lia|done..|].
    intros j h Hj. lia.
  - apply IH in H as (n & -> & Hn & Hu & Hmin). exists (S n).
    split_and!; [lia|done..|]. intros [|j] h Hj Hh.
    + by injection Hh as <-.
    + apply (Hmin j); [lia|done].
Qed.

Lemma next_unplayed_None (l : list ScheduleEntry) start :
  next_unplayed start l = None → ∀ g, g ∈ l → unplayed g = false.
Proof.
  revert start. induction l as [|x l IH]; intros start H g Hg.
  - by apply elem_of_nil in Hg.
  - simpl in H. destruct (unplayed x) eqn:Hx; [done|].
    apply elem_of_cons in Hg as [->|Hg]; [done|]. by apply (IH (start + 1)).
Qed.

(** What [getNextScheduledGame] answers and what it writes. *)
Lemma getNextScheduledGame_Some (s s' : AppState) g :
  getNextScheduledGame s = (s', Some g) →
  ∃ i, s' = upd_schedule (set_currentIndex (Z.of_nat i)) s
       ∧ games (schedule (cachedViews s)) !! i = Some g
       ∧ unplayed g = true
       ∧ ∀ j h, (j < i)%nat → games (schedule (cachedViews s)) !! j = Some h →
                unplayed h = false.
Proof.
  unfold getNextScheduledGame.
  destruct (games (schedule (cachedViews s))) as [|x l] eqn:Hg; [done|].
  destruct (next_unplayed 0 (x :: l)) as [[i g']|] eqn:Hn; [|done].
  intros H. injection H as <- <-.
  apply next_unplayed_Some in Hn as (n & -> & ? & ? & ?).
  exists n. rewrite Z.add_0_l. done.
Qed.

Lemma getNextScheduledGame_None (s s' : AppState) :
  getNextScheduledGame s = (s', None) →
  s' = s ∧ ∀ g, g ∈ games (schedule (cachedViews s)) → unplayed g = false.
Proof.
  unfold getNextScheduledGame.
  destruct (games (schedule (cachedViews s))) as [|x l] eqn:Hg.
  - intros H. injection H as <-. split; [done|]. intros g Hin.
    by apply elem_of_nil in Hin.
  - destruct (next_unplayed 0 (x :: l)) as [[i g']|] eqn:Hn; [done|].
    intros H. injection H as <-. split; [done|].
    by apply (next_unplayed_None _ 0).
Qed.

(** [simulateGameProgress] as the sequence of its stages. *)
Lemma simulateGameProgress_stages D (w : World) (s : AppState) :
  simulateGameProgress D w s =
  match getNextScheduledGame (fst (stage_load w s)) with
  | (s3, None) =>
      (fst (season_over w s3), Failure "no-more-regular-season",
       snd (stage_load w s) ++ snd (season_over w s3))
  | (s3, Some g) =>
      let before := snd (stage_load w s) ++ [league_request g (user_team s)] in
      match stage_tactics (t_id (team_or_stub (home_team_id g)))
              (t_id (team_or_stub (away_team_id g))) 0 0 (stage_league w s3) with
      | (s6, None) => (s6, ReturnedFalse, before ++ [Alert AlertEngineException])
      | (s6, Some (h, a)) =>
          match sim_resp w with
          | RespNotOk msg =>
              (s6, ReturnedFalse,
               before ++ [sim_request g h a; Alert (AlertEngineCallFailed msg)])
          | RespThrow =>
              (s6, ReturnedFalse,
               before ++ [sim_request g h a; Alert AlertEngineException])
          | RespOk d =>
              let res :=
                apply_result (user_team s) (team_or_stub (home_team_id g))
                  (team_or_stub (away_team_id g)) g d s6 in
              (fst (fst res), snd (fst res),
               before ++ [sim_request g h a] ++ snd res)
          end
      end
  end.
Proof.
  unfold simulateGameProgress. fold (stage_load w s).
  destruct (stage_load w s) as [s2 ev_load]. simpl.
  destruct (getNextScheduledGame s2) as [s3 [g|]].
  - fold (stage_league w s3). unfold stage_tactics.
    change (buildTacticsForTeam ?t ?f ?x) with (buildTacticsForTeam t 0 x).
    destruct (buildTacticsForTeam (t_id (team_or_stub (home_team_id g))) 0
                (stage_league w s3)) as [s5 [h|]]; [|done].
    destruct (buildTacticsForTeam (t_id (team_or_stub (away_team_id g))) 0 s5)
      as [s6 [a|]]; [|done].
    destruct (sim_resp w); done.
  - destruct (season_over w s3). done.
Qed.

Lemma same_applied_refl s : same_applied s s.
Proof. done. Qed.

Lemma same_applied_trans a b c :
  same_applied a b → same_applied b c → same_applied a c.
Proof. intros (?&?&?) (?&?&?). split_and!; congruence. Qed.

Lemma generateSeasonSchedule_same_applied tid resp (s : AppState) :
  same_applied (fst (generateSeasonSchedule tid resp s)) s.
Proof.
  unfold generateSeasonSchedule.
  destruct (already_loaded tid (schedule (cachedViews s))); [done|].
  destruct resp as [d| |]; [|done..]. simpl.
  destruct (copy_entry <$> default [] (sd_games d)); done.
Qed.

Lemma generateSeasonSchedule_events tid resp (s : AppState) :
  Forall (fun e => view_request e = false)
         (snd (generateSeasonSchedule tid resp s)).
Proof.
  unfold generateSeasonSchedule.
  destruct (already_loaded tid (schedule (cachedViews s))); [by constructor|].
  destruct resp; simpl; repeat constructor.
Qed.

Lemma stage_load_same_applied w (s : AppState) :
  same_applied (fst (stage_load w s)) s.
Proof.
  unfold stage_load.
  set (s1 := if ostr_truthy (teamId (schedule (cachedViews s))) then s
             else upd_schedule (set_teamId (Some (t_id (user_team s)))) s).
  assert (H1 : same_applied s1 s).
  { unfold s1. destruct (ostr_truthy _); done. }
  destruct (games (schedule (cachedViews s1))); [|done].
  eapply same_applied_trans; [apply generateSeasonSchedule_same_applied|done].
Qed.

Lemma stage_load_events w (s : AppState) :
  Forall (fun e => view_request e = false) (snd (stage_load w s)).
Proof.
  unfold stage_load.
  destruct (games _); [apply generateSeasonSchedule_events|by constructor].
Qed.

(** A schedule that is already there is not touched by the load step. *)
Lemma stage_load_loaded w (s : AppState) :
  games (schedule (cachedViews s)) ≠ [] →
  games (schedule (cachedViews (fst (stage_load w s))))
  = games (schedule (cachedViews s))
  ∧ currentDate (fst (stage_load w s)) = currentDate s
  ∧ scores (cachedViews (fst (stage_load w s))) = scores (cachedViews s)
  ∧ tacticsByTeam (fst (stage_load w s)) = tacticsByTeam s
  ∧ snd (stage_load w s) = [].
Proof.
  intros Hne. unfold stage_load.
  destruct (games (schedule (cachedViews s))) as [|g0 gs] eqn:Hg; [done|].
  destruct (ostr_truthy (teamId (schedule (cachedViews s)))).
  - rewrite Hg. done.
  - cbn [upd_schedule set_cachedViews set_schedule set_teamId cachedViews
         schedule games]. rewrite Hg. done.
Qed.

Lemma stage_league_frame w (s : AppState) :
  same_applied (stage_league w s) s
  ∧ schedule (cachedViews (stage_league w s)) = schedule (cachedViews s)
  ∧ currentDate (stage_league w s) = currentDate s
  ∧ tacticsByTeam (stage_league w s) = tacticsByTeam s.
Proof. unfold stage_league. destruct (league_resp w); done. Qed.

Lemma buildTacticsForTeam_frame tid f (s : AppState) :
  same_applied (fst (buildTacticsForTeam tid f s)) s
  ∧ cachedViews (fst (buildTacticsForTeam tid f s)) = cachedViews s
  ∧ currentDate (fst (buildTacticsForTeam tid f s)) = currentDate s.
Proof.
  unfold buildTacticsForTeam, getOrCreateTacticsForTeam.
  destruct (isUserTeam tid s); [|done].
  destruct (negb (str_truthy tid)); [done|].
  destruct (tacticsByTeam s !! tid); done.
Qed.

Lemma stage_tactics_frame hid aid fh fa (s : AppState) :
  same_applied (fst (stage_tactics hid aid fh fa s)) s
  ∧ cachedViews (fst (stage_tactics hid aid fh fa s)) = cachedViews s
  ∧ currentDate (fst (stage_tactics hid aid fh fa s)) = currentDate s.
Proof.
  unfold stage_tactics.
  pose proof (buildTacticsForTeam_frame hid fh s) as (A1 & B1 & C1).
  destruct (buildTacticsForTeam hid fh s) as [s5 [h|]]; [|done].
  pose proof (buildTacticsForTeam_frame aid fa s5) as (A2 & B2 & C2).
  destruct (buildTacticsForTeam aid fa s5) as [s6 [a|]]; simpl in *;
    (split_and!; [by eapply same_applied_trans|congruence..]).
Qed.

Lemma season_over_frame w (s : AppState) :
  same_applied (fst (season_over w s)) s
  ∧ cachedViews (fst (season_over w s)) = cachedViews s
  ∧ currentDate (fst (season_over w s)) = currentDate s.
Proof.
  unfold season_over.
  destruct (apiKey s) as [k|]; [|done].
  destruct (selectedTeam s) as [u|]; [|done].
  destruct (str_truthy k && homeLLMOutput w); [|done].
  destruct (report_resp w) as [d| |]; [|done..].
  destruct (str_truthy (report_text d)); done.
Qed.

(** The state in which the simulator is called: the game found at the
    cursor is the first one without scores, and nothing of the part written
    by the result block has changed. *)
Lemma before_simulation (w : World) (s s3 : AppState) g hid aid fh fa :
  getNextScheduledGame (fst (stage_load w s)) = (s3, Some g) →
  let s6 := fst (stage_tactics hid aid fh fa (stage_league w s3)) in
  same_applied s6 s
  ∧ schedule (cachedViews s6) = schedule (cachedViews s3)
  ∧ (games (schedule (cachedViews s)) ≠ [] →
     games (schedule (cachedViews s6)) = games (schedule (cachedViews s))
     ∧ currentDate s6 = currentDate s)
  ∧ ∃ i, currentIndex (schedule (cachedViews s6)) = Z.of_nat i
         ∧ games (schedule (cachedViews s6)) !! i = Some g
         ∧ unplayed g = true
         ∧ ∀ j h, (j < i)%nat →
                  games (schedule (cachedViews s6)) !! j = Some h →
                  unplayed h = false.
Proof.
  intros Hnext s6.
  apply getNextScheduledGame_Some in Hnext as (i & Hs3 & Hi & Hu & Hmin).
  pose proof (stage_load_same_applied w s) as Hload.
  pose proof (stage_league_frame w s3) as (L1 & L2 & L3 & _).
  pose proof (stage_tactics_frame hid aid fh fa (stage_league w s3))
    as (T1 & T2 & T3). fold s6 in T1, T2, T3.
  assert (H3 : same_applied s3 (fst (stage_load w s))) by (by rewrite Hs3).
  assert (Hsch : schedule (cachedViews s6) = schedule (cachedViews s3))
    by congruence.
  split_and!.
  - repeat (eapply same_applied_trans; [eassumption|]). done.
  - done.
  - intros Hne. apply (stage_load_loaded w) in Hne as (G & Dt & _).
    rewrite Hsch, T3, L3, Hs3. simpl. done.
  - exists i. rewrite Hsch, Hs3. simpl. done.
Qed.

(** Inversion of a successful advance. *)
Lemma simulateGameProgress_success D (w : World) (s s' : AppState) r evs :
  simulateGameProgress D w s = (s', Success r, evs) →
  ∃ s6 g d before started,
    sim_resp w = RespOk d
    ∧ apply_result (user_team s) (team_or_stub (home_team_id g))
        (team_or_stub (away_team_id g)) g d s6 = (s', Success r, started)
    ∧ evs = before ++ started
    ∧ Forall (fun e => view_request e = false) before
    ∧ same_applied s6 s
    ∧ ∃ i, currentIndex (schedule (cachedViews s6)) = Z.of_nat i
           ∧ games (schedule (cachedViews s6)) !! i = Some g
           ∧ unplayed g = true
           ∧ ∀ j h, (j < i)%nat →
                    games (schedule (cachedViews s6)) !! j = Some h →
                    unplayed h = false.
Proof.
  rewrite simulateGameProgress_stages.
  destruct (getNextScheduledGame (fst (stage_load w s))) as [s3 [g|]] eqn:Hnext;
    [|done].
  pose proof (before_simulation w s s3 g
                (t_id (team_or_stub (home_team_id g)))
                (t_id (team_or_stub (away_team_id g))) 0 0 Hnext)
    as (Happ & _ & _ & Hcur).
  cbv zeta.
  destruct (stage_tactics _ _ _ _ (stage_league w s3)) as [s6 [[h a]|]];
    [|done].
  simpl in Happ, Hcur.
  destruct (sim_resp w) as [d| |] eqn:Hsim; [|done..].
  destruct (apply_result (user_team s) (team_or_stub (home_team_id g))
              (team_or_stub (away_team_id g)) g d s6)
    as [[sa oa] ea] eqn:Happly.
  cbn [fst snd]. intros H. injection H as -> -> <-.
  exists s6, g, d,
    (snd (stage_load w s) ++ [league_request g (user_team s)]
     ++ [sim_request g h a]), ea.
  split_and!; [done|done|by rewrite <- !app_assoc| |done..].
  apply Forall_app. split; [apply stage_load_events|].
  repeat constructor.
Qed.

(** Inversion of an advance that does not succeed. *)
Lemma simulateGameProgress_not_applied D (w : World) (s s' : AppState) out evs :
  simulateGameProgress D w s = (s', out, evs) →
  (∀ r, out ≠ Success r) →
  same_applied s' s
  ∧ (games (schedule (cachedViews s)) ≠ [] →
     games (schedule (cachedViews s')) = games (schedule (cachedViews s))
     ∧ currentDate s' = currentDate s).
Proof.
  rewrite simulateGameProgress_stages.
  destruct (getNextScheduledGame (fst (stage_load w s))) as [s3 [g|]] eqn:Hnext.
  - pose proof (before_simulation w s s3 g
                  (t_id (team_or_stub (home_team_id g)))
                  (t_id (team_or_stub (away_team_id g))) 0 0 Hnext)
      as (Happ & _ & Hgames & _).
    cbv zeta.
    destruct (stage_tactics _ _ _ _ (stage_league w s3)) as [s6 [[h a]|]];
      simpl in Happ, Hgames.
    + destruct (sim_resp w) as [d| |]; intros H Hout; injection H as <- <- <-;
        try done.
      exfalso. eapply Hout. reflexivity.
    + intros H _. injection H as <- <- <-. done.
  - intros H _. injection H as <- <- <-.
    apply getNextScheduledGame_None in Hnext as [-> _].
    pose proof (season_over_frame w (fst (stage_load w s))) as (A & B & C).
    pose proof (stage_load_same_applied w s) as Hload.
    split; [by eapply same_applied_trans|].
    intros Hne. apply (stage_load_loaded w) in Hne as (G & Dt & _).
    rewrite B, C. done.
Qed.

Lemma score_of_stub d tid : score_of d (t_id (team_or_stub tid)) = score_of d tid.
Proof. by rewrite team_or_stub_id. Qed.

Lemma result_label_W my opp : result_label my opp = "W" ↔ my > opp.
Proof.
  unfold result_label. destruct (Z.gtb_spec my opp); split; (done || lia).
Qed.

Lemma result_label_cases my opp :
  result_label my opp = "W" ∨ result_label my opp = "L".
Proof. unfold result_label. destruct (my >? opp); auto. Qed.

(** What the result block writes, read off [apply_result]. *)
Lemma apply_result_facts (u h a : Team) g d (s6 s' : AppState) r started :
  apply_result u h a g d s6 = (s', Success r, started) →
  let hs := score_of d (t_id h) in
  let vs := score_of d (t_id a) in
  let my := if bool_decide (t_id u = t_id h) then hs else vs in
  let opp := if bool_decide (t_id u = t_id h) then vs else hs in
  schedule (cachedViews s')
  = write_next_game (with_result hs vs (result_label my opp))
      (schedule (cachedViews s6))
  ∧ r_game_id r = game_id g
  ∧ r_home_score r = hs ∧ r_away_score r = vs
  ∧ r_result_for_user_team r = Some (result_label my opp)
  ∧ apiKey s' = apiKey s6 ∧ selectedTeam s' = selectedTeam s6
  ∧ progressTurns s' = progressTurns s6 + 1
  ∧ stats (cachedViews s')
    = {| leaders := leaders (stats (cachedViews s6)); stats_lastLoaded := None |}
  ∧ standings_lastLoaded (standings (cachedViews s')) = None
  ∧ teams (cachedViews s')
    = {| teams_list := teams_list (teams (cachedViews s6));
         detailById := detailById (teams (cachedViews s6));
         teams_lastLoaded := None |}
  ∧ weekly_lastLoaded (weeklyNews (cachedViews s')) = None
  ∧ started = renderAllTabs_requests s6.
Proof.
  unfold apply_result. intros H. injection H as <- <- <-.
  cbv zeta. split_and!; reflexivity.
Qed.

(** The schedule after the result block: same cursor, the entry at the
    cursor rewritten, the others as before. *)
Lemma write_next_game_at f (sch : Schedule) i g :
  currentIndex sch = Z.of_nat i →
  games sch !! i = Some g →
  currentIndex (write_next_game f sch) = Z.of_nat i
  ∧ games (write_next_game f sch) !! i = Some (f g)
  ∧ ∀ j, j ≠ i → games (write_next_game f sch) !! j = games sch !! j.
Proof.
  intros Hc Hg. unfold write_next_game. simpl. rewrite Hc, Nat2Z.id.
  split_and!; [done| |].
  - by rewrite list_lookup_alter_eq, Hg.
  - intros j Hj. by rewrite list_lookup_alter_ne.
Qed.

(** C2 (as amended). When an advance succeeds, the entry it played carries
    the two scores and a result that is "W" exactly when the score of the
    user's side is strictly greater than the other one. The cursor is not
    moved by that write: it still is the index of the entry just played,
    all entries up to it having scores. It is the next call of
    [getNextScheduledGame] that moves the cursor, to the least later index
    whose entry has no scores; when there is none it answers [null] and
    leaves the cursor where it is. *)
Theorem C2_result_written_cursor_moves_on_next_lookup
    D (w : World) (s s' : AppState) (r : GameResult) (evs : list Event) :
  simulateGameProgress D w s = (s', Success r, evs) →
  let sch := schedule (cachedViews s') in
  ∃ i e,
    currentIndex sch = Z.of_nat i
    ∧ games sch !! i = Some e
    ∧ game_id e = r_game_id r
    ∧ home_score e = Some (r_home_score r)
    ∧ away_score e = Some (r_away_score r)
    ∧ unplayed e = false
    ∧ (∀ j h, (j < i)%nat → games sch !! j = Some h → unplayed h = false)
    ∧ (let userHome := bool_decide (t_id (user_team s') = home_team_id e) in
       let my := if userHome then r_home_score r else r_away_score r in
       let opp := if userHome then r_away_score r else r_home_score r in
       result_for_user_team e = Some "W" ↔ my > opp)
    ∧ (∀ s'' e', getNextScheduledGame s' = (s'', Some e') →
         ∃ k, (i < k)%nat
              ∧ currentIndex (schedule (cachedViews s'')) = Z.of_nat k
              ∧ games (schedule (cachedViews s'')) = games sch
              ∧ games sch !! k = Some e'
              ∧ unplayed e' = true
              ∧ ∀ j h, (j < k)%nat → games sch !! j = Some h →
                       unplayed h = false)
    ∧ (∀ s'', getNextScheduledGame s' = (s'', None) →
         s'' = s' ∧ ∀ h, h ∈ games sch → unplayed h = false).
Proof.
  intros Hsim sch.
  apply simulateGameProgress_success in Hsim
    as (s6 & g & d & before & started & _ & Happly & _ & _ & Hsame & Hcur).
  destruct Hcur as (i & Hci & Hgi & Hu & Hmin).
  apply apply_result_facts in Happly
    as (Hsch & Hid & Hhs & Hvs & _ & _ & Hteam & _).
  rewrite !score_of_stub, !team_or_stub_id in *.
  destruct Hsame as (_ & _ & Hsel). rewrite Hsel in Hteam.
  assert (Hu' : user_team s' = user_team s)
    by (unfold user_team; by rewrite Hteam).
  set (f := with_result _ _ _) in Hsch.
  destruct (write_next_game_at f _ i g Hci Hgi) as (Wc & Wi & Wo).
  rewrite <- Hsch in Wc, Wi, Wo. fold sch in Wc, Wi, Wo.
  assert (Hbefore : ∀ j h, (j < i)%nat → games sch !! j = Some h →
                           unplayed h = false).
  { intros j h Hj Hh. rewrite Wo in Hh by lia. by apply (Hmin j). }
  exists i, (f g). split_and!; try done.
  - by rewrite Hhs.
  - by rewrite Hvs.
  - rewrite Hu', Hhs, Hvs. unfold f. simpl. split.
    + intros [= H]. by apply result_label_W.
    + intros H. f_equal. by apply result_label_W.
  - intros s'' e' Hnext.
    apply getNextScheduledGame_Some in Hnext as (k & -> & Hk & Hue & Hkmin).
    fold sch in Hk, Hkmin. exists k.
    assert (i < k)%nat.
    { destruct (Nat.lt_trichotomy k i) as [Hlt|[->|Hgt]]; [| |done].
      - rewrite (Hbefore k e' Hlt Hk) in Hue. done.
      - rewrite Wi in Hk. injection Hk as <-. done. }
    split_and!; done.
  - intros s'' Hnext. by apply getNextScheduledGame_None in Hnext.
Qed.

(** C2, witness: Atlanta wins its game of 25 October in Chicago 101-99. *)
Lemma C2_witness :
  simulateGameProgress isoDateMs Demo.world_ok Demo.atl_loaded
  = (Demo.after_ok, Success Demo.result_g2, Demo.events_ok)
  ∧ ∃ i e,
      currentIndex (schedule (cachedViews Demo.after_ok)) = Z.of_nat i
      ∧ games (schedule (cachedViews Demo.after_ok)) !! i = Some e
      ∧ result_for_user_team e = Some "W".
Proof.
  assert (Hrun : simulateGameProgress isoDateMs Demo.world_ok Demo.atl_loaded
                 = (Demo.after_ok, Success Demo.result_g2, Demo.events_ok))
    by (vm_compute; reflexivity).
  split; [exact Hrun|].
  destruct (C2_result_written_cursor_moves_on_next_lookup isoDateMs
              Demo.world_ok Demo.atl_loaded Demo.after_ok Demo.result_g2
              Demo.events_ok Hrun)
    as (i & e & Hc & He & Hid & Hhs & Hvs & _ & _ & Hres & _).
  exists i, e. split_and!; [exact Hc|exact He|].
  apply Hres.
  assert (Hi : i = 1%nat) by (apply Nat2Z.inj; rewrite <- Hc; reflexivity).
  subst i. vm_compute in He. injection He as <-. vm_compute. reflexivity.
Defined.

(** C2, counterexample to the claim as worded: after Atlanta's game of 25
    October is applied the cursor is still 1, the index of that game, which
    now has scores; the next game without scores is at index 2. *)
Lemma C2_cursor_not_advanced_counterexample :
  ∃ s' evs,
    simulateGameProgress isoDateMs Demo.world_ok Demo.atl_loaded
    = (s', Success Demo.result_g2, evs)
    ∧ currentIndex (schedule (cachedViews s')) = 1
    ∧ (∃ e, game_at (games (schedule (cachedViews s'))) 1 = Some e
            ∧ home_score e = Some 99 ∧ away_score e = Some 101)
    ∧ (∃ e, game_at (games (schedule (cachedViews s'))) 2 = Some e
            ∧ unplayed e = true)
    ∧ currentIndex (schedule (cachedViews s')) ≠ 2.
Proof.
  exists Demo.after_ok, Demo.events_ok. split_and!.
  - vm_compute. reflexivity.
  - reflexivity.
  - eexists. split_and!; reflexivity.
  - eexists. split_and!; reflexivity.
  - by vm_compute.
Qed.

(** C10. When an advance succeeds, the entry it played has
    [result_for_user_team] equal to "W" or to "L", never null, and that is
    the result returned. The scores written are those of the simulator's
    [final_score] map, a team missing from the map (or a missing map)
    counting for 0. Equal scores give "L". The result block itself has no
    failing path: on any answer of the simulator, ties included, it ends
    with the success object. *)
Theorem C10_result_is_W_or_L
    D (w : World) (s s' : AppState) (r : GameResult) (evs : list Event) :
  simulateGameProgress D w s = (s', Success r, evs) →
  (∃ d e,
     sim_resp w = RespOk d
     ∧ game_at (games (schedule (cachedViews s')))
         (currentIndex (schedule (cachedViews s'))) = Some e
     ∧ home_score e = Some (score_of d (home_team_id e))
     ∧ away_score e = Some (score_of d (away_team_id e))
     ∧ r_home_score r = score_of d (home_team_id e)
     ∧ r_away_score r = score_of d (away_team_id e)
     ∧ (result_for_user_team e = Some "W" ∨ result_for_user_team e = Some "L")
     ∧ r_result_for_user_team r = result_for_user_team e
     ∧ (score_of d (home_team_id e) = score_of d (away_team_id e) →
        result_for_user_team e = Some "L"))
  ∧ (∀ d tid, default ∅ (final_score d) !! tid = None → score_of d tid = 0)
  ∧ (∀ u h a g d s6, ∃ r', snd (fst (apply_result u h a g d s6)) = Success r').
Proof.
  intros Hsim. split_and!.
  - apply simulateGameProgress_success in Hsim
      as (s6 & g & d & before & started & Hresp & Happly & _ & _ & _ & Hcur).
    destruct Hcur as (i & Hci & Hgi & Hu & Hmin).
    apply apply_result_facts in Happly
      as (Hsch & _ & Hhs & Hvs & Hres & _).
    rewrite !score_of_stub, !team_or_stub_id in *.
    set (f := with_result _ _ _) in Hsch.
    destruct (write_next_game_at f _ i g Hci Hgi) as (Wc & Wi & _).
    rewrite <- Hsch in Wc, Wi.
    exists d, (f g). split_and!; try done.
    + unfold game_at. rewrite Wc.
      destruct (Z.ltb_spec (Z.of_nat i) 0); [lia|]. by rewrite Nat2Z.id.
    + unfold f. simpl.
      destruct (result_label_cases
        (if bool_decide (t_id (user_team s) = home_team_id g)
         then score_of d (home_team_id g) else score_of d (away_team_id g))
        (if bool_decide (t_id (user_team s) = home_team_id g)
         then score_of d (away_team_id g) else score_of d (home_team_id g)))
        as [-> | ->]; auto.
    + unfold f. simpl. intros ->. unfold result_label.
      destruct (bool_decide _); by rewrite Z.gtb_ltb, Z.ltb_irrefl.
  - intros d tid H. unfold score_of. by rewrite H.
  - intros u h a g d s6. eexists. reflexivity.
Qed.

(** C10, witness: the simulator answers without a score for either team;
    both count for 0 and Atlanta's game is recorded as lost. *)
Lemma C10_witness :
  simulateGameProgress isoDateMs Demo.world_no_scores Demo.atl_loaded
  = (Demo.after_no_scores, Success Demo.result_g2_tie, Demo.events_no_scores)
  ∧ ∃ e,
      game_at (games (schedule (cachedViews Demo.after_no_scores)))
        (currentIndex (schedule (cachedViews Demo.after_no_scores))) = Some e
      ∧ home_score e = Some 0 ∧ away_score e = Some 0
      ∧ result_for_user_team e = Some "L".
Proof.
  assert (Hrun : simulateGameProgress isoDateMs Demo.world_no_scores
                   Demo.atl_loaded
                 = (Demo.after_no_scores, Success Demo.result_g2_tie,
                    Demo.events_no_scores))
    by (vm_compute; reflexivity).
  split; [exact Hrun|].
  destruct (C10_result_is_W_or_L isoDateMs Demo.world_no_scores
              Demo.atl_loaded Demo.after_no_scores Demo.result_g2_tie
              Demo.events_no_scores Hrun)
    as ((d & e & Hd & He & Hhs & Hvs & Hrh & Hrv & _ & _ & Htie) & _ & _).
  change (0 = score_of d (home_team_id e)) in Hrh.
  change (0 = score_of d (away_team_id e)) in Hrv.
  exists e. split_and!; [exact He|congruence|congruence|].
  apply Htie. congruence.
Defined.

(** C5 (as amended). When the simulate-game call is rejected or fails in
    transport the advance does not return the success object: it returns
    [false] after an alert (or the season-over result when there was no
    game to play). Nothing that the result block writes has changed: turn
    counter, latest turn id, news, the stats, standings, teams and weekly
    news views; and an already loaded schedule has the same entries and the
    same current date. The writes of the earlier steps stay: the cursor,
    a schedule load, the league games merged into the recent scores, a
    default tactics profile. *)
Theorem C5_failed_simulation_applies_nothing
    D (w : World) (s s' : AppState) (out : Outcome) (evs : list Event) :
  sim_failed w →
  simulateGameProgress D w s = (s', out, evs) →
  (out = ReturnedFalse ∨ out = Failure "no-more-regular-season")
  ∧ (out = ReturnedFalse →
     ∃ pre m, evs = pre ++ [Alert m]
              ∧ (m = AlertEngineException
                 ∨ ∃ t, m = AlertEngineCallFailed t
                        ∧ sim_resp w = RespNotOk t))
  ∧ applied_part s' = applied_part s
  ∧ apiKey s' = apiKey s
  ∧ selectedTeam s' = selectedTeam s
  ∧ (games (schedule (cachedViews s)) ≠ [] →
     games (schedule (cachedViews s')) = games (schedule (cachedViews s))
     ∧ currentDate s' = currentDate s).
Proof.
  intros Hfail Hsim.
  assert (Hout : ∀ r, out ≠ Success r).
  { intros r ->. apply simulateGameProgress_success in Hsim
      as (? & ? & d & ? & ? & Hresp & _).
    destruct Hfail as [[t Ht]|Ht]; congruence. }
  destruct (simulateGameProgress_not_applied D w s s' out evs Hsim Hout)
    as ((Ha & Hk & Ht) & Hg).
  split_and!; try done.
  - revert Hsim. rewrite simulateGameProgress_stages.
    destruct (getNextScheduledGame _) as [s3 [g|]].
    + cbv zeta. destruct (stage_tactics _ _ _ _ _) as [s6 [[h a]|]].
      * destruct (sim_resp w); intros [= <- <- <-]; auto.
        exfalso. by eapply Hout.
      * intros [= <- <- <-]. auto.
    + intros [= <- <- <-]. auto.
  - revert Hsim. rewrite simulateGameProgress_stages.
    destruct (getNextScheduledGame _) as [s3 [g|]].
    + cbv zeta. destruct (stage_tactics _ _ _ _ _) as [s6 [[h a]|]].
      * destruct (sim_resp w) as [d|t|] eqn:Hr; intros [= <- <- <-] _.
        -- exfalso. by eapply Hout.
        -- exists ((snd (stage_load w s) ++ [league_request g (user_team s)])
                   ++ [sim_request g h a]), (AlertEngineCallFailed t).
           split; [by rewrite <- !app_assoc|]. right. by exists t.
        -- exists ((snd (stage_load w s) ++ [league_request g (user_team s)])
                   ++ [sim_request g h a]), AlertEngineException.
           split; [by rewrite <- !app_assoc|]. by left.
      * intros [= <- <- <-] _.
        exists (snd (stage_load w s) ++ [league_request g (user_team s)]),
          AlertEngineException.
        split; [done|]. by left.
    + intros [= <- <- <-] [=].
Qed.

(** C5, witness: the simulator rejects Atlanta's game of 25 October. *)
Lemma C5_witness :
  sim_failed Demo.world_rejected
  ∧ simulateGameProgress isoDateMs Demo.world_rejected Demo.atl_loaded
    = (Demo.after_rejected, ReturnedFalse, Demo.events_rejected)
  ∧ applied_part Demo.after_rejected = applied_part Demo.atl_loaded
  ∧ games (schedule (cachedViews Demo.after_rejected))
    = games (schedule (cachedViews Demo.atl_loaded)).
Proof.
  assert (Hf : sim_failed Demo.world_rejected) by (left; by eexists).
  assert (Hrun : simulateGameProgress isoDateMs Demo.world_rejected
                   Demo.atl_loaded
                 = (Demo.after_rejected, ReturnedFalse, Demo.events_rejected))
    by (vm_compute; reflexivity).
  destruct (C5_failed_simulation_applies_nothing isoDateMs
              Demo.world_rejected Demo.atl_loaded Demo.after_rejected
              ReturnedFalse Demo.events_rejected Hf Hrun)
    as (Hout & _ & Happ & _ & _ & Hg).
  split_and!; [exact Hf|exact Hrun|exact Happ|].
  apply Hg. by vm_compute.
Defined.

(** C5, counterexample to the claim as worded: the simulator rejects the
    game, the advance alerts and returns [false], and the recent-scores view
    has nevertheless changed: it holds the league game merged before the
    call and its latest date has moved. *)
Lemma C5_scores_changed_counterexample :
  ∃ s' evs,
    sim_resp Demo.world_rejected = RespNotOk "engine down"
    ∧ simulateGameProgress isoDateMs Demo.world_rejected Demo.atl_loaded
      = (s', ReturnedFalse, evs)
    ∧ Alert (AlertEngineCallFailed "engine down") ∈ evs
    ∧ length (scores_games (scores (cachedViews Demo.atl_loaded))) = 1%nat
    ∧ length (scores_games (scores (cachedViews s'))) = 2%nat
    ∧ latest_date (scores (cachedViews Demo.atl_loaded)) = Some "2025-10-21"
    ∧ latest_date (scores (cachedViews s')) = Some "2025-10-24"
    ∧ cachedViews s' ≠ cachedViews Demo.atl_loaded.
Proof.
  exists Demo.after_rejected, Demo.events_rejected.
  split_and!; [reflexivity|vm_compute; reflexivity| |reflexivity..|].
  - unfold Demo.events_rejected. rewrite !elem_of_cons. auto.
  - intros H. apply (f_equal (fun cv => latest_date (scores cv))) in H.
    by vm_compute in H.
Qed.

(** ** ViewCache *)

Lemma marker_or_truthy x now : str_truthy (marker_or x now) = true.
Proof.
  unfold marker_or, str_or. destruct x as [v|]; [|apply iso_truthy].
  destruct (str_truthy v) eqn:Hv; [done|apply iso_truthy].
Qed.

(** The teams accessor looks at the list, not at the marker: with a list
    already there, a null marker does not make it fetch. *)
Lemma loadTeamsListIfNeeded_ignores_marker resp now (s : AppState) :
  teams_list (teams (cachedViews s)) ≠ [] →
  loadTeamsListIfNeeded false resp now s = (s, []).
Proof.
  intros Hne. unfold loadTeamsListIfNeeded, teams_fetches.
  destruct (teams_list (teams (cachedViews s))); [done|]. done.
Qed.

Lemma teams_list_kept_by_advance D (w : World) (s s' : AppState) r evs :
  simulateGameProgress D w s = (s', Success r, evs) →
  teams_list (teams (cachedViews s')) = teams_list (teams (cachedViews s))
  ∧ teams_lastLoaded (teams (cachedViews s')) = None.
Proof.
  intros Hsim. apply simulateGameProgress_success in Hsim
    as (s6 & g & d & before & started & _ & Happly & _ & _ & (Ha & _) & _).
  apply apply_result_facts in Happly
    as (_ & _ & _ & _ & _ & _ & _ & _ & _ & _ & Ht & _).
  rewrite Ht. simpl. split; [|done].
  unfold applied_part in Ha. by injection Ha as _ _ _ _ _ -> _.
Qed.












(** The teams view after a game: the marker is null, the list of the
    earlier load is still there, and the accessor does not fetch. *)
Lemma teams_not_refetched_after_game :
  ∃ s' evs,
    simulateGameProgress isoDateMs Demo.world_ok Demo.atl_viewed
    = (s', Success Demo.result_g2, evs)
    ∧ teams_lastLoaded (teams (cachedViews s')) = None
    ∧ teams_list (teams (cachedViews s')) = [JData "{}"]
    ∧ ∀ resp now, loadTeamsListIfNeeded false resp now s' = (s', []).
Proof.
  exists Demo.after_viewed, Demo.events_viewed.
  split_and!; [vm_compute; reflexivity|reflexivity..|].
  intros resp now. by apply loadTeamsListIfNeeded_ignores_marker.
Qed.

(** * Further properties of the engine *)

(** ** ScheduleStore: lookups *)

(** X1. A second lookup of the next game answers as the first one did and
    changes nothing more: the lookup writes the cursor only, and only the
    first time. *)
Theorem X1_getNextScheduledGame_idempotent (s : AppState) :
  getNextScheduledGame (fst (getNextScheduledGame s)) = getNextScheduledGame s
  ∧ games (schedule (cachedViews (fst (getNextScheduledGame s))))
    = games (schedule (cachedViews s))
  ∧ teamId (schedule (cachedViews (fst (getNextScheduledGame s))))
    = teamId (schedule (cachedViews s))
  ∧ scores (cachedViews (fst (getNextScheduledGame s))) = scores (cachedViews s)
  ∧ same_applied (fst (getNextScheduledGame s)) s.
Proof.
  destruct (getNextScheduledGame s) as [s' [g|]] eqn:H.
  - pose proof H as H'.
    apply getNextScheduledGame_Some in H' as (i & -> & Hi & Hu & Hmin).
    split_and!; try done.
    revert H. unfold getNextScheduledGame. cbn [fst].
    change (games (schedule (cachedViews
              (upd_schedule (set_currentIndex (Z.of_nat i)) s))))
      with (games (schedule (cachedViews s))).
    destruct (games (schedule (cachedViews s))) as [|x l]; [done|].
    destruct (next_unplayed 0 (x :: l)) as [[k g']|]; [|done].
    intros [= -> <-]. reflexivity.
  - apply getNextScheduledGame_None in H as [-> Hall].
    split_and!; try done.
    unfold getNextScheduledGame. cbn [fst].
    destruct (games (schedule (cachedViews s))) as [|x l]; [done|].
    destruct (next_unplayed 0 (x :: l)) as [[k g']|] eqn:Hn; [|done].
    apply next_unplayed_Some in Hn as (n & _ & Hn & Hu & _).
    rewrite (Hall g') in Hu; [done|]. by eapply list_elem_of_lookup_2.
Qed.

Lemma upd_schedule_cursor_id (s : AppState) i :
  currentIndex (schedule (cachedViews s)) = i →
  upd_schedule (set_currentIndex i) s = s.
Proof.
  destruct s as [? ? ? ? [? ? [? ? ?] ? ? ? ? ?] ? ? ? ? ? ? ?]. simpl.
  by intros ->.
Qed.

Lemma generateSeasonSchedule_ok_schedule tid data (s : AppState) :
  already_loaded tid (schedule (cachedViews s)) = false →
  schedule (cachedViews (fst (generateSeasonSchedule tid (RespOk data) s)))
  = {| teamId := Some tid;
       games := copy_entry <$> default [] (sd_games data);
       currentIndex := loaded_cursor (copy_entry <$> default [] (sd_games data)) |}.
Proof.
  intros Hl. unfold generateSeasonSchedule. rewrite Hl. simpl.
  destruct (copy_entry <$> default [] (sd_games data)); done.
Qed.

(** The lookup agrees with the cursor set at load time. *)
Lemma next_unplayed_loaded_cursor (l : list ScheduleEntry) i g :
  next_unplayed 0 l = Some (i, g) →
  loaded_cursor l = i ∧ game_at l i = Some g.
Proof.
  intros H. apply next_unplayed_Some in H as (n & -> & Hn & Hu & Hmin).
  rewrite Z.add_0_l. unfold loaded_cursor.
  rewrite (proj2 (findIndex_unplayed_Some l n)) by eauto.
  split; [done|]. unfold game_at.
  destruct (Z.ltb_spec (Z.of_nat n) 0); [lia|]. by rewrite Nat2Z.id.
Qed.

(** X2. Right after a successful load the lookup of the next game finds
    the entry at the cursor and leaves the state as it is; when every entry
    has scores it answers [null]. On a fresh season (no entry played) the
    cursor is 0 and the game found is the first entry. *)
Theorem X2_lookup_after_load
    (tid : string) (data : ScheduleData) (s : AppState) :
  already_loaded tid (schedule (cachedViews s)) = false →
  let s' := fst (generateSeasonSchedule tid (RespOk data) s) in
  let sch := schedule (cachedViews s') in
  fst (getNextScheduledGame s') = s'
  ∧ ((∃ g, g ∈ games sch ∧ unplayed g = true) →
     is_Some (snd (getNextScheduledGame s'))
     ∧ snd (getNextScheduledGame s') = game_at (games sch) (currentIndex sch))
  ∧ ((∀ g, g ∈ games sch → unplayed g = false) →
     snd (getNextScheduledGame s') = None)
  ∧ (games sch ≠ [] → (∀ g, g ∈ games sch → unplayed g = true) →
     currentIndex sch = 0 ∧ snd (getNextScheduledGame s') = head (games sch)).
Proof.
  intros Hl s' sch.
  pose proof (generateSeasonSchedule_ok_schedule tid data s Hl) as Hsch.
  fold s' in Hsch. fold sch in Hsch.
  set (gs := copy_entry <$> default [] (sd_games data)) in Hsch.
  assert (Hg : games sch = gs) by (by rewrite Hsch).
  assert (Hc : currentIndex sch = loaded_cursor gs) by (by rewrite Hsch).
  assert (Hcases :
    (∃ i g, next_unplayed 0 gs = Some (i, g)
            ∧ getNextScheduledGame s' = (s', Some g)
            ∧ currentIndex sch = i ∧ game_at gs i = Some g)
    ∨ (next_unplayed 0 gs = None ∧ getNextScheduledGame s' = (s', None))).
  { unfold getNextScheduledGame. fold sch. rewrite Hg.
    destruct (next_unplayed 0 gs) as [[i g]|] eqn:Hn.
    - left. exists i, g.
      destruct (next_unplayed_loaded_cursor gs i g Hn) as [Hi Hgi].
      rewrite upd_schedule_cursor_id by (fold sch; congruence).
      destruct gs; [done|]. split_and!; (done || congruence).
    - right. by destruct gs. }
  rewrite Hg. split_and!.
  - destruct Hcases as [(i & g & _ & -> & _)|[_ ->]]; done.
  - intros (g & Hin & Hu).
    destruct Hcases as [(i & g' & _ & -> & <- & ->)|[Hn _]]; [by eauto|].
    rewrite (next_unplayed_None gs 0 Hn g Hin) in Hu. done.
  - intros Hall.
    destruct Hcases as [(i & g & Hn & _)|[_ ->]]; [|done].
    apply next_unplayed_Some in Hn as (n & _ & Hn & Hu & _).
    rewrite (Hall g) in Hu; [done|]. by eapply list_elem_of_lookup_2.
  - intros Hne Hall. destruct gs as [|g0 rest] eqn:Hgs; [done|].
    assert (Hu0 : unplayed g0 = true) by (apply Hall, elem_of_cons; by left).
    destruct Hcases as [(i & g & Hn & -> & <- & _)|[Hn _]].
    + simpl in Hn. rewrite Hu0 in Hn. injection Hn as <- <-.
      split; [congruence|done].
    + simpl in Hn. by rewrite Hu0 in Hn.
Qed.

(** X2, witness: Atlanta's schedule; the lookup finds the game of the 25th
    at the cursor. *)
Lemma X2_witness :
  already_loaded "ATL" (schedule (cachedViews Demo.atl_selected)) = false
  ∧ getNextScheduledGame Demo.atl_loaded
    = (Demo.atl_loaded,
       Some (Demo.entry "g2" "2025-10-25" "CHI" "ATL" None None None)).
Proof.
  pose proof (X2_lookup_after_load "ATL" {| sd_games := Some Demo.atl_games |}
                Demo.atl_selected eq_refl) as (Hst & Hsome & _ & _).
  split; [reflexivity|].
  change (fst (generateSeasonSchedule "ATL"
                 (RespOk {| sd_games := Some Demo.atl_games |})
                 Demo.atl_selected)) with Demo.atl_loaded in Hst, Hsome.
  destruct Hsome as [_ Hsnd].
  { exists (Demo.entry "g2" "2025-10-25" "CHI" "ATL" None None None).
    split; [|reflexivity]. apply list_elem_of_In. vm_compute. auto. }
  destruct (getNextScheduledGame Demo.atl_loaded) as [st g].
  simpl in Hst, Hsnd. subst st. rewrite Hsnd. reflexivity.
Defined.

(** ** ScheduleStore: the recent games seeded at load time *)










(** ** GameOrchestrator: what one advance does *)

Lemma merge_league_games sims (sc : Scores) :
  scores_games (merge_league sims sc)
  = rev (Decided ∘ league_record <$> sims) ++ scores_games sc.
Proof.
  unfold merge_league. cbn [scores_games].
  generalize (scores_games sc) as acc.
  induction sims as [|g sims IH]; intros acc; [done|].
  simpl. rewrite IH, <- app_assoc. done.
Qed.

Lemma stage_league_scores w (s : AppState) :
  scores_games (scores (cachedViews (stage_league w s)))
  = rev (Decided ∘ league_record <$> league_games w)
    ++ scores_games (scores (cachedViews s)).
Proof.
  unfold stage_league, league_games.
  destruct (league_resp w); [|done..].
  apply merge_league_games.
Qed.

Lemma remaining_after_write f (l : list ScheduleEntry) i g :
  l !! i = Some g → unplayed g = true → unplayed (f g) = false →
  length (List.filter unplayed l)
  = S (length (List.filter unplayed (alter f i l))).
Proof.
  revert i. induction l as [|x l IH]; intros [|i] Hi Hu Hf; try done.
  - injection Hi as ->. simpl. by rewrite Hu, Hf.
  - simpl in *. destruct (unplayed x); simpl; by rewrite (IH i).
Qed.

(** An advance on a schedule that is already loaded, up to the call of the
    simulator. *)
Lemma advance_loaded D (w : World) (s s' : AppState) out evs :
  games (schedule (cachedViews s)) ≠ [] →
  simulateGameProgress D w s = (s', out, evs) →
  (out = Failure "no-more-regular-season"
   ∧ (∀ g, g ∈ games (schedule (cachedViews s)) → unplayed g = false)
   ∧ (s', evs) = season_over w (fst (stage_load w s)))
  ∨ ∃ i g s6 tac,
      games (schedule (cachedViews s)) !! i = Some g
      ∧ unplayed g = true
      ∧ (∀ j h, (j < i)%nat → games (schedule (cachedViews s)) !! j = Some h →
                unplayed h = false)
      ∧ stage_tactics (home_team_id g) (away_team_id g) 0 0
          (stage_league w
             (upd_schedule (set_currentIndex (Z.of_nat i)) (fst (stage_load w s))))
        = (s6, tac)
      ∧ match tac with
        | None => (s', out, evs)
                  = (s6, ReturnedFalse,
                     [league_request g (user_team s); Alert AlertEngineException])
        | Some (h, a) =>
            match sim_resp w with
            | RespNotOk msg =>
                (s', out, evs)
                = (s6, ReturnedFalse,
                   [league_request g (user_team s); sim_request g h a;
                    Alert (AlertEngineCallFailed msg)])
            | RespThrow =>
                (s', out, evs)
                = (s6, ReturnedFalse,
                   [league_request g (user_team s); sim_request g h a;
                    Alert AlertEngineException])
            | RespOk d =>
                ∃ started res,
                  apply_result (user_team s) (team_or_stub (home_team_id g))
                    (team_or_stub (away_team_id g)) g d s6
                  = (s', res, started)
                  ∧ out = res
                  ∧ evs = [league_request g (user_team s); sim_request g h a]
                          ++ started
            end
        end.
Proof.
  intros Hne. rewrite simulateGameProgress_stages.
  destruct (stage_load_loaded w s Hne) as (Hg & _ & _ & _ & Hev).
  rewrite Hev. cbn [app].
  destruct (getNextScheduledGame (fst (stage_load w s))) as [s3 [g|]] eqn:Hnext.
  - apply getNextScheduledGame_Some in Hnext as (i & -> & Hi & Hu & Hmin).
    rewrite Hg in Hi, Hmin. cbv zeta. rewrite !team_or_stub_id.
    destruct (stage_tactics _ _ _ _ _) as [s6 [[h a]|]] eqn:Htac.
    + intros H. right. exists i, g, s6, (Some (h, a)). split_and!; try done.
      destruct (sim_resp w) as [d| |]; try done.
      destruct (apply_result _ _ _ g d s6) as [[sa oa] ea] eqn:Happly.
      cbn [fst snd] in H. injection H as <- <- <-.
      exists ea, oa. done.
    + intros H. right. exists i, g, s6, None. done.
  - apply getNextScheduledGame_None in Hnext as [-> Hall].
    rewrite Hg in Hall. intros [= <- <- <-]. left.
    by destruct (season_over w (fst (stage_load w s))).
Qed.

(** What the steps before the simulator leave of a loaded schedule and of
    the recent scores. *)
Lemma before_simulation_loaded (w : World) (s s6 : AppState) i hid aid tac :
  games (schedule (cachedViews s)) ≠ [] →
  stage_tactics hid aid 0 0
    (stage_league w
       (upd_schedule (set_currentIndex (Z.of_nat i)) (fst (stage_load w s))))
  = (s6, tac) →
  games (schedule (cachedViews s6)) = games (schedule (cachedViews s))
  ∧ currentIndex (schedule (cachedViews s6)) = Z.of_nat i
  ∧ scores_games (scores (cachedViews s6))
    = rev (Decided ∘ league_record <$> league_games w)
      ++ scores_games (scores (cachedViews s))
  ∧ same_applied s6 s.
Proof.
  intros Hne Htac.
  destruct (stage_load_loaded w s Hne) as (Hg & _ & Hsc & _ & _).
  pose proof (stage_load_same_applied w s) as Hload.
  set (s3 := upd_schedule _ _) in Htac.
  pose proof (stage_league_frame w s3) as (L1 & L2 & _).
  pose proof (stage_league_scores w s3) as L3.
  pose proof (stage_tactics_frame hid aid 0 0 (stage_league w s3))
    as (T1 & T2 & _).
  rewrite Htac in T1, T2. cbn [fst] in T1, T2.
  rewrite T2. split_and!.
  - rewrite L2. unfold s3. cbn. exact Hg.
  - rewrite L2. reflexivity.
  - rewrite L3. unfold s3. cbn. by rewrite Hsc.
  - eapply same_applied_trans; [exact T1|].
    eapply same_applied_trans; [exact L1|]. exact Hload.
Qed.

Lemma advance_plays_one
    D (w : World) (s s' : AppState) (r : GameResult) (evs : list Event) :
  games (schedule (cachedViews s)) ≠ [] →
  simulateGameProgress D w s = (s', Success r, evs) →
  ∃ i f,
    games (schedule (cachedViews s')) = alter f i (games (schedule (cachedViews s)))
    ∧ remaining_games s = S (remaining_games s').
Proof.
  intros Hne Hsim.
  destruct (advance_loaded D w s s' _ evs Hne Hsim)
    as [(Hout & _)|(i & g & s6 & tac & Hi & Hu & Hmin & Htac & Hrest)];
    [done|].
  destruct (before_simulation_loaded w s s6 i _ _ tac Hne Htac)
    as (Hg6 & Hc6 & Hsc6 & (Happ & _)).
  destruct tac as [[h a]|]; [|by injection Hrest].
  destruct (sim_resp w) as [d| |]; [|by injection Hrest..].
  destruct Hrest as (started & res & Happly & <- & ->).
  unfold apply_result in Happly. injection Happly as <- <- _.
  exists i. eexists. unfold remaining_games.
  cbn -[pretty alter]. unfold write_next_game. cbn -[pretty alter].
  rewrite Hc6, Nat2Z.id, Hg6.
  split; [reflexivity|]. by apply (remaining_after_write _ _ i g).
Qed.

(** X4. A successful advance on a loaded schedule plays exactly one game:
    the first entry without scores receives its scores and no other entry
    changes, so one game fewer remains. The turn counter grows by one and
    names the latest turn, the current date becomes the date of the game,
    one news item is added, and the recent scores get the game at their
    front, before the league games of the catch-up (latest first) and the
    older ones. *)
Theorem X4_one_game_per_advance
    D (w : World) (s s' : AppState) (r : GameResult) (evs : list Event) :
  games (schedule (cachedViews s)) ≠ [] →
  simulateGameProgress D w s = (s', Success r, evs) →
  ∃ i g,
    games (schedule (cachedViews s)) !! i = Some g
    ∧ unplayed g = true
    ∧ (∀ j h, (j < i)%nat → games (schedule (cachedViews s)) !! j = Some h →
              unplayed h = false)
    ∧ r_game_id r = game_id g
    ∧ games (schedule (cachedViews s'))
      = alter (with_result (r_home_score r) (r_away_score r)
                 (default "" (r_result_for_user_team r))) i
          (games (schedule (cachedViews s)))
    ∧ remaining_games s = S (remaining_games s')
    ∧ progressTurns s' = progressTurns s + 1
    ∧ last_progress_turn_id (cachedViews s')
      = Some ("turn_" +:+ pretty (progressTurns s + 1))
    ∧ currentDate s' = Some (date g)
    ∧ latest_date (scores (cachedViews s')) = Some (date g)
    ∧ scores_games (scores (cachedViews s'))
      = Decided (log_entry r)
        :: rev (Decided ∘ league_record <$> league_games w)
        ++ scores_games (scores (cachedViews s))
    ∧ length (news (cachedViews s')) = S (length (news (cachedViews s))).
Proof.
  intros Hne Hsim.
  destruct (advance_loaded D w s s' _ evs Hne Hsim)
    as [(Hout & _)|(i & g & s6 & tac & Hi & Hu & Hmin & Htac & Hrest)];
    [done|].
  destruct (before_simulation_loaded w s s6 i _ _ tac Hne Htac)
    as (Hg6 & Hc6 & Hsc6 & (Happ & _)).
  destruct tac as [[h a]|]; [|by injection Hrest].
  destruct (sim_resp w) as [d| |]; [|by injection Hrest..].
  destruct Hrest as (started & res & Happly & <- & ->).
  unfold applied_part in Happ. injection Happ as Hturn _ Hnews _ _ _ _.
  unfold apply_result in Happly. injection Happly as <- <- _.
  exists i, g. unfold remaining_games.
  cbn -[pretty alter]. unfold write_next_game. cbn -[pretty alter].
  rewrite Hc6, Nat2Z.id, Hg6, Hsc6, Hturn, Hnews.
  split_and!; try done.
  by apply (remaining_after_write _ _ i g).
Qed.

(** X4, witness: Atlanta's game of 25 October. *)
Lemma X4_witness :
  games (schedule (cachedViews Demo.atl_loaded)) ≠ []
  ∧ simulateGameProgress isoDateMs Demo.world_ok Demo.atl_loaded
    = (Demo.after_ok, Success Demo.result_g2, Demo.events_ok)
  ∧ remaining_games Demo.atl_loaded = S (remaining_games Demo.after_ok)
  ∧ progressTurns Demo.after_ok = 1.
Proof.
  assert (Hne : games (schedule (cachedViews Demo.atl_loaded)) ≠ [])
    by (by vm_compute).
  assert (Hrun : simulateGameProgress isoDateMs Demo.world_ok Demo.atl_loaded
                 = (Demo.after_ok, Success Demo.result_g2, Demo.events_ok))
    by (vm_compute; reflexivity).
  destruct (X4_one_game_per_advance isoDateMs Demo.world_ok Demo.atl_loaded
              Demo.after_ok Demo.result_g2 Demo.events_ok Hne Hrun)
    as (i & g & _ & _ & _ & _ & _ & Hrem & Hturn & _).
  split_and!; [exact Hne|exact Hrun|exact Hrem|exact Hturn].
Defined.

Lemma season_over_events w (s : AppState) :
  ∃ rest,
    snd (season_over w s) = [Alert AlertNoGamesLeft; Alert AlertSeasonWrapUp] ++ rest
    ∧ (∀ e, e ∈ rest → is_request e = true →
         ∃ k u, apiKey s = Some k ∧ str_truthy k = true
                ∧ selectedTeam s = Some u ∧ homeLLMOutput w = true
                ∧ e = Post "/api/season-report" (BodyReport k (t_id u)))
    ∧ (∀ k u, apiKey s = Some k → str_truthy k = true →
         selectedTeam s = Some u → homeLLMOutput w = true →
         Post "/api/season-report" (BodyReport k (t_id u)) ∈ rest).
Proof.
  unfold season_over.
  destruct (apiKey s) as [k|] eqn:Hk;
    [|exists []; split_and!; [done|by intros ? ?%elem_of_nil|done]].
  destruct (selectedTeam s) as [u|] eqn:Hu;
    [|exists []; split_and!; [done|by intros ? ?%elem_of_nil|done]].
  destruct (str_truthy k) eqn:Htr; simpl;
    [|exists []; split_and!; [done|by intros ? ?%elem_of_nil|]];
    [|by intros ? ? [= <-]; congruence].
  destruct (homeLLMOutput w) eqn:Hdom; simpl;
    [|exists []; split_and!; [done|by intros ? ?%elem_of_nil|done]].
  assert (Hreq : ∀ rest' e,
            e ∈ Post "/api/season-report" (BodyReport k (t_id u)) :: rest' →
            (∀ e', e' ∈ rest' → is_request e' = false) →
            is_request e = true →
            ∃ k0 u0, Some k = Some k0 ∧ str_truthy k0 = true
                     ∧ Some u = Some u0 ∧ true = true
                     ∧ e = Post "/api/season-report" (BodyReport k0 (t_id u0))).
  { intros rest' e [->|Hin]%elem_of_cons Hrest He; [by exists k, u|].
    rewrite (Hrest e Hin) in He. done. }
  destruct (report_resp w) as [d| |].
  - destruct (str_truthy (report_text d)); eexists [_]; (split_and!; [done| |]).
    + intros e Hin. apply (Hreq [] e Hin). by intros ? ?%elem_of_nil.
    + intros ? ? [= <-] _ [= <-] _. apply elem_of_cons. by left.
    + intros e Hin. apply (Hreq [] e Hin). by intros ? ?%elem_of_nil.
    + intros ? ? [= <-] _ [= <-] _. apply elem_of_cons. by left.
  - eexists [_; _]. split_and!; [done| |].
    + intros e Hin. apply (Hreq _ e Hin).
      by intros ? ->%list_elem_of_singleton.
    + intros ? ? [= <-] _ [= <-] _. apply elem_of_cons. by left.
  - eexists [_; _]. split_and!; [done| |].
    + intros e Hin. apply (Hreq _ e Hin).
      by intros ? ->%list_elem_of_singleton.
    + intros ? ? [= <-] _ [= <-] _. apply elem_of_cons. by left.
Qed.

Lemma advance_exhausted
    D (w : World) (s s' : AppState) (out : Outcome) (evs : list Event) :
  games (schedule (cachedViews s)) ≠ [] →
  (∀ g, g ∈ games (schedule (cachedViews s)) → unplayed g = false) →
  simulateGameProgress D w s = (s', out, evs) →
  out = Failure "no-more-regular-season"
  ∧ games (schedule (cachedViews s')) = games (schedule (cachedViews s)).
Proof.
  intros Hne Hall Hsim.
  destruct (advance_loaded D w s s' out evs Hne Hsim)
    as [(-> & _ & Hso)|(i & g & _ & _ & Hi & Hu & _)].
  2:{ rewrite (Hall g) in Hu; [done|]. by eapply list_elem_of_lookup_2. }
  destruct (stage_load_loaded w s Hne) as (Hg & _ & Hsc & _ & _).
  destruct (season_over_frame w (fst (stage_load w s))) as ((A & _) & B & _).
  assert (Hs' : s' = fst (season_over w (fst (stage_load w s))))
    by (by rewrite <- Hso).
  split; [done|]. by rewrite Hs', B.
Qed.

(** X5. When every game of a loaded schedule has scores, an advance answers
    with the reason "no-more-regular-season" after its two alerts, sends
    neither the league catch-up nor the simulator request, and leaves the
    cached views as they are apart from the schedule's team id. The only
    request it can send is the season report, and it sends it exactly when
    an API key, a selected team and the output element are there. *)
Theorem X5_season_over
    D (w : World) (s s' : AppState) (out : Outcome) (evs : list Event) :
  games (schedule (cachedViews s)) ≠ [] →
  (∀ g, g ∈ games (schedule (cachedViews s)) → unplayed g = false) →
  simulateGameProgress D w s = (s', out, evs) →
  out = Failure "no-more-regular-season"
  ∧ games (schedule (cachedViews s')) = games (schedule (cachedViews s))
  ∧ currentIndex (schedule (cachedViews s')) = currentIndex (schedule (cachedViews s))
  ∧ scores (cachedViews s') = scores (cachedViews s)
  ∧ applied_part s' = applied_part s
  ∧ ∃ rest,
      evs = [Alert AlertNoGamesLeft; Alert AlertSeasonWrapUp] ++ rest
      ∧ (∀ e, e ∈ rest → is_request e = true →
           ∃ k u, apiKey s = Some k ∧ str_truthy k = true
                  ∧ selectedTeam s = Some u ∧ homeLLMOutput w = true
                  ∧ e = Post "/api/season-report" (BodyReport k (t_id u)))
      ∧ (∀ k u, apiKey s = Some k → str_truthy k = true →
           selectedTeam s = Some u → homeLLMOutput w = true →
           Post "/api/season-report" (BodyReport k (t_id u)) ∈ rest).
Proof.
  intros Hne Hall Hsim.
  destruct (advance_loaded D w s s' out evs Hne Hsim)
    as [(-> & _ & Hso)|(i & g & _ & _ & Hi & Hu & _)].
  2:{ rewrite (Hall g) in Hu; [done|]. by eapply list_elem_of_lookup_2. }
  destruct (stage_load_loaded w s Hne) as (Hg & _ & Hsc & _ & _).
  destruct (stage_load_same_applied w s) as (Ha & Hk & Ht).
  destruct (season_over_frame w (fst (stage_load w s))) as ((A & _) & B & _).
  destruct (season_over_events w (fst (stage_load w s)))
    as (rest & Hev & Honly & Hsent).
  assert (Hs' : s' = fst (season_over w (fst (stage_load w s))))
    by (by rewrite <- Hso).
  assert (Hevs : evs = snd (season_over w (fst (stage_load w s))))
    by (by rewrite <- Hso).
  rewrite Hk, Ht in Honly, Hsent.
  split_and!; try done.
  - by rewrite Hs', B.
  - rewrite Hs', B. unfold stage_load.
    destruct (ostr_truthy _); cbn;
      destruct (games (schedule (cachedViews s))); done.
  - by rewrite Hs', B.
  - rewrite Hs'. congruence.
  - exists rest. by rewrite Hevs.
Qed.

(** X5, witness: Atlanta with an API key and both games played; the server
    does not answer the report request. *)
Lemma X5_witness :
  let s := Demo.with_key "key" (Demo.load Demo.all_played Demo.atl_selected) in
  games (schedule (cachedViews s)) ≠ []
  ∧ snd (fst (simulateGameProgress isoDateMs Demo.world_ok s))
    = Failure "no-more-regular-season"
  ∧ Post "/api/season-report" (BodyReport "key" "ATL")
    ∈ snd (simulateGameProgress isoDateMs Demo.world_ok s).
Proof.
  intros s.
  assert (Hne : games (schedule (cachedViews s)) ≠ []) by (by vm_compute).
  assert (Hall : ∀ g, g ∈ games (schedule (cachedViews s)) → unplayed g = false).
  { intros g Hg. apply list_elem_of_In in Hg. vm_compute in Hg.
    destruct Hg as [<-|[<-|[]]]; reflexivity. }
  destruct (X5_season_over isoDateMs Demo.world_ok s
              (fst (fst (simulateGameProgress isoDateMs Demo.world_ok s)))
              (snd (fst (simulateGameProgress isoDateMs Demo.world_ok s)))
              (snd (simulateGameProgress isoDateMs Demo.world_ok s))
              Hne Hall)
    as (Hout & _ & _ & _ & _ & rest & Hev & _ & Hsent).
  { by destruct (simulateGameProgress isoDateMs Demo.world_ok s) as [[? ?] ?]. }
  split_and!; [exact Hne|exact Hout|].
  rewrite Hev. apply elem_of_app. right.
  apply (Hsent "key" {| t_id := "ATL"; t_name := "Atlanta Hawks" |});
    reflexivity.
Defined.

(** X6. An advance on an empty schedule whose load finds no game (the
    request fails, is rejected, or answers an empty list) ends like the end
    of the season: after the schedule request it shows the season-over
    alerts and answers "no-more-regular-season"; the simulator and the
    league catch-up are not called and the schedule stays empty. *)
Theorem X6_failed_load_ends_as_season_over
    D (w : World) (s s' : AppState) (out : Outcome) (evs : list Event) :
  games (schedule (cachedViews s)) = [] →
  load_fails w →
  simulateGameProgress D w s = (s', out, evs) →
  out = Failure "no-more-regular-season"
  ∧ games (schedule (cachedViews s')) = []
  ∧ (∃ tid, head evs = Some (Fetch (schedule_url tid)))
  ∧ Alert AlertNoGamesLeft ∈ evs
  ∧ (∀ e, e ∈ evs → is_request e = true →
       (∃ tid, e = Fetch (schedule_url tid))
       ∨ (∃ k u, e = Post "/api/season-report" (BodyReport k u))).
Proof.
  intros Hempty Hfail. rewrite simulateGameProgress_stages.
  assert (Hload : ∃ tid a,
            games (schedule (cachedViews (fst (stage_load w s)))) = []
            ∧ snd (stage_load w s) = Fetch (schedule_url tid) :: a
            ∧ ∀ e, e ∈ a → is_request e = false).
  { unfold stage_load, generateSeasonSchedule, already_loaded.
    set (s1 := if ostr_truthy _ then s else _).
    assert (H1 : games (schedule (cachedViews s1)) = []).
    { unfold s1. destruct (ostr_truthy _); [done|]. cbn. done. }
    rewrite H1. rewrite (bool_decide_true ([] = [])) by done.
    rewrite andb_false_r. unfold load_fails in Hfail.
    exists (default "" (teamId (schedule (cachedViews s1)))).
    destruct (schedule_resp w) as [d| |].
    - rewrite Hfail. cbn. exists []. split_and!; [done..|].
      by intros ? ?%elem_of_nil.
    - eexists [_]. split_and!; [done..|].
      by intros ? ->%list_elem_of_singleton.
    - eexists [_]. split_and!; [done..|].
      by intros ? ->%list_elem_of_singleton. }
  destruct Hload as (tid & a & Hg & Hev & Ha).
  destruct (getNextScheduledGame (fst (stage_load w s))) as [s3 [g|]] eqn:Hnext.
  { apply getNextScheduledGame_Some in Hnext as (i & _ & Hi & _).
    rewrite Hg in Hi. done. }
  apply getNextScheduledGame_None in Hnext as [-> _].
  destruct (season_over_frame w (fst (stage_load w s))) as (_ & B & _).
  destruct (season_over_events w (fst (stage_load w s)))
    as (rest & Hso & Honly & _).
  intros [= <- <- <-]. rewrite Hev, Hso, B.
  split_and!; try done.
  - by exists tid.
  - rewrite !elem_of_app, !elem_of_cons. auto.
  - intros e Hin He.
    rewrite !elem_of_app in Hin. destruct Hin as [Hin|[Hin|Hin]].
    + apply elem_of_cons in Hin as [->|Hin]; [left; by exists tid|].
      rewrite (Ha e Hin) in He. done.
    + apply elem_of_cons in Hin as [->|Hin]; [done|].
      by apply list_elem_of_singleton in Hin as ->.
    + destruct (Honly e Hin He) as (k & u & _ & _ & _ & _ & ->). right.
      by exists k, (t_id u).
Qed.

(** X6, witness: Atlanta selected, nothing loaded, and the schedule request
    does not go through. *)
Lemma X6_witness :
  games (schedule (cachedViews Demo.atl_selected)) = []
  ∧ load_fails Demo.world_ok
  ∧ snd (fst (simulateGameProgress isoDateMs Demo.world_ok Demo.atl_selected))
    = Failure "no-more-regular-season".
Proof.
  destruct (X6_failed_load_ends_as_season_over isoDateMs Demo.world_ok
              Demo.atl_selected
              (fst (fst (simulateGameProgress isoDateMs Demo.world_ok
                           Demo.atl_selected)))
              (snd (fst (simulateGameProgress isoDateMs Demo.world_ok
                           Demo.atl_selected)))
              (snd (simulateGameProgress isoDateMs Demo.world_ok
                      Demo.atl_selected)) eq_refl I)
    as (Hout & _).
  { by destruct (simulateGameProgress isoDateMs Demo.world_ok Demo.atl_selected)
      as [[? ?] ?]. }
  split_and!; [reflexivity|exact I|exact Hout].
Defined.

Lemma upd_scores_eta (s : AppState) :
  upd_scores (fun _ => scores (cachedViews s)) s = s.
Proof. by destruct s as [? ? ? ? [? ? ? ? ? ? ? ?] ? ? ? ? ? ? ?]. Qed.

Lemma stage_league_as_scores w (s : AppState) :
  ∃ sc, stage_league w s = upd_scores (fun _ => sc) s.
Proof.
  unfold stage_league. destruct (league_resp w).
  - eexists. reflexivity.
  - exists (scores (cachedViews s)). by rewrite upd_scores_eta.
  - exists (scores (cachedViews s)). by rewrite upd_scores_eta.
Qed.

Lemma buildTacticsForTeam_scores tid f sc (s : AppState) :
  buildTacticsForTeam tid f (upd_scores (fun _ => sc) s)
  = (upd_scores (fun _ => sc) (fst (buildTacticsForTeam tid f s)),
     snd (buildTacticsForTeam tid f s)).
Proof.
  unfold buildTacticsForTeam, getOrCreateTacticsForTeam, isUserTeam.
  cbn [selectedTeam upd_scores set_cachedViews tacticsByTeam].
  destruct (selectedTeam s) as [u|]; [|done].
  destruct (bool_decide (t_id u = tid)); [|done].
  destruct (negb (str_truthy tid)); [done|].
  destruct (tacticsByTeam s !! tid); done.
Qed.

Lemma stage_tactics_scores hid aid fh fa sc (s : AppState) :
  stage_tactics hid aid fh fa (upd_scores (fun _ => sc) s)
  = (upd_scores (fun _ => sc) (fst (stage_tactics hid aid fh fa s)),
     snd (stage_tactics hid aid fh fa s)).
Proof.
  unfold stage_tactics. rewrite buildTacticsForTeam_scores.
  destruct (buildTacticsForTeam hid fh s) as [s5 [h|]]; [|done].
  cbn [fst snd]. rewrite buildTacticsForTeam_scores.
  destruct (buildTacticsForTeam aid fa s5) as [s6 [a|]]; done.
Qed.

(** X7. The league catch-up is best effort: whatever [/api/advance-league]
    answers, or fails to answer, the advance returns the same result, sends
    the same requests and leaves the same state outside the recent-scores
    view. *)
Theorem X7_league_answer_only_reaches_recent_scores
    D (w w' : World) (s : AppState) :
  schedule_resp w' = schedule_resp w →
  report_resp w' = report_resp w →
  sim_resp w' = sim_resp w →
  homeLLMOutput w' = homeLLMOutput w →
  snd (fst (simulateGameProgress D w' s)) = snd (fst (simulateGameProgress D w s))
  ∧ snd (simulateGameProgress D w' s) = snd (simulateGameProgress D w s)
  ∧ outside_scores (fst (fst (simulateGameProgress D w' s)))
    = outside_scores (fst (fst (simulateGameProgress D w s))).
Proof.
  intros Hsch Hrep Hsim Hdom. rewrite !simulateGameProgress_stages.
  assert (Hload : stage_load w' s = stage_load w s)
    by (unfold stage_load; by rewrite Hsch).
  assert (Hover : ∀ st, season_over w' st = season_over w st)
    by (intros st; unfold season_over; by rewrite Hrep, Hdom).
  rewrite Hload.
  destruct (getNextScheduledGame (fst (stage_load w s))) as [s3 [g|]];
    [|by rewrite Hover].
  cbv zeta.
  destruct (stage_league_as_scores w s3) as [sc ->].
  destruct (stage_league_as_scores w' s3) as [sc' ->].
  rewrite !stage_tactics_scores.
  destruct (stage_tactics _ _ _ _ s3) as [s6 [[h a]|]]; cbn [fst snd]; [|done].
  rewrite Hsim. destruct (sim_resp w); done.
Qed.

(** X7, witness: the same advance with the league call answered and with
    the league call failing. *)
Lemma X7_witness :
  snd (fst (simulateGameProgress isoDateMs
              (Demo.world RespThrow Demo.sim_ok) Demo.atl_loaded))
  = snd (fst (simulateGameProgress isoDateMs Demo.world_ok Demo.atl_loaded)).
Proof.
  apply (X7_league_answer_only_reaches_recent_scores isoDateMs Demo.world_ok
           (Demo.world RespThrow Demo.sim_ok) Demo.atl_loaded);
    reflexivity.
Defined.

Lemma side_payload_ext tid (a b : AppState) :
  selectedTeam a = selectedTeam b → tacticsByTeam a = tacticsByTeam b →
  side_payload tid a = side_payload tid b.
Proof. unfold side_payload, isUserTeam. by intros -> ->. Qed.

Lemma buildTacticsForTeam_payload tid f (s : AppState) :
  selected_ok s →
  snd (buildTacticsForTeam tid f s) = Some (side_payload tid s)
  ∧ selectedTeam (fst (buildTacticsForTeam tid f s)) = selectedTeam s
  ∧ ∀ k, side_payload k (fst (buildTacticsForTeam tid f s)) = side_payload k s.
Proof.
  intros Hok. unfold buildTacticsForTeam.
  destruct (isUserTeam tid s) eqn:Hiu.
  2:{ cbn [fst snd]. split_and!; [|done..]. unfold side_payload.
      by rewrite Hiu. }
  assert (Htr : str_truthy tid = true).
  { unfold isUserTeam, selected_ok in *. destruct (selectedTeam s); [|done].
    by apply bool_decide_eq_true in Hiu as <-. }
  unfold getOrCreateTacticsForTeam. rewrite Htr. cbn [negb].
  destruct (tacticsByTeam s !! tid) as [t|] eqn:Ht; cbn [fst snd].
  - split_and!; [|done..]. unfold side_payload. by rewrite Hiu, Ht.
  - split_and!; [unfold side_payload; by rewrite Hiu, Ht|done|].
    intros k. unfold side_payload, isUserTeam in *.
    cbn [selectedTeam tacticsByTeam set_tacticsByTeam].
    destruct (selectedTeam s) as [u|]; [|done].
    apply bool_decide_eq_true in Hiu as <-.
    destruct (bool_decide (t_id u = k)) eqn:Hk; [|done].
    apply bool_decide_eq_true in Hk as <-.
    by rewrite lookup_insert_eq, Ht.
Qed.

Lemma stage_tactics_payload hid aid fh fa (s : AppState) :
  selected_ok s →
  snd (stage_tactics hid aid fh fa s)
  = Some (side_payload hid s, side_payload aid s).
Proof.
  intros Hok. unfold stage_tactics.
  destruct (buildTacticsForTeam_payload hid fh s Hok) as (Hp & Hsel & Hside).
  destruct (buildTacticsForTeam hid fh s) as [s5 p]. cbn [fst snd] in *.
  subst p.
  assert (Hok5 : selected_ok s5) by (unfold selected_ok; by rewrite Hsel).
  destruct (buildTacticsForTeam_payload aid fa s5 Hok5) as (Hp & _ & _).
  destruct (buildTacticsForTeam aid fa s5) as [s6 p]. cbn [fst snd] in *.
  subst p. by rewrite Hside.
Qed.

Lemma sim_post_count_app l1 l2 :
  sim_post_count (l1 ++ l2) = (sim_post_count l1 + sim_post_count l2)%nat.
Proof. unfold sim_post_count. by rewrite List.filter_app, length_app. Qed.

Lemma sim_post_count_cons e l :
  sim_post_count (e :: l)
  = ((if is_sim_post e then 1 else 0) + sim_post_count l)%nat.
Proof. unfold sim_post_count. cbn. by destruct (is_sim_post e). Qed.

Lemma renderAllTabs_requests_no_sim (s : AppState) :
  sim_post_count (renderAllTabs_requests s) = 0%nat.
Proof.
  unfold renderAllTabs_requests.
  by destruct (stats_fetches false s), (teams_fetches false s),
    (weeklyNews_fetches false s).
Qed.

(** X8. An advance on a loaded schedule that has a game to play sends the
    league catch-up for the date of that game and the user's team, then one
    request to the simulator, for that game's two teams and date. The side
    of the selected team carries the projection of its stored profile, the
    other side carries [{ pace: 0 }]; no other simulator request is sent. *)
Theorem X8_requests_of_an_advance
    D (w : World) (s s' : AppState) (out : Outcome) (evs : list Event) :
  games (schedule (cachedViews s)) ≠ [] →
  selected_ok s →
  simulateGameProgress D w s = (s', out, evs) →
  out ≠ Failure "no-more-regular-season" →
  ∃ i g,
    games (schedule (cachedViews s)) !! i = Some g
    ∧ unplayed g = true
    ∧ (∀ j h, (j < i)%nat → games (schedule (cachedViews s)) !! j = Some h →
              unplayed h = false)
    ∧ take 2 evs
      = [ Post "/api/advance-league"
            (BodyLeague (date g) (t_id (user_team s)));
          Post "/api/simulate-game"
            (BodySim {| req_home_team_id := home_team_id g;
                        req_away_team_id := away_team_id g;
                        home_tactics := side_payload (home_team_id g) s;
                        away_tactics := side_payload (away_team_id g) s;
                        game_date := date g |}) ]
    ∧ sim_post_count evs = 1%nat.
Proof.
  intros Hne Hok Hsim Hout.
  destruct (advance_loaded D w s s' out evs Hne Hsim)
    as [(-> & _)|(i & g & s6 & tac & Hi & Hu & Hmin & Htac & Hrest)];
    [done|].
  exists i, g. split_and!; [done..| |].
  all: set (s4 := stage_league w _) in Htac.
  all: assert (Hsel4 : selectedTeam s4 = selectedTeam s).
  1,3: destruct (stage_league_frame w
         (upd_schedule (set_currentIndex (Z.of_nat i)) (fst (stage_load w s))))
         as ((_ & _ & L) & _);
       destruct (stage_load_same_applied w s) as (_ & _ & L');
       unfold s4; rewrite L; exact L'.
  all: assert (Htb4 : tacticsByTeam s4 = tacticsByTeam s).
  1,3: destruct (stage_league_frame w
         (upd_schedule (set_currentIndex (Z.of_nat i)) (fst (stage_load w s))))
         as (_ & _ & _ & L);
       destruct (stage_load_loaded w s Hne) as (_ & _ & _ & L' & _);
       unfold s4; rewrite L; exact L'.
  all: assert (Hok4 : selected_ok s4) by (unfold selected_ok; by rewrite Hsel4).
  all: pose proof (stage_tactics_payload (home_team_id g) (away_team_id g)
                     0 0 s4 Hok4) as Hpay.
  all: rewrite Htac in Hpay; cbn [snd] in Hpay; subst tac.
  all: rewrite !(side_payload_ext _ s4 s Hsel4 Htb4) in Hrest.
  all: unfold sim_request in Hrest; rewrite !team_or_stub_id in Hrest.
  all: destruct (sim_resp w) as [d| |].
  all: try (injection Hrest as _ _ ->; reflexivity).
  - destruct Hrest as (started & res & _ & _ & ->). reflexivity.
  - destruct Hrest as (started & res & Happly & _ & ->).
    unfold apply_result in Happly. injection Happly as _ _ <-.
    rewrite sim_post_count_app, renderAllTabs_requests_no_sim. reflexivity.
Qed.

(** X8, witness: Atlanta's game of 25 October in Chicago; the away side is
    the selected team. *)
Lemma X8_witness :
  games (schedule (cachedViews Demo.atl_loaded)) ≠ []
  ∧ selected_ok Demo.atl_loaded
  ∧ simulateGameProgress isoDateMs Demo.world_ok Demo.atl_loaded
    = (Demo.after_ok, Success Demo.result_g2, Demo.events_ok)
  ∧ sim_post_count Demo.events_ok = 1%nat
  ∧ side_payload "CHI" Demo.atl_loaded = OpponentPayload 0.
Proof.
  assert (Hne : games (schedule (cachedViews Demo.atl_loaded)) ≠ [])
    by (by vm_compute).
  assert (Hok : selected_ok Demo.atl_loaded) by reflexivity.
  assert (Hrun : simulateGameProgress isoDateMs Demo.world_ok Demo.atl_loaded
                 = (Demo.after_ok, Success Demo.result_g2, Demo.events_ok))
    by (vm_compute; reflexivity).
  destruct (X8_requests_of_an_advance isoDateMs Demo.world_ok Demo.atl_loaded
              Demo.after_ok (Success Demo.result_g2) Demo.events_ok
              Hne Hok Hrun) as (i & g & _ & _ & _ & _ & Hcount); [done|].
  split_and!; [exact Hne|exact Hok|exact Hrun|exact Hcount|reflexivity].
Defined.

(** ** Batch of advances *)

Lemma stage_load_no_sim w (s : AppState) :
  sim_post_count (snd (stage_load w s)) = 0%nat.
Proof.
  unfold stage_load, generateSeasonSchedule.
  destruct (games _); [|done].
  destruct (already_loaded _ _); [done|].
  by destruct (schedule_resp w).
Qed.

Lemma season_over_no_sim w (s : AppState) :
  sim_post_count (snd (season_over w s)) = 0%nat.
Proof.
  unfold season_over.
  destruct (apiKey s); [|done]. destruct (selectedTeam s); [|done].
  destruct (str_truthy _ && homeLLMOutput w); [|done].
  destruct (report_resp w) as [d| |]; [|done..].
  by destruct (str_truthy (report_text d)).
Qed.

Lemma apply_result_no_sim u h a g d (s : AppState) :
  sim_post_count (snd (apply_result u h a g d s)) = 0%nat.
Proof. unfold apply_result. cbn [snd]. apply renderAllTabs_requests_no_sim. Qed.

(** One advance calls the simulator at most once, and exactly once when it
    succeeds; only a success moves the turn counter, by one. *)
Lemma advance_counts D (w : World) (s s' : AppState) out evs :
  simulateGameProgress D w s = (s', out, evs) →
  (sim_post_count evs ≤ 1)%nat
  ∧ (∀ r, out = Success r →
       sim_post_count evs = 1%nat ∧ progressTurns s' = progressTurns s + 1)
  ∧ ((∀ r, out ≠ Success r) → progressTurns s' = progressTurns s).
Proof.
  intros Hsim. split_and!.
  - revert Hsim. rewrite simulateGameProgress_stages.
    destruct (getNextScheduledGame _) as [s3 [g|]].
    + cbv zeta. destruct (stage_tactics _ _ _ _ _) as [s6 [[h a]|]].
      * destruct (sim_resp w) as [d| |]; intros [= <- <- <-];
          rewrite ?sim_post_count_app, ?sim_post_count_cons,
            ?stage_load_no_sim, ?renderAllTabs_requests_no_sim;
          cbn; lia.
      * intros [= <- <- <-].
        rewrite ?sim_post_count_app, ?sim_post_count_cons, ?stage_load_no_sim.
        cbn. lia.
    + intros [= <- <- <-].
      rewrite sim_post_count_app, stage_load_no_sim, season_over_no_sim. lia.
  - intros r ->. pose proof Hsim as Hsim'.
    apply simulateGameProgress_success in Hsim'
      as (s6 & g & d & before & started & _ & Happly & _ & _ & Hsame & _).
    apply apply_result_facts in Happly as (_ & _ & _ & _ & _ & _ & _ & Ht & _).
    destruct Hsame as (Happ & _). unfold applied_part in Happ.
    injection Happ as Hp _ _ _ _ _ _. split; [|lia].
    revert Hsim. rewrite simulateGameProgress_stages.
    destruct (getNextScheduledGame _) as [s3 [g'|]]; [|done].
    cbv zeta. destruct (stage_tactics _ _ _ _ _) as [s7 [[h a]|]]; [|done].
    destruct (sim_resp w) as [d'| |]; [|done..]. intros [= _ _ <-].
    rewrite ?sim_post_count_app, ?sim_post_count_cons, ?stage_load_no_sim,
      ?renderAllTabs_requests_no_sim.
    reflexivity.
  - intros Hout.
    destruct (simulateGameProgress_not_applied D w s s' out evs Hsim Hout)
      as ((Happ & _) & _).
    unfold applied_part in Happ. by injection Happ as -> _ _ _ _ _ _.
Qed.

(** X9. A batch of [n] advances returns at most [n] results, one for each
    game applied: the turn counter has grown by their number. The loop
    stops at the first advance that does not succeed, so the simulator is
    called once per result and at most once more; when all [n] advances
    succeed it is called exactly [n] times. *)
Theorem X9_batch_stops_at_first_failure
    D (worlds : nat → World) (n : nat) (s : AppState) :
  let run := runLLMSimulationWorkflow D worlds n s in
  let s' := fst (fst run) in
  let results := snd (fst run) in
  (length results ≤ n)%nat
  ∧ progressTurns s' = progressTurns s + Z.of_nat (length results)
  ∧ (length results ≤ sim_post_count (snd run) ≤ S (length results))%nat
  ∧ (length results = n → sim_post_count (snd run) = n).
Proof.
  unfold runLLMSimulationWorkflow. generalize 0%nat as i.
  revert s. induction n as [|n IH]; intros s i; cbn [workflow_loop].
  { cbn. split_and!; (lia || done). }
  destruct (simulateGameProgress D (worlds i) s) as [[s1 out] ev] eqn:Hsim.
  destruct (advance_counts D (worlds i) s s1 out ev Hsim) as (Hle & Hok & Hno).
  destruct out as [r| |].
  - destruct (Hok r eq_refl) as [Hone Hturn].
    specialize (IH s1 (S i)).
    destruct (workflow_loop D worlds (S i) n s1) as [[s2 rs] evs].
    cbn [fst snd length] in *. rewrite sim_post_count_app, Hone.
    destruct IH as (I1 & I2 & I3 & I4). split_and!; try lia.
  - cbn [fst snd length]. rewrite Hno by done. split_and!; try lia.
  - cbn [fst snd length]. rewrite Hno by done. split_and!; try lia.
Qed.

(** X9, witness: a batch of two advances for Atlanta whose simulator
    answers: two results, two calls. *)
Lemma X9_witness :
  let run := runLLMSimulationWorkflow isoDateMs (fun _ => Demo.world_ok) 2
               Demo.atl_loaded in
  length (snd (fst run)) = 2%nat ∧ sim_post_count (snd run) = 2%nat.
Proof.
  intros run.
  destruct (X9_batch_stops_at_first_failure isoDateMs (fun _ => Demo.world_ok)
              2 Demo.atl_loaded) as (_ & _ & _ & Hall).
  assert (Hlen : length (snd (fst run)) = 2%nat) by (vm_compute; reflexivity).
  split; [exact Hlen|]. apply Hall. exact Hlen.
Defined.

Lemma remaining_zero (s : AppState) :
  remaining_games s = 0%nat ↔
  ∀ g, g ∈ games (schedule (cachedViews s)) → unplayed g = false.
Proof.
  unfold remaining_games. split.
  - intros H g Hg. apply length_zero_iff_nil in H.
    destruct (unplayed g) eqn:Hu; [|done].
    assert (Hin : In g (List.filter unplayed (games (schedule (cachedViews s)))))
      by (apply filter_In; by rewrite <- list_elem_of_In).
    rewrite H in Hin. done.
  - intros H. apply length_zero_iff_nil.
    destruct (List.filter unplayed _) as [|g l] eqn:Hf; [done|].
    assert (Hin : In g (g :: l)) by (by left). rewrite <- Hf in Hin.
    apply filter_In in Hin as [Hin Hu].
    rewrite (H g) in Hu; [done|]. by apply list_elem_of_In.
Qed.

(** With a game left, a team with an id and a simulator that answers, the
    advance succeeds. *)
Lemma advance_succeeds D (w : World) (s : AppState) d :
  games (schedule (cachedViews s)) ≠ [] →
  selected_ok s →
  sim_resp w = RespOk d →
  remaining_games s ≠ 0%nat →
  ∃ s' r evs,
    simulateGameProgress D w s = (s', Success r, evs)
    ∧ games (schedule (cachedViews s')) ≠ []
    ∧ selected_ok s'
    ∧ remaining_games s = S (remaining_games s').
Proof.
  intros Hne Hok Hresp Hrem.
  destruct (simulateGameProgress D w s) as [[s' out] evs] eqn:Hsim.
  assert (Hout : ∃ r, out = Success r).
  { destruct (advance_loaded D w s s' out evs Hne Hsim)
      as [(_ & Hall & _)|(i & g & s6 & tac & Hi & Hu & Hmin & Htac & Hrest)].
    { by apply remaining_zero in Hall. }
    set (s4 := stage_league w _) in Htac.
    assert (Hok4 : selected_ok s4).
    { destruct (stage_league_frame w
         (upd_schedule (set_currentIndex (Z.of_nat i)) (fst (stage_load w s))))
         as ((_ & _ & L) & _).
      destruct (stage_load_same_applied w s) as (_ & _ & L').
      assert (Hsel4 : selectedTeam s4 = selectedTeam s)
        by (unfold s4; rewrite L; exact L').
      unfold selected_ok. by rewrite Hsel4. }
    pose proof (stage_tactics_payload (home_team_id g) (away_team_id g)
                  0 0 s4 Hok4) as Hpay.
    rewrite Htac in Hpay. cbn [snd] in Hpay. subst tac.
    rewrite Hresp in Hrest. destruct Hrest as (started & res & Happly & -> & _).
    unfold apply_result in Happly. injection Happly as _ <- _. by eexists. }
  destruct Hout as [r ->]. exists s', r, evs. split; [done|].
  destruct (advance_plays_one D w s s' r evs Hne Hsim)
    as (i & f & Hg' & Hrem').
  pose proof Hsim as Hsim'.
  apply simulateGameProgress_success in Hsim'
    as (s6 & g0 & d0 & before & started & _ & Happly & _ & _ & Hsame & _).
  apply apply_result_facts in Happly as (_ & _ & _ & _ & _ & _ & Hsel & _).
  destruct Hsame as (_ & _ & Hsel6).
  split_and!; [|unfold selected_ok; by rewrite Hsel, Hsel6|done].
  rewrite Hg'. intros Hnil. apply (f_equal length) in Hnil.
  rewrite length_alter in Hnil. by destruct (games (schedule (cachedViews s))).
Qed.

(** X10. With a loaded schedule, a selected team that has an id and a
    simulator that always answers, a batch of [n] advances plays
    [min n remaining] games; when [n] covers what remains, every game of
    the schedule ends with scores. *)
Theorem X10_batch_plays_out_the_season
    D (worlds : nat → World) (n : nat) (s : AppState) :
  games (schedule (cachedViews s)) ≠ [] →
  selected_ok s →
  (∀ i, ∃ d, sim_resp (worlds i) = RespOk d) →
  let run := runLLMSimulationWorkflow D worlds n s in
  length (snd (fst run)) = (n `min` remaining_games s)%nat
  ∧ remaining_games (fst (fst run))
    = (remaining_games s - length (snd (fst run)))%nat
  ∧ ((remaining_games s ≤ n)%nat →
     ∀ g, g ∈ games (schedule (cachedViews (fst (fst run)))) →
          unplayed g = false).
Proof.
  intros Hne Hok Hsim run. unfold run, runLLMSimulationWorkflow. clear run.
  assert (Hmain : ∀ n s i,
    games (schedule (cachedViews s)) ≠ [] → selected_ok s →
    length (snd (fst (workflow_loop D worlds i n s)))
    = (n `min` remaining_games s)%nat
    ∧ remaining_games (fst (fst (workflow_loop D worlds i n s)))
      = (remaining_games s - length (snd (fst (workflow_loop D worlds i n s))))%nat).
  { clear n s Hne Hok.
    induction n as [|n IH]; intros s i Hne Hok; cbn [workflow_loop].
    { cbn. lia. }
    destruct (Hsim i) as [d Hd].
    destruct (decide (remaining_games s = 0%nat)) as [Hz|Hnz].
    - destruct (simulateGameProgress D (worlds i) s) as [[s1 out] ev] eqn:Hrun.
      destruct (advance_exhausted D (worlds i) s s1 out ev Hne
                  (proj1 (remaining_zero s) Hz) Hrun) as (-> & Hg).
      cbn [fst snd length]. unfold remaining_games in *. rewrite Hg, Hz. lia.
    - destruct (advance_succeeds D (worlds i) s d Hne Hok Hd Hnz)
        as (s1 & r & ev & -> & Hne1 & Hok1 & Hrem).
      specialize (IH s1 (S i) Hne1 Hok1).
      destruct (workflow_loop D worlds (S i) n s1) as [[s2 rs] evs].
      cbn [fst snd length] in *. lia. }
  destruct (Hmain n s 0%nat Hne Hok) as [Hlen Hrem].
  split_and!; [done..|].
  intros Hcover. apply remaining_zero. lia.
Qed.

(** X10, witness: Atlanta has two games left; a batch of five plays both
    and stops. *)
Lemma X10_witness :
  let run := runLLMSimulationWorkflow isoDateMs (fun _ => Demo.world_ok) 5
               Demo.atl_loaded in
  games (schedule (cachedViews Demo.atl_loaded)) ≠ []
  ∧ selected_ok Demo.atl_loaded
  ∧ remaining_games Demo.atl_loaded = 2%nat
  ∧ length (snd (fst run)) = 2%nat
  ∧ remaining_games (fst (fst run)) = 0%nat.
Proof.
  intros run.
  assert (Hne : games (schedule (cachedViews Demo.atl_loaded)) ≠ [])
    by (by vm_compute).
  assert (Hok : selected_ok Demo.atl_loaded) by reflexivity.
  assert (Hrem : remaining_games Demo.atl_loaded = 2%nat) by reflexivity.
  destruct (X10_batch_plays_out_the_season isoDateMs (fun _ => Demo.world_ok)
              5 Demo.atl_loaded Hne Hok) as (Hlen & Hleft & _).
  { intros _. by eexists. }
  fold run in Hlen, Hleft. rewrite Hrem in Hlen, Hleft.
  split_and!; [exact Hne|exact Hok|exact Hrem|exact Hlen|].
  rewrite Hleft, Hlen. reflexivity.
Defined.

(** ** FatigueModel: range *)

(** X11. The fatigue factor always lies between 0.92 and 1.05 and never
    decreases when the rest grows; a rest that is not a number (a date that
    does not parse) gets the top factor 1.05. The rest computed from a
    schedule, when it is a number, is never negative. *)
Theorem X11_fatigue_factor_range :
  (∀ r, (92 # 100 <= calcFatigueFactor r)%Q ∧ (calcFatigueFactor r <= 105 # 100)%Q)
  ∧ (∀ a b, a ≤ b →
       (calcFatigueFactor (Some a) <= calcFatigueFactor (Some b))%Q)
  ∧ calcFatigueFactor None = 105 # 100
  ∧ (∀ D s r, computeRestDaysForUserTeam D s = Some r → 0 ≤ r)
  ∧ (∀ D s last cur,
       games (schedule (cachedViews s)) ≠ [] →
       last_game_date (teamId (schedule (cachedViews s)))
         (games (schedule (cachedViews s)))
         (Z.to_nat (currentIndex (schedule (cachedViews s)))) = Some last →
       str_truthy last = true →
       game_at (games (schedule (cachedViews s)))
         (currentIndex (schedule (cachedViews s))) = Some cur →
       D (date cur) = None →
       calcFatigueFactor (computeRestDaysForUserTeam D s) = 105 # 100).
Proof.
  split_and!.
  - intros [r|]; unfold calcFatigueFactor;
      repeat case_match; split; unfold Qle; cbn; lia.
  - intros a b Hab. unfold calcFatigueFactor.
    destruct (Z.leb_spec a 0), (Z.eqb_spec a 1), (Z.eqb_spec a 2),
      (Z.eqb_spec a 3), (Z.leb_spec b 0), (Z.eqb_spec b 1), (Z.eqb_spec b 2),
      (Z.eqb_spec b 3); try lia; unfold Qle; cbn; lia.
  - done.
  - intros D s r. unfold computeRestDaysForUserTeam.
    repeat case_match; intros [= <-]; lia.
  - intros D s last cur Hne Hlast Htr Hcur Hd.
    unfold computeRestDaysForUserTeam.
    destruct (games (schedule (cachedViews s))); [done|].
    rewrite Hlast, Htr, Hcur, Hd. cbn. by destruct (D last).
Qed.

(** X11, witness: Atlanta's next game carries a date that does not parse. *)
Lemma X11_witness :
  let s := Demo.load
             [ Demo.entry "g1" "2025-10-21" "ATL" "BOS" (Some 100) (Some 90) None;
               Demo.entry "g2" "soon" "CHI" "ATL" None None None ]
             Demo.atl_selected in
  computeRestDaysForUserTeam isoDateMs s = None
  ∧ calcFatigueFactor (computeRestDaysForUserTeam isoDateMs s) = 105 # 100
  ∧ (calcFatigueFactor (Some 0%Z) <= calcFatigueFactor (Some 9%Z))%Q.
Proof.
  intros s.
  destruct X11_fatigue_factor_range as (_ & Hmono & _ & _ & Hnan).
  split_and!.
  - reflexivity.
  - apply (Hnan isoDateMs s "2025-10-21"
             (Demo.entry "g2" "soon" "CHI" "ATL" None None None));
      (reflexivity || by vm_compute).
  - apply Hmono. lia.
Defined.

(** ** TacticsProjector: what is sent for the user's team *)

Lemma Qdiv5_le a b : (a <= b)%Q → (a / 5 <= b / 5)%Q.
Proof.
  intros H. unfold Qdiv. apply Qmult_le_compat_r; [exact H|discriminate].
Qed.

Lemma normalizeWeight_floor v fb : (2 # 10 <= normalizeWeight v fb)%Q.
Proof. unfold normalizeWeight. apply Q.le_max_l. Qed.

(** X12. Whatever the stored profile holds, its projection is usable by the
    simulator: the four weights are at least 0.2, the rotation size is not
    0 and the two scheme names are not empty. A weight that is missing or
    not finite counts as the fallback 5, that is 1 after scaling; the
    weights 5 and 10 are sent as 1 and 2, and a larger weight is never sent
    as a smaller number. *)
Theorem X12_projection_is_well_formed (t : Tactics) :
  let p := project_tactics t in
  (2 # 10 <= scheme_weight_sharpness p)%Q
  ∧ (2 # 10 <= scheme_outcome_strength p)%Q
  ∧ (2 # 10 <= def_scheme_weight_sharpness p)%Q
  ∧ (2 # 10 <= def_scheme_outcome_strength p)%Q
  ∧ rotation_size p ≠ 0
  ∧ offense_scheme p ≠ ""
  ∧ defense_scheme p ≠ ""
  ∧ (normalizeWeight None 5 == 1)%Q
  ∧ (normalizeWeight (Some NotFinite) 5 == 1)%Q
  ∧ (normalizeWeight (Some (Finite 5)) 5 == 1)%Q
  ∧ (normalizeWeight (Some (Finite 10)) 5 == 2)%Q
  ∧ (∀ a b, (a <= b)%Q →
       (normalizeWeight (Some (Finite a)) 5
        <= normalizeWeight (Some (Finite b)) 5)%Q).
Proof.
  intros p. split_and!; try apply normalizeWeight_floor.
  - unfold p, project_tactics, int_or. cbn.
    destruct (rotationSize t) as [v|]; [|done].
    destruct (Z.eqb_spec v 0); done.
  - unfold p, project_tactics, str_or. cbn.
    destruct (offenseScheme t) as [[|c v]|]; done.
  - unfold p, project_tactics, str_or. cbn.
    destruct (defenseScheme t) as [[|c v]|]; done.
  - done.
  - done.
  - done.
  - done.
  - intros a b Hab.
    change (Qmax (2 # 10) (a / 5) <= Qmax (2 # 10) (b / 5))%Q.
    apply Q.max_le_compat_l, Qdiv5_le, Hab.
Qed.

(** X12, witness: the default profile, and the weights 3 and 4. *)
Lemma X12_witness :
  (2 # 10 <= scheme_weight_sharpness (project_tactics getDefaultTactics))%Q
  ∧ rotation_size (project_tactics getDefaultTactics) ≠ 0
  ∧ (normalizeWeight (Some (Finite 3)) 5
     <= normalizeWeight (Some (Finite 4)) 5)%Q.
Proof.
  destruct (X12_projection_is_well_formed getDefaultTactics)
    as (H1 & _ & _ & _ & H5 & _ & _ & _ & _ & _ & _ & H).
  split_and!; [exact H1|exact H5|apply H; done].
Defined.

(** X13. The pace chosen on the slider is stored in the profile of the
    selected team only, and is the pace of the payload built for that team
    afterwards; the payload's other fields are those of the profile as it
    was. With no team selected the slider changes nothing. *)
Theorem X13_pace_reaches_the_payload (v : num) (f : Q) (s : AppState) :
  (selectedTeam s = None → onPaceInput v s = s)
  ∧ (∀ u, selectedTeam s = Some u → str_truthy (t_id u) = true →
       let s' := onPaceInput v s in
       let old := default getDefaultTactics (tacticsByTeam s !! t_id u) in
       tacticsByTeam s' !! t_id u = Some (set_pace v old)
       ∧ (∀ k, k ≠ t_id u → tacticsByTeam s' !! k = tacticsByTeam s !! k)
       ∧ cachedViews s' = cachedViews s
       ∧ snd (buildTacticsForTeam (t_id u) f s')
         = Some (UserPayload (project_tactics (set_pace v old)))
       ∧ p_pace (project_tactics (set_pace v old)) = v
       ∧ rotation_size (project_tactics (set_pace v old))
         = rotation_size (project_tactics old)
       ∧ lineup_starters (project_tactics (set_pace v old))
         = lineup_starters (project_tactics old)).
Proof.
  split.
  - intros Hnone. unfold onPaceInput. by rewrite Hnone.
  - intros u Hu Htr s' old.
    assert (Hs' : tacticsByTeam s' = <[t_id u := set_pace v old]> (tacticsByTeam s)
                  ∧ selectedTeam s' = Some u ∧ cachedViews s' = cachedViews s).
    { unfold s', old, onPaceInput, getOrCreateTacticsForTeam.
      rewrite Hu, Htr. cbn [negb].
      destruct (tacticsByTeam s !! t_id u) as [t|] eqn:Ht; cbn.
      - done.
      - by rewrite insert_insert_eq. }
    destruct Hs' as (Htb & Hsel & Hcv).
    split_and!; try done.
    + by rewrite Htb, lookup_insert_eq.
    + intros k Hk. by rewrite Htb, lookup_insert_ne.
    + unfold buildTacticsForTeam, isUserTeam, getOrCreateTacticsForTeam.
      rewrite Hsel, bool_decide_true by done. rewrite Htr. cbn [negb].
      by rewrite Htb, lookup_insert_eq.
Qed.

(** X13, witness: Atlanta's pace set to 2. *)
Lemma X13_witness :
  tacticsByTeam (onPaceInput (Finite 2) Demo.atl_loaded) !! "ATL"
  = Some (set_pace (Finite 2) getDefaultTactics)
  ∧ snd (buildTacticsForTeam "ATL" 1 (onPaceInput (Finite 2) Demo.atl_loaded))
    = Some (UserPayload (project_tactics (set_pace (Finite 2) getDefaultTactics))).
Proof.
  destruct (X13_pace_reaches_the_payload (Finite 2) 1 Demo.atl_loaded)
    as [_ H].
  destruct (H {| t_id := "ATL"; t_name := "Atlanta Hawks" |} eq_refl eq_refl)
    as (Hprofile & _ & _ & Hpay & _).
  split; [exact Hprofile|exact Hpay].
Defined.

(** ** Team selection: what is reset *)

(** X14. Selecting a team of the table starts over: the turn counter is 0,
    the rosters loaded so far are dropped and the roster summary of the
    team is requested again, exactly once; the postseason state and the
    season-report flag are cleared. The API key stays. An id that is not in
    the table changes nothing and requests nothing. *)
Theorem X14_select_team_starts_over
    (tid : string) (resp : Response json) (s : AppState) :
  (find_team tid = None → selectTeam tid resp s = (s, []))
  ∧ (∀ team, find_team tid = Some team →
       let s' := fst (selectTeam tid resp s) in
       snd (selectTeam tid resp s) = [Fetch ("/api/roster-summary/" +:+ tid)]
       ∧ progressTurns s' = 0
       ∧ postseason s' = None
       ∧ seasonReportReady s' = false
       ∧ chatHistory s' = []
       ∧ apiKey s' = apiKey s
       ∧ rosters s' = match resp with
                      | RespOk d => {[ tid := d ]}
                      | _ => ∅
                      end).
Proof.
  split; [apply selectTeam_unknown|].
  intros team Hfind s'.
  pose proof (find_team_id _ _ Hfind) as Hid.
  pose proof (find_team_truthy _ _ Hfind) as Htr.
  unfold s', selectTeam. rewrite Hfind, Hid.
  unfold loadRosterForTeam, getOrCreateTacticsForTeam. rewrite Htr. simpl.
  unfold roster_cached.
  destruct (tacticsByTeam s !! tid); simpl; rewrite lookup_empty;
    destruct resp; simpl; rewrite ?insert_empty; done.
Qed.

(** X14, witness: Boston selected after Atlanta has played a game. *)
Lemma X14_witness :
  progressTurns Demo.after_ok = 1
  ∧ progressTurns (fst (selectTeam "BOS" Demo.no_roster Demo.after_ok)) = 0
  ∧ snd (selectTeam "BOS" Demo.no_roster Demo.after_ok)
    = [Fetch "/api/roster-summary/BOS"].
Proof.
  destruct (X14_select_team_starts_over "BOS" Demo.no_roster Demo.after_ok)
    as [_ H].
  destruct (H {| t_id := "BOS"; t_name := "Boston Celtics" |} eq_refl)
    as (Hev & Hturn & _).
  split_and!; [reflexivity|exact Hturn|exact Hev].
Defined.

(** ** Conferences and divisions *)

Lemma division_of_Some tid divs d :
  division_of tid divs = Some d → ∃ arr, (d, arr) ∈ divs ∧ tid ∈ arr.
Proof.
  induction divs as [|[dn arr] rest IH]; [done|]. simpl.
  destruct (bool_decide (tid ∈ arr)) eqn:Hb.
  - intros [= <-]. apply bool_decide_eq_true in Hb. exists arr.
    split; [apply elem_of_cons; by left|done].
  - intros H. destruct (IH H) as (arr' & Hin & Ht). exists arr'.
    split; [apply elem_of_cons; by right|done].
Qed.

Lemma conf_and_div_of_Some tid confs c d :
  conf_and_div_of tid confs = Some (c, d) →
  ∃ divs arr, (c, divs) ∈ confs ∧ (d, arr) ∈ divs ∧ tid ∈ arr.
Proof.
  induction confs as [|[cn divs] rest IH]; [done|]. simpl.
  destruct (division_of tid divs) as [d'|] eqn:Hd.
  - intros [= <- <-]. destruct (division_of_Some _ _ _ Hd) as (arr & ? & ?).
    exists divs, arr. split_and!; [apply elem_of_cons; by left|done..].
  - intros H. destruct (IH H) as (divs' & arr & ? & ? & ?).
    exists divs', arr. split_and!; [apply elem_of_cons; by right|done..].
Qed.

Lemma divisions_shape :
  Forall (λ cd : string * list (string * list string),
            length (concat (snd <$> cd.2)) = 15%nat
            ∧ Forall (λ da : string * list string,
                        length da.2 = 5%nat
                        ∧ Forall (λ t, is_Some (find_team t)) da.2) cd.2)
         DIVISIONS.
Proof. apply (bool_decide_unpack _). vm_compute. exact I. Qed.

Lemma teams_have_division :
  Forall (λ t, getTeamConfAndDiv (t_id t) ≠ (None, None)) TEAMS.
Proof. apply (bool_decide_unpack _). vm_compute. exact I. Qed.

(** X15. [getTeamConfAndDiv] answers a conference and a division exactly
    for the ids of the team table, never one without the other, and the
    division it names lists the team; every other id gets the pair of
    nulls. Each of the two conferences holds 15 of the 30 teams and each
    division 5. *)
Theorem X15_every_team_has_one_division (tid : string) :
  (is_Some (find_team tid) ↔ getTeamConfAndDiv tid ≠ (None, None))
  ∧ (is_Some (fst (getTeamConfAndDiv tid)) ↔ is_Some (snd (getTeamConfAndDiv tid)))
  ∧ (∀ c d, getTeamConfAndDiv tid = (Some c, Some d) →
       ∃ divs arr, (c, divs) ∈ DIVISIONS ∧ (d, arr) ∈ divs ∧ tid ∈ arr
                   ∧ length arr = 5%nat
                   ∧ length (concat (snd <$> divs)) = 15%nat)
  ∧ (find_team tid = None → getTeamConfAndDiv tid = (None, None)).
Proof.
  assert (Hshape : ∀ c d, conf_and_div_of tid DIVISIONS = Some (c, d) →
            ∃ divs arr, (c, divs) ∈ DIVISIONS ∧ (d, arr) ∈ divs ∧ tid ∈ arr
                        ∧ length arr = 5%nat
                        ∧ length (concat (snd <$> divs)) = 15%nat
                        ∧ is_Some (find_team tid)).
  { intros c d Hcd.
    apply conf_and_div_of_Some in Hcd as (divs & arr & Hc & Hd & Ht).
    pose proof divisions_shape as Hall.
    rewrite Forall_forall in Hall. destruct (Hall _ Hc) as [H15 Hdivs].
    rewrite Forall_forall in Hdivs. destruct (Hdivs _ Hd) as [H5 Hts].
    rewrite Forall_forall in Hts.
    exists divs, arr. split_and!; try done. by apply Hts. }
  assert (Hknown : is_Some (find_team tid) ↔ getTeamConfAndDiv tid ≠ (None, None)).
  { split.
    - intros [t Ht]. pose proof (find_team_id _ _ Ht) as <-.
      unfold find_team in Ht. apply find_some in Ht as [Hin _].
      pose proof teams_have_division as Hall. rewrite Forall_forall in Hall.
      apply Hall. by apply list_elem_of_In.
    - intros Hne. unfold getTeamConfAndDiv in Hne.
      destruct (conf_and_div_of tid DIVISIONS) as [[c d]|] eqn:Hcd; [|done].
      destruct (Hshape _ _ eq_refl) as (? & ? & ? & ? & ? & ? & ? & ?). done. }
  split_and!.
  - exact Hknown.
  - unfold getTeamConfAndDiv.
    destruct (conf_and_div_of tid DIVISIONS) as [[c d]|]; cbn;
      split; intros [? ?]; (done || by eexists).
  - intros c d H. unfold getTeamConfAndDiv in H.
    destruct (conf_and_div_of tid DIVISIONS) as [[c' d']|] eqn:Hcd; [|done].
    injection H as <- <-.
    destruct (Hshape _ _ eq_refl) as (divs & arr & ? & ? & ? & ? & ? & ?).
    by exists divs, arr.
  - intros Hnone. destruct (decide (getTeamConfAndDiv tid = (None, None))) as [|Hne];
      [done|]. apply Hknown in Hne. rewrite Hnone in Hne. by destruct Hne.
Qed.

(** X15, witness: Atlanta has a division, an unknown id has none. *)
Lemma X15_witness :
  getTeamConfAndDiv "ATL" ≠ (None, None)
  ∧ getTeamConfAndDiv "SEA" = (None, None).
Proof.
  split.
  - apply (X15_every_team_has_one_division "ATL"). by eexists.
  - apply (X15_every_team_has_one_division "SEA"). reflexivity.
Defined.

(** ** Playoff stage: the user's series and the two command buttons *)

Lemma find_series_join tid l sr :
  mjoin (List.find (series_involves tid) l) = Some sr ↔
  List.find (series_involves tid) l = Some (Some sr).
Proof.
  destruct (List.find (series_involves tid) l) as [[x|]|] eqn:Hf; simpl.
  - split; congruence.
  - apply find_some in Hf as [_ Hf]. done.
  - done.
Qed.

(** X16. [findMySeries] answers the first series of the current round (the
    first round while the server names none) in which the selected team is
    the home-court or the road side, and nothing else: no series of another
    round, no empty bracket slot, and no series at all without playoffs
    data or a selected team, or for a round name outside the four the code
    knows. *)
Theorem X16_my_series_is_first_of_current_round
    (playoffs : option Playoffs) (s : AppState) (sr : Series) :
  (findMySeries playoffs s = Some sr ↔
   ∃ p u i,
     playoffs = Some p ∧ selectedTeam s = Some u
     ∧ collectRoundSeries playoffs
         (str_or (current_round p) "Conference Quarterfinals") !! i
       = Some (Some sr)
     ∧ (home_court sr = Some (t_id u) ∨ road sr = Some (t_id u))
     ∧ ∀ j o, (j < i)%nat →
         collectRoundSeries playoffs
           (str_or (current_round p) "Conference Quarterfinals") !! j = Some o →
         series_involves (t_id u) o = false)
  ∧ (∀ p, playoffs = Some p →
       str_or (current_round p) "Conference Quarterfinals"
         ∉ ["Conference Quarterfinals"; "Conference Semifinals";
            "Conference Finals"; "NBA Finals"] →
       findMySeries playoffs s = None).
Proof.
  split.
  - unfold findMySeries. split.
    + destruct playoffs as [p|]; [|done].
      destruct (selectedTeam s) as [u|]; [|done].
      rewrite find_series_join, find_first.
      intros (i & Hi & Hp & Hfirst). exists p, u, i.
      split_and!; [done..| |done].
      unfold series_involves in Hp. apply orb_prop in Hp.
      destruct Hp as [Hp|Hp]; apply bool_decide_eq_true in Hp; auto.
    + intros (p & u & i & -> & -> & Hi & Hside & Hfirst).
      rewrite find_series_join, find_first. exists i.
      split_and!; [done| |done].
      unfold series_involves. apply orb_true_iff.
      destruct Hside as [H|H]; [left|right]; by apply bool_decide_eq_true.
  - intros p -> Hround. unfold findMySeries.
    destruct (selectedTeam s) as [u|]; [|done].
    unfold collectRoundSeries.
    repeat match goal with
           | |- context [String.eqb ?a ?b] =>
               destruct (String.eqb_spec a b) as [He|_];
               [exfalso; apply Hround; rewrite He;
                repeat (apply elem_of_cons; first [by left | right])|]
           end.
    done.
Qed.

(** X16, witness: Atlanta's open series against Boston is found behind a
    decided series and an empty slot. *)
Lemma X16_witness :
  findMySeries PlayoffDemo.first_round Demo.atl_selected
  = PlayoffDemo.series "BOS" "ATL" None.
Proof.
  destruct (PlayoffDemo.series "BOS" "ATL" None) as [sr|] eqn:Hsr; [|done].
  apply (X16_my_series_is_first_of_current_round _ _ sr).
  injection Hsr as <-.
  eexists _, _, 2%nat. split_and!; [reflexivity|reflexivity|reflexivity| |].
  - by right.
  - intros [|[|j]] o Hj Ho; [by injection Ho as <-..|lia].
Defined.

(** X17. The two playoff buttons as [renderPlayoffStage] leaves them. They
    are never shown together. Once a champion is known neither is shown.
    Before that exactly one is: the game button while the user's team has
    an undecided series in the current round, the auto-advance button
    otherwise (series decided, or the team is not in the round). A button
    that is shown is enabled. *)
Theorem X17_one_playoff_button
    (champion : option string) (playoffs : option Playoffs) (s : AppState) :
  let b := playoff_buttons champion playoffs s in
  (game_displayed b && auto_displayed b = false)
  ∧ (ostr_truthy champion = true →
       game_displayed b = false ∧ auto_displayed b = false)
  ∧ (ostr_truthy champion = false →
       game_displayed b = negb (auto_displayed b)
       ∧ (game_displayed b = true ↔
          ∃ sr, findMySeries playoffs s = Some sr
                ∧ ostr_truthy (sr_winner sr) = false))
  ∧ (game_displayed b = true → game_disabled b = Some false)
  ∧ (auto_displayed b = true → auto_disabled b = false).
Proof.
  unfold playoff_buttons.
  destruct (findMySeries playoffs s) as [sr|]; cbn;
    [destruct (ostr_truthy (sr_winner sr)) eqn:Hw|];
    destruct (ostr_truthy champion); cbn; split_and!; try done.
  - intros _. split; [done|]. split; [done|].
    intros (sr' & [= <-] & Hw'). congruence.
  - intros _. split; [done|]. split; [|done]. intros _. by exists sr.
  - intros _. split; [done|]. split; [done|]. by intros (sr' & ? & _).
Qed.

(** X17, witness: no champion yet and Atlanta's series is open, so the game
    button is the one shown. *)
Lemma X17_witness :
  game_displayed
    (playoff_buttons None PlayoffDemo.first_round Demo.atl_selected) = true
  ∧ auto_displayed
      (playoff_buttons None PlayoffDemo.first_round Demo.atl_selected) = false.
Proof.
  destruct (X17_one_playoff_button None PlayoffDemo.first_round
              Demo.atl_selected) as (_ & _ & H & _).
  destruct (H eq_refl) as [Hneg Hiff].
  assert (Hg : game_displayed
                 (playoff_buttons None PlayoffDemo.first_round
                    Demo.atl_selected) = true).
  { apply Hiff. eexists. split; reflexivity. }
  split; [exact Hg|]. rewrite Hg in Hneg.
  destruct (auto_displayed _); [discriminate|reflexivity].
Defined.

(** ** Scheme shares: from the sliders to the payload *)

Lemma edit_selected_tactics_payload
    (edit : Tactics → Tactics) (f : Q) (s : AppState) (u : Team) :
  selectedTeam s = Some u → str_truthy (t_id u) = true →
  let old := default getDefaultTactics (tacticsByTeam s !! t_id u) in
  let s' := edit_selected_tactics edit s in
  tacticsByTeam s' = <[t_id u := edit old]> (tacticsByTeam s)
  ∧ selectedTeam s' = Some u
  ∧ cachedViews s' = cachedViews s
  ∧ snd (buildTacticsForTeam (t_id u) f s')
    = Some (UserPayload (project_tactics (edit old))).
Proof.
  intros Hu Htr old s'.
  assert (Hs' : tacticsByTeam s' = <[t_id u := edit old]> (tacticsByTeam s)
                ∧ selectedTeam s' = Some u ∧ cachedViews s' = cachedViews s).
  { unfold s', old, edit_selected_tactics, getOrCreateTacticsForTeam.
    rewrite Hu, Htr. cbn [negb].
    destruct (tacticsByTeam s !! t_id u) as [t|] eqn:Ht; cbn.
    - done.
    - by rewrite insert_insert_eq. }
  destruct Hs' as (Htb & Hsel & Hcv).
  split_and!; try done.
  unfold buildTacticsForTeam, isUserTeam, getOrCreateTacticsForTeam.
  rewrite Hsel, bool_decide_true by done. rewrite Htr. cbn [negb].
  by rewrite Htb, lookup_insert_eq.
Qed.

Lemma clamp_share_range q : (0 <= Qmax 0 (Qmin 5 q) <= 5)%Q.
Proof.
  split; [apply Q.le_max_l|]. apply Q.max_lub; [lra|apply Q.le_min_l].
Qed.

Lemma share_weight_primary c :
  (0 <= c <= 5)%Q →
  (normalizeWeight (Some (share_primary (Finite c))) 5 == (10 - c) / 5)%Q.
Proof.
  intros [H0 H5].
  change (Qmax (2 # 10) (Qmax c (10 - c) / 5) == (10 - c) / 5)%Q.
  apply Qle_antisym.
  - apply Q.max_lub.
    + apply Qle_shift_div_l; [reflexivity|]. lra.
    + apply Qdiv5_le, Q.max_lub; [lra|apply Qle_refl].
  - eapply Qle_trans; [|apply Q.le_max_r].
    apply Qdiv5_le, Q.le_max_r.
Qed.

Lemma share_weights_range (v : jsnum) :
  (1 <= normalizeWeight (Some (share_primary (clamp_share v))) 5)%Q
  ∧ (normalizeWeight (Some (share_primary (clamp_share v))) 5 <= 2)%Q
  ∧ (2 # 10 <= normalizeWeight (Some (clamp_share v)) 5)%Q
  ∧ (normalizeWeight (Some (clamp_share v)) 5 <= 1)%Q.
Proof.
  assert (Hfin : ∀ c, (0 <= c <= 5)%Q →
            (1 <= normalizeWeight (Some (share_primary (Finite c))) 5)%Q
            ∧ (normalizeWeight (Some (share_primary (Finite c))) 5 <= 2)%Q
            ∧ (2 # 10 <= normalizeWeight (Some (Finite c)) 5)%Q
            ∧ (normalizeWeight (Some (Finite c)) 5 <= 1)%Q).
  { intros c Hc. rewrite (share_weight_primary c Hc). destruct Hc as [H0 H5].
    split_and!.
    - apply Qle_shift_div_l; [reflexivity|]. lra.
    - apply Qle_shift_div_r; [reflexivity|]. lra.
    - apply normalizeWeight_floor.
    - change (Qmax (2 # 10) (c / 5) <= 1)%Q.
      apply Q.max_lub; [unfold Qle; cbn; lia|].
      apply Qle_shift_div_r; [reflexivity|]. lra. }
  destruct v as [q| | |]; cbn [clamp_share].
  - apply Hfin, clamp_share_range.
  - by vm_compute.
  - apply Hfin. lra.
  - apply Hfin. lra.
Qed.

(** The two ends of the slider. *)
Lemma share_weights_ends :
  (normalizeWeight (Some (clamp_share (JsFinite 5))) 5 == 1)%Q
  ∧ (normalizeWeight (Some (share_primary (clamp_share (JsFinite 5)))) 5 == 1)%Q
  ∧ (normalizeWeight (Some (share_primary (clamp_share (JsFinite 0)))) 5 == 2)%Q.
Proof. by vm_compute. Qed.

(** X18. Moving a share slider (the slider and its label being in the
    page) reaches the payload of the selected team: whatever the slider
    reports, the primary scheme is sent with a weight between 1 and 2 and
    the secondary one with a weight between 0.2 and 1. At the share 5 both
    weights are 1, at the share 0 the primary weight is 2, and a value that
    is not a number makes both weights fall back to 1. The offense slider
    leaves the defense weights, the pace, the schemes and the rotation size
    of the payload as they were, and the defense slider does the same for
    the offense. *)
Theorem X18_share_slider_reaches_the_payload
    (v : jsnum) (f : Q) (s : AppState) (u : Team) :
  selectedTeam s = Some u → str_truthy (t_id u) = true →
  let old := project_tactics
               (default getDefaultTactics (tacticsByTeam s !! t_id u)) in
  (∃ p,
     snd (buildTacticsForTeam (t_id u) f (onOffenseShareInput true v s))
     = Some (UserPayload p)
     ∧ (1 <= scheme_weight_sharpness p)%Q ∧ (scheme_weight_sharpness p <= 2)%Q
     ∧ (2 # 10 <= scheme_outcome_strength p)%Q
     ∧ (scheme_outcome_strength p <= 1)%Q
     ∧ (v = JsFinite 5 →
          (scheme_weight_sharpness p == 1)%Q ∧ (scheme_outcome_strength p == 1)%Q)
     ∧ (v = JsFinite 0 → (scheme_weight_sharpness p == 2)%Q)
     ∧ (v = JsNaN →
          (scheme_weight_sharpness p == 1)%Q ∧ (scheme_outcome_strength p == 1)%Q)
     ∧ def_scheme_weight_sharpness p = def_scheme_weight_sharpness old
     ∧ def_scheme_outcome_strength p = def_scheme_outcome_strength old
     ∧ p_pace p = p_pace old
     ∧ offense_scheme p = offense_scheme old
     ∧ defense_scheme p = defense_scheme old
     ∧ rotation_size p = rotation_size old)
  ∧ (∃ p,
       snd (buildTacticsForTeam (t_id u) f (onDefenseShareInput true v s))
       = Some (UserPayload p)
       ∧ (1 <= def_scheme_weight_sharpness p)%Q
       ∧ (def_scheme_weight_sharpness p <= 2)%Q
       ∧ (2 # 10 <= def_scheme_outcome_strength p)%Q
       ∧ (def_scheme_outcome_strength p <= 1)%Q
       ∧ (v = JsFinite 5 →
            (def_scheme_weight_sharpness p == 1)%Q
            ∧ (def_scheme_outcome_strength p == 1)%Q)
       ∧ (v = JsFinite 0 → (def_scheme_weight_sharpness p == 2)%Q)
       ∧ (v = JsNaN →
            (def_scheme_weight_sharpness p == 1)%Q
            ∧ (def_scheme_outcome_strength p == 1)%Q)
       ∧ scheme_weight_sharpness p = scheme_weight_sharpness old
       ∧ scheme_outcome_strength p = scheme_outcome_strength old
       ∧ p_pace p = p_pace old
       ∧ offense_scheme p = offense_scheme old
       ∧ defense_scheme p = defense_scheme old
       ∧ rotation_size p = rotation_size old).
Proof.
  intros Hu Htr old.
  pose proof (share_weights_range v) as (R1 & R2 & R3 & R4).
  pose proof share_weights_ends as (E1 & E2 & E3).
  split.
  - destruct (edit_selected_tactics_payload
                (fun t => updateOffenseShareLabel true
                            (set_offenseSecondaryWeight (clamp_share v) t))
                f s u Hu Htr) as (_ & _ & _ & Hpay).
    eexists. split; [exact Hpay|].
    cbn. split_and!; try done.
    + by intros ->.
    + by intros ->.
    + intros ->. by vm_compute.
  - destruct (edit_selected_tactics_payload
                (fun t => updateDefenseShareLabel true
                            (set_defenseSecondaryWeight (clamp_share v) t))
                f s u Hu Htr) as (_ & _ & _ & Hpay).
    eexists. split; [exact Hpay|].
    cbn. split_and!; try done.
    + by intros ->.
    + by intros ->.
    + intros ->. by vm_compute.
Qed.

(** X18, witness: Atlanta's offense share set to 3; the weights sent are
    within their ranges. *)
Lemma X18_witness :
  ∃ p,
    snd (buildTacticsForTeam "ATL" 1
           (onOffenseShareInput true (JsFinite 3) Demo.atl_selected))
    = Some (UserPayload p)
    ∧ (1 <= scheme_weight_sharpness p)%Q ∧ (scheme_weight_sharpness p <= 2)%Q
    ∧ (2 # 10 <= scheme_outcome_strength p)%Q
    ∧ (scheme_outcome_strength p <= 1)%Q.
Proof.
  destruct (X18_share_slider_reaches_the_payload (JsFinite 3) 1
              Demo.atl_selected {| t_id := "ATL"; t_name := "Atlanta Hawks" |}
              eq_refl eq_refl) as [(p & Hpay & H1 & H2 & H3 & H4 & _) _].
  exists p. by split_and!.
Defined.

Lemma payload_of_selected (f : Q) (s : AppState) (u : Team) :
  selectedTeam s = Some u → str_truthy (t_id u) = true →
  snd (buildTacticsForTeam (t_id u) f s)
  = Some (UserPayload
            (project_tactics
               (default getDefaultTactics (tacticsByTeam s !! t_id u)))).
Proof.
  intros Hu Htr.
  unfold buildTacticsForTeam, isUserTeam, getOrCreateTacticsForTeam.
  rewrite Hu, bool_decide_true by done. rewrite Htr. cbn [negb].
  by destruct (tacticsByTeam s !! t_id u).
Qed.

(** X19. Choosing a secondary scheme (the share slider and its label being
    in the page). The name chosen is stored in the profile but is no part
    of what is sent to the simulator: on a profile whose primary weight is
    the complement of its secondary one (as the sliders leave it, and as
    the default profile is), choosing any name other than ["none"] leaves
    the payload of the team as it was. Choosing ["none"] sets the secondary
    weight to 0 and the primary to 10, which are sent as 0.2 and 2: the
    secondary weight never reaches 0. *)
Theorem X19_secondary_scheme_choice
    (scheme : string) (f : Q) (s : AppState) (u : Team) :
  selectedTeam s = Some u → str_truthy (t_id u) = true →
  let old := default getDefaultTactics (tacticsByTeam s !! t_id u) in
  (offenseSecondaryScheme
     <$> tacticsByTeam (onOffenseSecondaryChange true scheme s) !! t_id u
   = Some (Some scheme)
   ∧ (scheme = "none" →
        ∃ p, snd (buildTacticsForTeam (t_id u) f
                    (onOffenseSecondaryChange true scheme s))
             = Some (UserPayload p)
             ∧ (scheme_weight_sharpness p == 2)%Q
             ∧ (scheme_outcome_strength p == 2 # 10)%Q)
   ∧ (scheme ≠ "none" →
      offensePrimaryWeight old
      = Some (share_primary (default (Finite 5) (offenseSecondaryWeight old))) →
      snd (buildTacticsForTeam (t_id u) f (onOffenseSecondaryChange true scheme s))
      = snd (buildTacticsForTeam (t_id u) f s)))
  ∧ (defenseSecondaryScheme
       <$> tacticsByTeam (onDefenseSecondaryChange true scheme s) !! t_id u
     = Some (Some scheme)
     ∧ (scheme = "none" →
          ∃ p, snd (buildTacticsForTeam (t_id u) f
                      (onDefenseSecondaryChange true scheme s))
               = Some (UserPayload p)
               ∧ (def_scheme_weight_sharpness p == 2)%Q
               ∧ (def_scheme_outcome_strength p == 2 # 10)%Q)
     ∧ (scheme ≠ "none" →
        defensePrimaryWeight old
        = Some (share_primary (default (Finite 5) (defenseSecondaryWeight old))) →
        snd (buildTacticsForTeam (t_id u) f (onDefenseSecondaryChange true scheme s))
        = snd (buildTacticsForTeam (t_id u) f s))).
Proof.
  intros Hu Htr old. split.
  - destruct (edit_selected_tactics_payload
                (fun t =>
                   let t1 := set_offenseSecondaryScheme scheme t in
                   let t2 := if String.eqb scheme "none"
                             then set_offenseSecondaryWeight (Finite 0) t1
                             else t1 in
                   updateOffenseShareLabel true t2)
                f s u Hu Htr) as (Htb & _ & _ & Hpay).
    fold old in Htb, Hpay.
    change (edit_selected_tactics _ s)
      with (onOffenseSecondaryChange true scheme s) in Htb, Hpay.
    split_and!.
    + rewrite Htb, lookup_insert_eq. cbn. by destruct (String.eqb scheme "none").
    + intros ->. eexists. split; [exact Hpay|]. by vm_compute.
    + intros Hne Hprim. rewrite Hpay, (payload_of_selected f s u Hu Htr).
      fold old. apply String.eqb_neq in Hne. rewrite Hne. cbn.
      do 2 f_equal. unfold project_tactics. cbn. rewrite Hprim.
      by destruct (offenseSecondaryWeight old).
  - destruct (edit_selected_tactics_payload
                (fun t =>
                   let t1 := set_defenseSecondaryScheme scheme t in
                   let t2 := if String.eqb scheme "none"
                             then set_defenseSecondaryWeight (Finite 0) t1
                             else t1 in
                   updateDefenseShareLabel true t2)
                f s u Hu Htr) as (Htb & _ & _ & Hpay).
    fold old in Htb, Hpay.
    change (edit_selected_tactics _ s)
      with (onDefenseSecondaryChange true scheme s) in Htb, Hpay.
    split_and!.
    + rewrite Htb, lookup_insert_eq. cbn. by destruct (String.eqb scheme "none").
    + intros ->. eexists. split; [exact Hpay|]. by vm_compute.
    + intros Hne Hprim. rewrite Hpay, (payload_of_selected f s u Hu Htr).
      fold old. apply String.eqb_neq in Hne. rewrite Hne. cbn.
      do 2 f_equal. unfold project_tactics. cbn. rewrite Hprim.
      by destruct (defenseSecondaryWeight old).
Qed.

(** X19, witness: Atlanta on its default profile drops the secondary
    offense scheme, then picks another one. *)
Lemma X19_witness :
  (∃ p, snd (buildTacticsForTeam "ATL" 1
               (onOffenseSecondaryChange true "none" Demo.atl_selected))
        = Some (UserPayload p)
        ∧ (scheme_weight_sharpness p == 2)%Q
        ∧ (scheme_outcome_strength p == 2 # 10)%Q)
  ∧ snd (buildTacticsForTeam "ATL" 1
           (onOffenseSecondaryChange true "motion" Demo.atl_selected))
    = snd (buildTacticsForTeam "ATL" 1 Demo.atl_selected).
Proof.
  split.
  - destruct (X19_secondary_scheme_choice "none" 1 Demo.atl_selected
                {| t_id := "ATL"; t_name := "Atlanta Hawks" |} eq_refl eq_refl)
      as [(_ & H & _) _].
    exact (H eq_refl).
  - destruct (X19_secondary_scheme_choice "motion" 1 Demo.atl_selected
                {| t_id := "ATL"; t_name := "Atlanta Hawks" |} eq_refl eq_refl)
      as [(_ & _ & H) _].
    apply H; [discriminate|reflexivity].
Defined.

(** ** Lineup editor: what the buttons keep true *)

Lemma set_add_elem x y l : y ∈ set_add x l ↔ y = x ∨ y ∈ l.
Proof.
  unfold set_add, set_has. case_bool_decide as Hx.
  - split; [by right|]. intros [->|]; done.
  - rewrite elem_of_app, list_elem_of_singleton. tauto.
Qed.

Lemma set_add_NoDup x l : NoDup l → NoDup (set_add x l).
Proof.
  intros Hl. unfold set_add, set_has. case_bool_decide as Hx; [done|].
  apply NoDup_app. split_and!; [done| |apply NoDup_singleton].
  intros y Hy ->%list_elem_of_singleton. done.
Qed.

Lemma set_add_length x l :
  length (set_add x l) = if set_has x l then length l else S (length l).
Proof.
  unfold set_add. destruct (set_has x l); [done|].
  rewrite length_app. simpl. lia.
Qed.

Lemma set_has_true x l : set_has x l = true ↔ x ∈ l.
Proof. unfold set_has. apply bool_decide_eq_true. Qed.

Lemma set_has_false x l : set_has x l = false ↔ x ∉ l.
Proof. unfold set_has. apply bool_decide_eq_false. Qed.

Lemma set_delete_elem x y l : y ∈ set_delete x l ↔ y ≠ x ∧ y ∈ l.
Proof. unfold set_delete. by rewrite list_elem_of_filter. Qed.

Lemma set_delete_NoDup x l : NoDup l → NoDup (set_delete x l).
Proof. apply NoDup_filter. Qed.

Lemma set_delete_absent x l : x ∉ l → set_delete x l = l.
Proof.
  intros Hx. unfold set_delete. induction l as [|a l IH]; [done|].
  apply not_elem_of_cons in Hx as [Hne Hx].
  rewrite filter_cons_True by done. by rewrite IH.
Qed.

Lemma set_delete_length_le x l : (length (set_delete x l) ≤ length l)%nat.
Proof. apply length_filter. Qed.

Lemma set_delete_length x l :
  NoDup l → x ∈ l → S (length (set_delete x l)) = length l.
Proof.
  unfold set_delete. induction 1 as [|a l Ha Hl IH]; intros Hx.
  - by apply elem_of_nil in Hx.
  - destruct (decide (a = x)) as [->|Hne].
    + rewrite filter_cons_False by (intros ?; done).
      fold (set_delete x l). by rewrite set_delete_absent.
    + rewrite filter_cons_True by done. simpl.
      apply elem_of_cons in Hx as [->|Hx]; [done|]. by rewrite IH.
Qed.

Lemma set_delete_add x l : x ∉ l → set_delete x (set_add x l) = l.
Proof.
  intros Hx. unfold set_add. rewrite (proj2 (set_has_false x l)) by done.
  unfold set_delete. rewrite filter_app.
  fold (set_delete x l). rewrite set_delete_absent by done.
  rewrite filter_cons_False by (intros ?; done). by rewrite app_nil_r.
Qed.

Lemma set_fold_spec (l acc : list string) :
  NoDup acc →
  NoDup (foldl (λ a x, set_add x a) acc l)
  ∧ (∀ y, y ∈ foldl (λ a x, set_add x a) acc l ↔ y ∈ acc ∨ y ∈ l)
  ∧ (length (foldl (λ a x, set_add x a) acc l) ≤ length acc + length l)%nat
  ∧ (NoDup (acc ++ l) → foldl (λ a x, set_add x a) acc l = acc ++ l).
Proof.
  revert acc. induction l as [|x l IH]; intros acc Hacc; simpl.
  - split_and!; [done| |lia|by rewrite app_nil_r].
    intros y. rewrite elem_of_nil. tauto.
  - destruct (IH (set_add x acc) (set_add_NoDup x acc Hacc))
      as (Hnd & Hel & Hlen & Heq).
    split_and!; [done| | |].
    + intros y. rewrite Hel, set_add_elem, elem_of_cons. tauto.
    + rewrite set_add_length in Hlen. destruct (set_has x acc); lia.
    + intros Hall.
      assert (Hx : x ∉ acc).
      { apply NoDup_app in Hall as (_ & Hdisj & _). intros Hin.
        apply (Hdisj x Hin). apply elem_of_cons. by left. }
      assert (Hadd : set_add x acc = acc ++ [x]).
      { unfold set_add. by rewrite (proj2 (set_has_false x acc)). }
      rewrite Hadd in Heq |- *. rewrite Heq.
      * by rewrite <- app_assoc.
      * rewrite <- app_assoc. exact Hall.
Qed.

Lemma set_of_NoDup l : NoDup (set_of l).
Proof. apply (set_fold_spec l []), NoDup_nil_2. Qed.

Lemma set_of_elem l y : y ∈ set_of l ↔ y ∈ l.
Proof.
  destruct (set_fold_spec l [] (NoDup_nil_2)) as (_ & H & _).
  unfold set_of. rewrite H, elem_of_nil. tauto.
Qed.

Lemma set_of_elem_1 l y : y ∈ set_of l → y ∈ l.
Proof. apply set_of_elem. Qed.

Lemma set_of_length l : (length (set_of l) ≤ length l)%nat.
Proof.
  destruct (set_fold_spec l [] (NoDup_nil_2)) as (_ & _ & H & _). exact H.
Qed.

Lemma set_of_id l : NoDup l → set_of l = l.
Proof.
  destruct (set_fold_spec l [] (NoDup_nil_2)) as (_ & _ & _ & H). exact H.
Qed.

(** The players picked by a set of ids off a roster with distinct ids are
    no more than the ids. *)
Lemma picked_length (players : list Player) (ids : list string) :
  NoDup (player_id <$> players) →
  (length (filter (λ p, player_id p ∈ ids) players) ≤ length ids)%nat.
Proof.
  intros Hnd.
  rewrite <- (length_fmap player_id (filter _ players)).
  apply submseteq_length, NoDup_submseteq.
  - eapply sublist_NoDup; [exact Hnd|]. apply fmap_sublist, sublist_filter.
  - intros x (p & -> & Hp)%list_elem_of_fmap.
    by apply list_elem_of_filter in Hp as [Hp _].
Qed.

Lemma picked_ids_NoDup (players : list Player) (P : Player → Prop)
    `{∀ p, Decision (P p)} n :
  NoDup (player_id <$> players) →
  NoDup (player_id <$> take n (filter P players)).
Proof.
  intros Hnd. eapply sublist_NoDup; [exact Hnd|].
  apply fmap_sublist. etransitivity; [apply sublist_take|apply sublist_filter].
Qed.

Lemma gtb_false a b : (a >? b) = false ↔ a ≤ b.
Proof. rewrite Z.gtb_ltb, Z.ltb_ge. done. Qed.

(** The rendering of a lineup that is already disjoint, within the roster
    and within the limits keeps its members. *)
Lemma render_ok (players : list Player) (rot : option Z) (ns nb : list string) :
  NoDup (player_id <$> players) →
  (∀ x, x ∈ ns → x ∉ nb) →
  (Z.of_nat (length (set_of ns)) ≤ int_or rot 9 ∨ 5 ≤ int_or rot 9) →
  lineup_ok (renderTacticsLineup players
               {| lu_rotationSize := rot; lu_starters := Some ns;
                  lu_bench := Some nb |}).
Proof.
  intros Hnd Hdisj Hrot.
  unfold renderTacticsLineup.
  cbn [lu_rotationSize lu_starters lu_bench].
  change (default [] (Some ns)) with ns.
  change (default [] (Some nb)) with nb.
  set (startersList := take 5 (filter (λ p, player_id p ∈ set_of ns) players)).
  set (benchAll := filter (λ p, player_id p ∈ set_of nb) players).
  set (maxBench := Z.max 0 (int_or rot 9 - Z.of_nat (length startersList))).
  set (benchList := if Z.of_nat (length benchAll) >? maxBench
                    then take (Z.to_nat maxBench) benchAll else benchAll).
  assert (Hs5 : (length startersList ≤ 5)%nat).
  { unfold startersList. rewrite length_take. lia. }
  assert (Hsl : (length startersList ≤ length (set_of ns))%nat).
  { unfold startersList. rewrite length_take.
    pose proof (picked_length players (set_of ns) Hnd). lia. }
  assert (Hsmem : ∀ x, x ∈ player_id <$> startersList →
            x ∈ ns ∧ x ∈ player_id <$> players).
  { intros x (p & -> & Hp)%list_elem_of_fmap. unfold startersList in Hp.
    apply elem_of_take in Hp as (i & Hp & _).
    apply list_elem_of_lookup_2 in Hp.
    apply list_elem_of_filter in Hp as [Hin Hp].
    split; [by apply set_of_elem|]. apply list_elem_of_fmap. by exists p. }
  assert (Hbsub : sublist benchList benchAll).
  { unfold benchList. destruct (_ >? _); [apply sublist_take|done]. }
  assert (Hbmem : ∀ x, x ∈ player_id <$> benchList →
            x ∈ nb ∧ x ∈ player_id <$> players).
  { intros x (p & -> & Hp)%list_elem_of_fmap.
    eapply elem_of_sublist in Hp; [|exact Hbsub].
    apply list_elem_of_filter in Hp as [Hin Hp].
    split; [by apply set_of_elem|]. apply list_elem_of_fmap. by exists p. }
  assert (Hbl : Z.of_nat (length benchList) ≤ maxBench).
  { unfold benchList. destruct (_ >? _) eqn:Hgt.
    - rewrite length_take. unfold maxBench in *. lia.
    - by apply gtb_false. }
  unfold lineup_ok.
  cbn [normalizedStarters normalizedBench ed_rotationSize ed_players ed_tactics
       lu_starters lu_bench lu_rotationSize].
  split_and!; try done.
  - apply set_of_NoDup.
  - apply set_of_NoDup.
  - intros x Hx%set_of_elem_1 Hb%set_of_elem_1.
    apply Hsmem in Hx as [Hx _]. apply Hbmem in Hb as [Hb _].
    by apply (Hdisj x).
  - pose proof (set_of_length (player_id <$> startersList)) as Hl.
    rewrite length_fmap in Hl. lia.
  - pose proof (set_of_length (player_id <$> startersList)) as Hl1.
    pose proof (set_of_length (player_id <$> benchList)) as Hl2.
    rewrite length_fmap in Hl1, Hl2. unfold maxBench in Hbl. lia.
  - intros x [Hx%set_of_elem_1|Hx%set_of_elem_1]%elem_of_app.
    + by apply Hsmem.
    + by apply Hbmem.
Qed.

Lemma commit_lineup_ok (ns nb : list string) (e : LineupEditor) :
  NoDup (player_id <$> ed_players e) →
  int_or (lu_rotationSize (ed_tactics e)) 9 = ed_rotationSize e →
  (∀ x, x ∈ ns → x ∉ nb) →
  Z.of_nat (length ns) ≤ ed_rotationSize e →
  lineup_ok (commit_lineup ns nb e)
  ∧ ed_players (commit_lineup ns nb e) = ed_players e
  ∧ ed_rotationSize (commit_lineup ns nb e) = ed_rotationSize e.
Proof.
  intros Hnd Hrot Hdisj Hlen. split_and!; [|done|exact Hrot].
  apply render_ok; [done..|]. left. rewrite Hrot.
  pose proof (set_of_length ns). lia.
Qed.

Lemma clickStarter_ok (pid : string) (e : LineupEditor) :
  NoDup (player_id <$> ed_players e) → lineup_ok e →
  lineup_ok (fst (clickStarter pid e))
  ∧ ed_players (fst (clickStarter pid e)) = ed_players e
  ∧ ed_rotationSize (fst (clickStarter pid e)) = ed_rotationSize e.
Proof.
  intros Hnd Hok.
  pose proof Hok as (Hns & Hnb & Hdisj & H5 & Htot & Hmem & Hst & Hbn & Hrot).
  unfold clickStarter.
  destruct (set_has pid (normalizedStarters e)) eqn:Hhas.
  - pose proof (set_delete_length_le pid (normalizedStarters e)) as Hle.
    rewrite (proj2 (gtb_false _ _)) by lia. cbn [fst].
    apply commit_lineup_ok; [done..| |lia].
    intros x [_ Hx]%set_delete_elem. by apply Hdisj.
  - apply set_has_false in Hhas.
    destruct (5 <=? length (normalizedStarters e))%nat eqn:Hfull; [done|].
    apply Nat.leb_gt in Hfull.
    pose proof (set_add_length pid (normalizedStarters e)) as Hadd.
    rewrite (proj2 (set_has_false _ _) Hhas) in Hadd.
    destruct (Z.of_nat _ >? ed_rotationSize e) eqn:Hover; cbn [fst].
    + apply Z.gtb_lt in Hover.
      assert (Hnot : pid ∉ normalizedBench e).
      { intros Hin.
        pose proof (set_delete_length pid _ Hnb Hin). lia. }
      rewrite set_delete_add, set_delete_absent by done.
      unfold lineup_ok. cbn. split_and!; done.
    + apply gtb_false in Hover.
      apply commit_lineup_ok; [done..| |lia].
      intros x [->|Hx]%set_add_elem [Hne Hb]%set_delete_elem; [done|].
      by apply (Hdisj x).
Qed.

Lemma clickBench_ok (pid : string) (e : LineupEditor) :
  NoDup (player_id <$> ed_players e) → lineup_ok e →
  lineup_ok (fst (clickBench pid e))
  ∧ ed_players (fst (clickBench pid e)) = ed_players e
  ∧ ed_rotationSize (fst (clickBench pid e)) = ed_rotationSize e.
Proof.
  intros Hnd Hok.
  pose proof Hok as (Hns & Hnb & Hdisj & H5 & Htot & Hmem & Hst & Hbn & Hrot).
  unfold clickBench.
  destruct (set_has pid (normalizedBench e)) eqn:Hhas; cbn [fst].
  - apply commit_lineup_ok; [done..| |lia].
    intros x Hx [_ Hb]%set_delete_elem. by apply (Hdisj x).
  - destruct (Z.of_nat _ >=? ed_rotationSize e) eqn:Hfull; cbn [fst]; [done|].
    pose proof (set_delete_length_le pid (normalizedStarters e)) as Hle.
    apply commit_lineup_ok; [done..| |lia].
    intros x [Hne Hx]%set_delete_elem [->|Hb]%set_add_elem; [done|].
    by apply (Hdisj x).
Qed.

Lemma onRotationChange_ok (size : Z) (e : LineupEditor) :
  5 ≤ size → NoDup (player_id <$> ed_players e) → lineup_ok e →
  lineup_ok (onRotationChange size (ed_players e) e)
  ∧ ed_players (onRotationChange size (ed_players e) e) = ed_players e.
Proof.
  intros Hsize Hnd (Hns & Hnb & Hdisj & H5 & Htot & Hmem & Hst & Hbn & Hrot).
  split; [|done]. unfold onRotationChange. rewrite Hst, Hbn.
  apply render_ok; [done..|]. right. unfold int_or.
  destruct (Z.eqb_spec size 0); lia.
Qed.

Lemma lineup_steps_ok (actions : list LineupAction) (e : LineupEditor) :
  NoDup (player_id <$> ed_players e) → lineup_ok e →
  Forall rotation_fits actions →
  lineup_ok (foldl lineup_step e actions)
  ∧ ed_players (foldl lineup_step e actions) = ed_players e.
Proof.
  revert e. induction actions as [|a actions IH]; intros e Hnd Hok Hfit.
  - done.
  - apply Forall_cons in Hfit as [Ha Hfit]. simpl.
    assert (Hstep : lineup_ok (lineup_step e a)
                    ∧ ed_players (lineup_step e a) = ed_players e).
    { destruct a as [pid|pid|size]; simpl.
      - by destruct (clickStarter_ok pid e Hnd Hok) as (? & ? & _).
      - by destruct (clickBench_ok pid e Hnd Hok) as (? & ? & _).
      - by apply onRotationChange_ok. }
    destruct Hstep as [Hok' Hpl].
    destruct (IH (lineup_step e a)) as [Hfin Hpl']; [by rewrite Hpl|done..|].
    split; [done|]. by rewrite Hpl', Hpl.
Qed.

(** X20. The lineup editor keeps the lineup of a profile sound. On a roster
    whose player ids are distinct, starting from the default profile and
    after any sequence of clicks on starter and bench buttons and of
    changes of the rotation size to 5 or more, the starters and the bench
    stored in the profile have no player twice, nobody is in both, all are
    players of the roster, there are at most 5 starters, and starters and
    bench together are no more than the rotation size. *)
Theorem X20_lineup_stays_sound
    (players : list Player) (actions : list LineupAction) :
  NoDup (player_id <$> players) → Forall rotation_fits actions →
  let e := foldl lineup_step (renderTacticsLineup players default_lineup)
             actions in
  ∃ st bn,
    lu_starters (ed_tactics e) = Some st ∧ lu_bench (ed_tactics e) = Some bn
    ∧ NoDup (st ++ bn)
    ∧ (∀ x, x ∈ st ++ bn → x ∈ player_id <$> players)
    ∧ (length st ≤ 5)%nat
    ∧ Z.of_nat (length st + length bn)
      ≤ int_or (lu_rotationSize (ed_tactics e)) 9.
Proof.
  intros Hnd Hfit e.
  assert (Hinit : lineup_ok (renderTacticsLineup players default_lineup)).
  { apply render_ok; [done| |by right]. intros x Hx. by apply elem_of_nil in Hx. }
  destruct (lineup_steps_ok actions (renderTacticsLineup players default_lineup))
    as [Hok Hpl]; [done..|].
  fold e in Hok, Hpl.
  destruct Hok as (Hns & Hnb & Hdisj & H5 & Htot & Hmem & Hst & Hbn & Hrot).
  exists (normalizedStarters e), (normalizedBench e).
  split_and!; [done..| | |done|by rewrite Hrot].
  - apply NoDup_app. done.
  - intros x Hx. apply Hmem in Hx. rewrite Hpl in Hx. exact Hx.
Qed.

(** X20, witness: a session on a roster of seven. *)
Lemma X20_witness :
  ∃ st bn,
    lu_starters
      (ed_tactics (foldl lineup_step
                     (renderTacticsLineup LineupDemo.roster default_lineup)
                     LineupDemo.session)) = Some st
    ∧ lu_bench
        (ed_tactics (foldl lineup_step
                       (renderTacticsLineup LineupDemo.roster default_lineup)
                       LineupDemo.session)) = Some bn
    ∧ NoDup (st ++ bn) ∧ (length st ≤ 5)%nat.
Proof.
  destruct (X20_lineup_stays_sound LineupDemo.roster LineupDemo.session)
    as (st & bn & Hst & Hbn & Hnd & _ & H5 & _).
  - apply (bool_decide_unpack _). by vm_compute.
  - unfold LineupDemo.session. repeat constructor; simpl; lia.
  - exists st, bn. split_and!; assumption.
Defined.

Lemma render_members (players : list Player) (rot : option Z)
    (ns nb : list string) :
  NoDup (player_id <$> players) →
  (length ns ≤ 5)%nat → Z.of_nat (length ns + length nb) ≤ int_or rot 9 →
  let e := renderTacticsLineup players
             {| lu_rotationSize := rot; lu_starters := Some ns;
                lu_bench := Some nb |} in
  (∀ x, x ∈ normalizedStarters e ↔ x ∈ ns ∧ x ∈ player_id <$> players)
  ∧ (∀ x, x ∈ normalizedBench e ↔ x ∈ nb ∧ x ∈ player_id <$> players).
Proof.
  intros Hnd H5 Htot e. unfold e, renderTacticsLineup.
  cbn [lu_rotationSize lu_starters lu_bench normalizedStarters normalizedBench].
  change (default [] (Some ns)) with ns.
  change (default [] (Some nb)) with nb.
  pose proof (picked_length players (set_of ns) Hnd) as Hp1.
  pose proof (picked_length players (set_of nb) Hnd) as Hp2.
  pose proof (set_of_length ns) as Hl1.
  pose proof (set_of_length nb) as Hl2.
  rewrite (take_ge (filter _ players)) by lia.
  rewrite (proj2 (gtb_false _ _)) by lia.
  assert (Hpick : ∀ ids x,
            x ∈ set_of (player_id <$> filter (λ p, player_id p ∈ set_of ids) players)
            ↔ x ∈ ids ∧ x ∈ player_id <$> players).
  { intros ids x. rewrite set_of_elem, list_elem_of_fmap. split.
    - intros (p & -> & Hp). apply list_elem_of_filter in Hp as [Hin Hp].
      split; [by apply set_of_elem|]. apply list_elem_of_fmap. by exists p.
    - intros [Hx (p & -> & Hp)%list_elem_of_fmap]. exists p. split; [done|].
      apply list_elem_of_filter. split; [by apply set_of_elem|done]. }
  split; intros x; apply Hpick.
Qed.

Lemma commit_members (ns nb : list string) (e : LineupEditor) :
  NoDup (player_id <$> ed_players e) → lineup_ok e →
  (∀ x, x ∈ ns ++ nb → x ∈ player_id <$> ed_players e) →
  (length ns ≤ 5)%nat → Z.of_nat (length ns + length nb) ≤ ed_rotationSize e →
  (∀ x, x ∈ normalizedStarters (commit_lineup ns nb e) ↔ x ∈ ns)
  ∧ (∀ x, x ∈ normalizedBench (commit_lineup ns nb e) ↔ x ∈ nb).
Proof.
  intros Hnd Hok Hmem H5 Htot.
  destruct Hok as (_ & _ & _ & _ & _ & _ & _ & _ & Hrot).
  destruct (render_members (ed_players e) (lu_rotationSize (ed_tactics e))
              ns nb Hnd H5) as [Hs Hb]; [by rewrite Hrot|].
  split; intros x.
  - unfold commit_lineup. rewrite Hs. split; [tauto|]. intros Hx.
    split; [done|]. apply Hmem, elem_of_app. by left.
  - unfold commit_lineup. rewrite Hb. split; [tauto|]. intros Hx.
    split; [done|]. apply Hmem, elem_of_app. by right.
Qed.

(** X21. What a click does, on a sound lineup and a roster with distinct
    ids. The starter button takes a starter out and refuses a sixth
    starter with an alert; with fewer than five starters it promotes a
    bench player (which always fits) and refuses an unassigned player with
    an alert when the rotation is full. The bench button takes a bench
    player out and adds a player while there is room; when the rotation is
    full it refuses with an alert even a starter, whose move to the bench
    would not add anybody. A refused click changes nothing. *)
Theorem X21_what_a_click_does (pid : string) (e : LineupEditor) :
  NoDup (player_id <$> ed_players e) → lineup_ok e →
  pid ∈ player_id <$> ed_players e →
  let ns := normalizedStarters e in
  let nb := normalizedBench e in
  let total := Z.of_nat (length ns + length nb) in
  (pid ∈ ns →
     snd (clickStarter pid e) = []
     ∧ (∀ x, x ∈ normalizedStarters (fst (clickStarter pid e)) ↔ x ∈ ns ∧ x ≠ pid)
     ∧ (∀ x, x ∈ normalizedBench (fst (clickStarter pid e)) ↔ x ∈ nb))
  ∧ (pid ∉ ns → length ns = 5%nat →
     clickStarter pid e = (e, [AlertMaxStarters]))
  ∧ (pid ∈ nb → (length ns < 5)%nat →
     snd (clickStarter pid e) = []
     ∧ (∀ x, x ∈ normalizedStarters (fst (clickStarter pid e)) ↔ x = pid ∨ x ∈ ns)
     ∧ (∀ x, x ∈ normalizedBench (fst (clickStarter pid e)) ↔ x ∈ nb ∧ x ≠ pid))
  ∧ (pid ∉ ns → pid ∉ nb → (length ns < 5)%nat → total = ed_rotationSize e →
     snd (clickStarter pid e) = [AlertRotationFull (ed_rotationSize e)]
     ∧ normalizedStarters (fst (clickStarter pid e)) = ns
     ∧ normalizedBench (fst (clickStarter pid e)) = nb
     ∧ ed_tactics (fst (clickStarter pid e)) = ed_tactics e)
  ∧ (pid ∈ nb →
     snd (clickBench pid e) = []
     ∧ (∀ x, x ∈ normalizedBench (fst (clickBench pid e)) ↔ x ∈ nb ∧ x ≠ pid)
     ∧ (∀ x, x ∈ normalizedStarters (fst (clickBench pid e)) ↔ x ∈ ns))
  ∧ (pid ∉ nb → total < ed_rotationSize e →
     snd (clickBench pid e) = []
     ∧ (∀ x, x ∈ normalizedBench (fst (clickBench pid e)) ↔ x = pid ∨ x ∈ nb)
     ∧ (∀ x, x ∈ normalizedStarters (fst (clickBench pid e)) ↔ x ∈ ns ∧ x ≠ pid))
  ∧ (pid ∉ nb → total = ed_rotationSize e →
     clickBench pid e = (e, [AlertRotationFull (ed_rotationSize e)])).
Proof.
  intros Hnd Hok Hpid ns nb total.
  pose proof Hok as (Hns & Hnb & Hdisj & H5 & Htot & Hmem & Hst & Hbn & Hrot).
  fold ns nb in Hns, Hnb, Hdisj, H5, Htot, Hmem.
  assert (Hin_s : ∀ x, x ∈ ns → x ∈ player_id <$> ed_players e).
  { intros x Hx. apply Hmem, elem_of_app. by left. }
  assert (Hin_b : ∀ x, x ∈ nb → x ∈ player_id <$> ed_players e).
  { intros x Hx. apply Hmem, elem_of_app. by right. }
  pose proof (set_delete_length_le pid ns) as Hdl_s.
  pose proof (set_delete_length_le pid nb) as Hdl_b.
  split_and!.
  - intros Hin. unfold clickStarter. fold ns nb.
    rewrite (proj2 (set_has_true pid ns) Hin).
    rewrite (proj2 (gtb_false _ _)) by lia. cbn [fst snd].
    destruct (commit_members (set_delete pid ns) nb e) as [Hs Hb];
      [done..| | lia | lia |].
    { intros x [[_ Hx]%set_delete_elem|Hx]%elem_of_app; auto. }
    split_and!; [done| |done].
    intros x. rewrite Hs, set_delete_elem. tauto.
  - intros Hnot Hlen. unfold clickStarter. fold ns nb.
    rewrite (proj2 (set_has_false pid ns) Hnot), Hlen. done.
  - intros Hin Hlen.
    assert (Hnot : pid ∉ ns) by (intros Hs; by apply (Hdisj pid)).
    pose proof (set_delete_length pid nb Hnb Hin) as Hdl.
    pose proof (set_add_length pid ns) as Hal.
    rewrite (proj2 (set_has_false pid ns) Hnot) in Hal.
    unfold clickStarter. fold ns nb.
    rewrite (proj2 (set_has_false pid ns) Hnot).
    rewrite (proj2 (Nat.leb_gt 5 (length ns))) by lia.
    rewrite (proj2 (gtb_false _ _)) by lia. cbn [fst snd].
    destruct (commit_members (set_add pid ns) (set_delete pid nb) e)
      as [Hs Hb]; [done..| | lia | lia |].
    { intros x [[->|Hx]%set_add_elem|[_ Hx]%set_delete_elem]%elem_of_app; auto. }
    split_and!; [done| |].
    + intros x. rewrite Hs, set_add_elem. tauto.
    + intros x. rewrite Hb, set_delete_elem. tauto.
  - intros Hnot_s Hnot_b Hlen Hfull.
    pose proof (set_add_length pid ns) as Hal.
    rewrite (proj2 (set_has_false pid ns) Hnot_s) in Hal.
    unfold clickStarter. fold ns nb.
    rewrite (proj2 (set_has_false pid ns) Hnot_s).
    rewrite (proj2 (Nat.leb_gt 5 (length ns))) by lia.
    rewrite (set_delete_absent pid nb) by done.
    rewrite (proj2 (Z.gtb_lt _ _)) by (unfold total in Hfull; lia).
    cbn [fst snd]. rewrite set_delete_add by done. done.
  - intros Hin. unfold clickBench. fold ns nb.
    rewrite (proj2 (set_has_true pid nb) Hin). cbn [fst snd].
    destruct (commit_members ns (set_delete pid nb) e) as [Hs Hb];
      [done..| | lia | lia |].
    { intros x [Hx|[_ Hx]%set_delete_elem]%elem_of_app; auto. }
    split_and!; [done| |done].
    intros x. rewrite Hb, set_delete_elem. tauto.
  - intros Hnot Hroom. unfold total in Hroom.
    pose proof (set_add_length pid nb) as Hal.
    rewrite (proj2 (set_has_false pid nb) Hnot) in Hal.
    unfold clickBench. fold ns nb.
    rewrite (proj2 (set_has_false pid nb) Hnot).
    assert (Hge : (Z.of_nat (length ns + length nb) >=? ed_rotationSize e) = false).
    { rewrite Z.geb_leb. apply Z.leb_gt. lia. }
    rewrite Hge. cbn [fst snd].
    destruct (commit_members (set_delete pid ns) (set_add pid nb) e)
      as [Hs Hb]; [done..| | lia | lia |].
    { intros x [[_ Hx]%set_delete_elem|[->|Hx]%set_add_elem]%elem_of_app; auto. }
    split_and!; [done| |].
    + intros x. rewrite Hb, set_add_elem. tauto.
    + intros x. rewrite Hs, set_delete_elem. tauto.
  - intros Hnot Hfull. unfold total in Hfull.
    unfold clickBench. fold ns nb.
    rewrite (proj2 (set_has_false pid nb) Hnot).
    assert (Hge : (Z.of_nat (length ns + length nb) >=? ed_rotationSize e) = true).
    { rewrite Z.geb_leb. apply Z.leb_le. lia. }
    by rewrite Hge.
Qed.

(** X21, witness: with five starters and one bench player in a rotation of
    6, the bench button of a starter is refused. *)
Lemma X21_witness :
  clickBench "p1" LineupDemo.full
  = (LineupDemo.full, [AlertRotationFull 6]).
Proof.
  assert (Hnd : NoDup (player_id <$> ed_players LineupDemo.full)).
  { apply (bool_decide_unpack _). by vm_compute. }
  assert (Hok : lineup_ok LineupDemo.full).
  { unfold lineup_ok. split_and!; try reflexivity.
    - apply (bool_decide_unpack _). by vm_compute.
    - apply (bool_decide_unpack _). by vm_compute.
    - apply (proj1 (Forall_forall _ _)).
      apply (bool_decide_unpack _). by vm_compute.
    - apply (proj1 (Forall_forall _ _)).
      apply (bool_decide_unpack _). by vm_compute. }
  destruct (X21_what_a_click_does "p1" LineupDemo.full Hnd Hok)
    as (_ & _ & _ & _ & _ & _ & H).
  - apply (bool_decide_unpack _). by vm_compute.
  - apply H; [|reflexivity]. apply (bool_decide_unpack _). by vm_compute.
Defined.

(** ** Postseason flow: requests, alerts and the screen *)

Lemma refresh_page_cases (a : RefreshAnswers) (p : Page) :
  (∃ ok body,
     state_answer a = Parsed ok body
     ∧ refresh_page a p
       = (store_playoff_news (news_answer a)
            (store_playoff_stats (stats_answer a)
               (set_page_app
                  (set_postseason
                     (match body with JNull => None | b => Some b end)
                     (page_app p)) p)),
          Completes,
          [Get "/api/postseason/state"; Get "/api/stats/playoffs/leaders";
           PostJson "/api/news/playoffs" EmptyObject]))
  ∨ ((∀ ok body, state_answer a ≠ Parsed ok body)
     ∧ refresh_page a p = (p, Rejects, [Get "/api/postseason/state"])).
Proof.
  unfold refresh_page, refreshPostseasonState.
  destruct (state_answer a) as [ok body|ok|].
  - left. by exists ok, body.
  - right. done.
  - right. done.
Qed.

Lemma store_screen rs rn p :
  screen (store_playoff_news rn (store_playoff_stats rs p)) = screen p.
Proof. by destruct rs. Qed.

Lemma store_app rs rn p :
  page_app (store_playoff_news rn (store_playoff_stats rs p)) = page_app p.
Proof. by destruct rs. Qed.

(** X22. Entering the postseason. The playoff screen is shown exactly when
    a team is selected, the reset and setup requests were not rejected and
    the state request answered a body that parses; the status of none of
    the three answers is looked at, and what the leaders and news requests
    answer plays no part. An alert is raised exactly when no team is
    selected or the reset or the setup request was rejected. So when the
    state request fails after a setup that went through, the function ends
    in a rejected promise with no alert at all: the page and the state stay
    as they were although the server has been reset and set up. *)
Theorem X22_entering_the_postseason
    (reset setup : Settled) (a : RefreshAnswers) (p : Page) :
  screen p ≠ "playoff" →
  let run := startPostseasonFlow reset setup a p in
  let shown :=
    is_Some (selectedTeam (page_app p)) ∧ reset ≠ Refused ∧ setup ≠ Refused
    ∧ ∃ ok body, state_answer a = Parsed ok body in
  (screen (fst (fst run)) = "playoff" ↔ shown)
  ∧ (¬ shown → screen (fst (fst run)) = screen p
               ∧ page_app (fst (fst run)) = page_app p)
  ∧ (page_alerts (snd run) ≠ [] ↔
     selectedTeam (page_app p) = None ∨ reset = Refused ∨ setup = Refused)
  ∧ (∀ u, selectedTeam (page_app p) = Some u →
       reset ≠ Refused → setup ≠ Refused →
       (∀ ok body, state_answer a ≠ Parsed ok body) →
       run = (p, Rejects,
              [PostJson "/api/postseason/reset" NoBody;
               PostJson "/api/postseason/setup" (SetupBody (t_id u) false);
               Get "/api/postseason/state"]))
  ∧ (∀ u ok body, selectedTeam (page_app p) = Some u →
       reset ≠ Refused → setup ≠ Refused →
       state_answer a = Parsed ok body →
       snd (fst run) = Completes
       ∧ snd run
         = [PostJson "/api/postseason/reset" NoBody;
            PostJson "/api/postseason/setup" (SetupBody (t_id u) false);
            Get "/api/postseason/state"; Get "/api/stats/playoffs/leaders";
            PostJson "/api/news/playoffs" EmptyObject]
       ∧ postseason (page_app (fst (fst run)))
         = match body with JNull => None | b => Some b end).
Proof.
  intros Hscreen run shown. unfold run, shown, startPostseasonFlow.
  destruct (selectedTeam (page_app p)) as [u|] eqn:Hu.
  2:{ cbn. split_and!.
      - split; [done|]. by intros [[? ?] _].
      - done.
      - split; [by left|done].
      - done.
      - done. }
  destruct reset as [ok1|].
  2:{ cbn. split_and!.
      - split; [done|]. by intros (_ & ? & _).
      - done.
      - split; [right; by left|done].
      - done.
      - done. }
  destruct setup as [ok2|].
  2:{ cbn. split_and!.
      - split; [done|]. by intros (_ & _ & ? & _).
      - done.
      - split; [right; by right|done].
      - done.
      - done. }
  destruct (refresh_page_cases a p) as [(ok & body & Ha & ->)|[Hno ->]].
  - cbn. split_and!.
    + split; [|done]. intros _. split_and!; [by eexists|done..|by eexists _, _].
    + intros Hn. exfalso. apply Hn.
      split_and!; [by eexists|done..|by eexists _, _].
    + split; [done|]. by intros [?|[?|?]].
    + intros u' [= <-] _ _ Hall. by destruct (Hall ok body).
    + intros u' ok' body' [= <-] _ _ Hb. rewrite Ha in Hb.
      injection Hb as <- <-. split_and!; [done..|].
      by destruct (stats_answer a).
  - cbn. split_and!.
    + split; [done|]. intros (_ & _ & _ & ok & body & Hb).
      by destruct (Hno ok body).
    + done.
    + split; [done|]. by intros [?|[?|?]].
    + intros u' [= <-] _ _ _. done.
    + intros u' ok' body' _ _ _ Hb. by destruct (Hno ok' body').
Qed.

(** X22, witness: the state request fails behind a setup that went
    through; no alert, no playoff screen. *)
Lemma X22_witness :
  startPostseasonFlow (Resolved true) (Resolved true)
    PostseasonDemo.state_down PostseasonDemo.main_page
  = (PostseasonDemo.main_page, Rejects,
     [PostJson "/api/postseason/reset" NoBody;
      PostJson "/api/postseason/setup" (SetupBody "ATL" false);
      Get "/api/postseason/state"]).
Proof.
  destruct (X22_entering_the_postseason (Resolved true) (Resolved true)
              PostseasonDemo.state_down PostseasonDemo.main_page)
    as (_ & _ & _ & H & _); [discriminate|].
  apply (H {| t_id := "ATL"; t_name := "Atlanta Hawks" |});
    [reflexivity|discriminate..].
Defined.

Lemma play_and_refresh_cases url failed (game : Settled) (a : RefreshAnswers)
    (p : Page) :
  let run := play_and_refresh url failed true game a p in
  snd (fst run) = Completes
  ∧ (length (page_alerts (snd run)) ≤ 1)%nat
  ∧ (page_alerts (snd run) = [] ↔
     game ≠ Refused ∧ ∃ ok body, state_answer a = Parsed ok body)
  ∧ (game = Refused → run = (p, Completes, [PostJson url EmptyObject; PageAlert failed]))
  ∧ (∀ ok, game = Resolved ok →
       (∀ ok' body, state_answer a ≠ Parsed ok' body) →
       run = (p, Completes,
              [PostJson url EmptyObject; Get "/api/postseason/state";
               PageAlert failed]))
  ∧ (∀ ok ok' body, game = Resolved ok → state_answer a = Parsed ok' body →
       snd run
       = [PostJson url EmptyObject; Get "/api/postseason/state";
          Get "/api/stats/playoffs/leaders";
          PostJson "/api/news/playoffs" EmptyObject]
       ∧ postseason (page_app (fst (fst run)))
         = match body with JNull => None | b => Some b end).
Proof.
  intros run. unfold run, play_and_refresh. cbn [negb].
  destruct game as [ok|].
  2:{ cbn. split_and!; try done; try lia. split; [done|]. by intros [? _]. }
  destruct (refresh_page_cases a p) as [(ok' & body & Ha & ->)|[Hno ->]].
  - cbn. split_and!; try done; try lia.
    + split; [|done]. intros _. split; [done|]. by eexists _, _.
    + intros ? _ Hall. by destruct (Hall ok' body).
    + intros ? ok'' body' _ Hb. rewrite Ha in Hb. injection Hb as <- <-.
      split; [done|]. by destruct (stats_answer a).
  - cbn. split_and!; try done; try lia.
    + split; [done|]. intros (_ & ok' & body & Hb). by destruct (Hno ok' body).
    + intros ? ok' body _ Hb. by destruct (Hno ok' body).
Qed.

(** X23. The three postseason buttons. No handler lets an error out, and
    each raises at most one alert. The game handlers never look at the
    status of the answer to their request: an answer with an error status
    is followed by the same refresh as a good one, with no alert, and only
    a rejected request or a state request that fails raises the alert. The
    auto-advance handler does look: a round the server refuses is reported
    with the detail of the answer, and then nothing is refreshed and the
    page is as it was. *)
Theorem X23_postseason_buttons
    (advance : Fetched (option string)) (game : Settled)
    (a : RefreshAnswers) (p : Page) :
  let state_parses := ∃ ok body, state_answer a = Parsed ok body in
  let auto := handleAutoAdvanceRound true advance a p in
  let playoff := handlePlayoffGame true game a p in
  let play_in := handlePlayInGame true game a p in
  (snd (fst auto) = Completes ∧ snd (fst playoff) = Completes
   ∧ snd (fst play_in) = Completes)
  ∧ ((length (page_alerts (snd auto)) ≤ 1)%nat
     ∧ (length (page_alerts (snd playoff)) ≤ 1)%nat
     ∧ (length (page_alerts (snd play_in)) ≤ 1)%nat)
  ∧ (page_alerts (snd playoff) = [] ↔ game ≠ Refused ∧ state_parses)
  ∧ (page_alerts (snd play_in) = [] ↔ game ≠ Refused ∧ state_parses)
  ∧ (page_alerts (snd auto) = [] ↔
     (advance = NotParsed true ∨ ∃ d, advance = Parsed true d) ∧ state_parses)
  ∧ (∀ ok ok' body, game = Resolved ok → state_answer a = Parsed ok' body →
       snd playoff
       = [PostJson "/api/postseason/playoffs/advance-my-team-game" EmptyObject;
          Get "/api/postseason/state"; Get "/api/stats/playoffs/leaders";
          PostJson "/api/news/playoffs" EmptyObject]
       ∧ postseason (page_app (fst (fst playoff)))
         = match body with JNull => None | b => Some b end)
  ∧ (∀ d, advance = Parsed false d →
       auto = (p, Completes,
               [PostJson "/api/postseason/playoffs/auto-advance-round" EmptyObject;
                PageAlert (AlertAutoAdvanceRejected (str_or d ""))]))
  ∧ (advance = NotParsed false →
       auto = (p, Completes,
               [PostJson "/api/postseason/playoffs/auto-advance-round" EmptyObject;
                PageAlert (AlertAutoAdvanceRejected "")]))
  ∧ handleAutoAdvanceRound false advance a p = (p, Completes, [])
  ∧ handlePlayoffGame false game a p = (p, Completes, [])
  ∧ handlePlayInGame false game a p = (p, Completes, []).
Proof.
  intros state_parses auto playoff play_in.
  destruct (play_and_refresh_cases
              "/api/postseason/playoffs/advance-my-team-game"
              AlertPlayoffGameFailed game a p)
    as (Hc1 & Hl1 & Ha1 & _ & _ & Hok1).
  destruct (play_and_refresh_cases
              "/api/postseason/play-in/my-team-game"
              AlertPlayInGameFailed game a p)
    as (Hc2 & Hl2 & Ha2 & _ & _ & _).
  assert (Hauto :
    snd (fst auto) = Completes
    ∧ (length (page_alerts (snd auto)) ≤ 1)%nat
    ∧ (page_alerts (snd auto) = [] ↔
       (advance = NotParsed true ∨ ∃ d, advance = Parsed true d) ∧ state_parses)).
  { unfold auto, handleAutoAdvanceRound, state_parses. cbn [negb].
    destruct (refresh_page_cases a p) as [(ok' & body & Ha & ->)|[Hno ->]];
      destruct advance as [[|] d|[|]|]; cbn; split_and!; try done; try lia.
    all: split; try done.
    all: try (intros [[?|[? ?]] _]; done).
    all: try (intros _; split; [|by eexists _, _]).
    all: try (by left).
    all: try (right; by eexists).
    all: try (intros (_ & ok'' & body' & Hb); by destruct (Hno ok'' body')). }
  destruct Hauto as (Hc0 & Hl0 & Ha0).
  split_and!; try done.
  - intros d ->. done.
  - intros ->. done.
Qed.

(** X23, witness: the server refuses the playoff game with an error
    status; the handler refreshes the page and raises no alert. *)
Lemma X23_witness :
  page_alerts
    (snd (handlePlayoffGame true (Resolved false) PostseasonDemo.state_up
            PostseasonDemo.main_page)) = []
  ∧ postseason
      (page_app (fst (fst (handlePlayoffGame true (Resolved false)
                             PostseasonDemo.state_up
                             PostseasonDemo.main_page))))
    = Some (JData "postseason").
Proof.
  destruct (X23_postseason_buttons FetchRejected (Resolved false)
              PostseasonDemo.state_up PostseasonDemo.main_page)
    as (_ & _ & Hquiet & _ & _ & Hok & _).
  split.
  - apply Hquiet. split; [discriminate|]. by eexists _, _.
  - by destruct (Hok false true (JData "postseason") eq_refl eq_refl) as [_ ->].
Defined.

(** ** Season report on request *)

Lemma report_team_id_truthy (s : AppState) :
  ∃ tid, report_team_id s = Some tid ∧ str_truthy tid = true
         ∧ (∀ u, selectedTeam s = Some u → str_truthy (t_id u) = true →
              tid = t_id u)
         ∧ (selectedTeam s = None →
            ostr_truthy (teamId (schedule (cachedViews s))) = true →
            teamId (schedule (cachedViews s)) = Some tid)
         ∧ (selectedTeam s = None →
            ostr_truthy (teamId (schedule (cachedViews s))) = false →
            tid = "ATL").
Proof.
  unfold report_team_id.
  destruct (selectedTeam s) as [u|]; cbn.
  - destruct (str_truthy (t_id u)) eqn:Hu.
    + exists (t_id u). split_and!; try done. by intros ? [= <-].
    + destruct (teamId (schedule (cachedViews s))) as [t|]; cbn.
      * destruct (str_truthy t) eqn:Ht.
        -- exists t. split_and!; try done. intros ? [= <-]. congruence.
        -- exists "ATL". split_and!; try done. intros ? [= <-]. congruence.
      * exists "ATL". split_and!; try done. intros ? [= <-]. congruence.
  - destruct (teamId (schedule (cachedViews s))) as [t|]; cbn.
    + destruct (str_truthy t) eqn:Ht.
      * exists t. split_and!; done.
      * exists "ATL". split_and!; done.
    + exists "ATL". split_and!; done.
Qed.

(** X24. The season report asked for on request. Without an API key the
    function alerts and sends nothing. With a key it always sends exactly
    one request: the alert for a missing team can never be shown, because
    the team id falls back from the selected team to the team of the
    schedule and then to the first team of the table. An answer that is
    not OK or any exception leaves the state as it was and returns [null].
    An OK answer marks the report as ready and stores its trimmed text even
    when that text is empty, whereas the end of [simulateGameProgress]
    leaves the state as it was on an empty report. *)
Theorem X24_report_on_request
    (trim : string → string) (resp : Response ReportAnswer) (s : AppState) :
  let run := requestSeasonReportForUserTeam trim resp s in
  (ReportAlerted AlertNoTeamForReport ∉ snd run)
  ∧ (ostr_truthy (apiKey s) = false →
     run = (s, None, [ReportAlerted AlertApiKeyMissing]))
  ∧ (∀ k, apiKey s = Some k → str_truthy k = true →
     ∃ tid,
       str_truthy tid = true
       ∧ List.filter (λ e, match e with ReportRequest _ _ => true | _ => false end)
           (snd run) = [ReportRequest k tid]
       ∧ (∀ u, selectedTeam s = Some u → str_truthy (t_id u) = true →
            tid = t_id u)
       ∧ (selectedTeam s = None →
          ostr_truthy (teamId (schedule (cachedViews s))) = false →
          tid = "ATL")
       ∧ (∀ d, resp = RespOk d →
            run = (set_seasonReport (answer_text trim d) s,
                   Some (answer_text trim d), [ReportRequest k tid])
            ∧ seasonReportReady (fst (fst run)) = true)
       ∧ ((∀ d, resp ≠ RespOk d) →
            fst (fst run) = s ∧ snd (fst run) = None
            ∧ length (snd run) = 2%nat))
  ∧ (∀ w d, report_resp w = RespOk d → report_text d = "" →
       fst (season_over w s) = s).
Proof.
  intros run. unfold run, requestSeasonReportForUserTeam.
  destruct (report_team_id_truthy s) as (tid & Htid & Htr & Hsel & _ & Hatl).
  rewrite Htid. cbn [ostr_truthy]. rewrite Htr. cbn [negb default].
  split_and!.
  - destruct (ostr_truthy (apiKey s)); cbn [negb].
    + destruct resp; cbn; intros Hin;
        repeat (apply elem_of_cons in Hin as [Hin|Hin]; [done|]);
        by apply elem_of_nil in Hin.
    + intros Hin. apply elem_of_cons in Hin as [Hin|Hin]; [done|].
      by apply elem_of_nil in Hin.
  - by intros ->.
  - intros k Hk Hkt. rewrite Hk. cbn [ostr_truthy default]. rewrite Hkt.
    cbn [negb]. exists tid. split_and!; try done.
    + by destruct resp.
    + by intros d ->.
    + intros Hno. destruct resp as [d| |]; [by destruct (Hno d)|done..].
  - intros w d Hresp Hempty. unfold season_over. rewrite Hresp, Hempty.
    repeat case_match; done.
Qed.

(** X24, witness: Atlanta asks for its report and gets an empty one. *)
Lemma X24_witness :
  seasonReportReady
    (fst (fst (requestSeasonReportForUserTeam (λ x, x)
                 (RespOk {| ans_report_markdown := None; ans_report := Some "";
                            ans_text := None |})
                 (Demo.with_key "key" Demo.atl_selected)))) = true.
Proof.
  destruct (X24_report_on_request (λ x, x)
              (RespOk {| ans_report_markdown := None; ans_report := Some "";
                         ans_text := None |})
              (Demo.with_key "key" Demo.atl_selected))
    as (_ & _ & H & _).
  destruct (H "key" eq_refl eq_refl) as (tid & _ & _ & _ & _ & Hok & _).
  by destruct (Hok _ eq_refl) as [_ ->].
Defined.

(** ** View cache: what is remembered and what is asked again *)

(** X25. The four view loaders, from any state. A load that fails (status
    not OK, rejected request, body that does not parse) changes nothing, so
    the next call asks again. After a load that succeeded, an unforced call
    sends nothing for the leaders, the standings and the weekly news; for
    the team list this holds only if the answer was a non-empty array: an
    empty or malformed answer is stored and asked for again on every call.
    A forced call always sends its request, except that the weekly news is
    never requested without an API key. No loader touches the schedule or
    the scores. *)
Theorem X25_view_loaders (now : IsoTime) (s : AppState) :
  (∀ force text,
     fst (loadStatsLeadersIfNeeded force (RespNotOk text) now s) = s
     ∧ fst (loadStatsLeadersIfNeeded force RespThrow now s) = s
     ∧ fst (loadStandingsIfNeeded force (RespNotOk text) now s) = s
     ∧ fst (loadStandingsIfNeeded force RespThrow now s) = s
     ∧ fst (loadTeamsListIfNeeded force (RespNotOk text) now s) = s
     ∧ fst (loadTeamsListIfNeeded force RespThrow now s) = s
     ∧ fst (loadWeeklyNewsIfNeeded force (RespNotOk text) now s) = s
     ∧ fst (loadWeeklyNewsIfNeeded force RespThrow now s) = s)
  ∧ (∀ d resp2 now2,
       let s1 := fst (loadStatsLeadersIfNeeded true (RespOk d) now s) in
       loadStatsLeadersIfNeeded false resp2 now2 s1 = (s1, []))
  ∧ (∀ d resp2 now2,
       let s1 := fst (loadStandingsIfNeeded true (RespOk d) now s) in
       loadStandingsIfNeeded false resp2 now2 s1 = (s1, []))
  ∧ (∀ d resp2 now2,
       let s1 := fst (loadWeeklyNewsIfNeeded true (RespOk d) now s) in
       loadWeeklyNewsIfNeeded false resp2 now2 s1 = (s1, []))
  ∧ (∀ l resp2 now2, l ≠ [] →
       let s1 := fst (loadTeamsListIfNeeded true (RespOk (Some l)) now s) in
       loadTeamsListIfNeeded false resp2 now2 s1 = (s1, []))
  ∧ (∀ d resp2 now2, default [] d = [] →
       let s1 := fst (loadTeamsListIfNeeded true (RespOk d) now s) in
       teams_lastLoaded (teams (cachedViews s1)) = Some (iso now)
       ∧ snd (loadTeamsListIfNeeded false resp2 now2 s1) = [Fetch "/api/teams"])
  ∧ (∀ r1 r2 r3,
       snd (loadStatsLeadersIfNeeded true r1 now s) = [Fetch "/api/stats/leaders"]
       ∧ snd (loadStandingsIfNeeded true r2 now s) = [Fetch "/api/standings"]
       ∧ snd (loadTeamsListIfNeeded true r3 now s) = [Fetch "/api/teams"])
  ∧ (∀ force r,
       snd (loadWeeklyNewsIfNeeded force r now s) ≠ [] →
       ∃ k, apiKey s = Some k ∧ str_truthy k = true
            ∧ snd (loadWeeklyNewsIfNeeded force r now s)
              = [Post "/api/news/week" (BodyNews k)])
  ∧ (∀ force r1 r2 r3 r4,
       let after := λ s1 : AppState,
         schedule (cachedViews s1) = schedule (cachedViews s)
         ∧ scores (cachedViews s1) = scores (cachedViews s) in
       after (fst (loadStatsLeadersIfNeeded force r1 now s))
       ∧ after (fst (loadStandingsIfNeeded force r2 now s))
       ∧ after (fst (loadTeamsListIfNeeded force r3 now s))
       ∧ after (fst (loadWeeklyNewsIfNeeded force r4 now s))).
Proof.
  split_and!.
  - intros force text.
    unfold loadStatsLeadersIfNeeded, loadStandingsIfNeeded,
      loadTeamsListIfNeeded, loadWeeklyNewsIfNeeded.
    split_and!; by case_match.
  - intros d resp2 now2 s1.
    unfold s1, loadStatsLeadersIfNeeded, stats_fetches. cbn.
    by rewrite marker_or_truthy.
  - intros d resp2 now2 s1.
    unfold s1, loadStandingsIfNeeded, standings_fetches. cbn.
    by rewrite (iso_truthy now).
  - intros d resp2 now2 s1.
    unfold s1, loadWeeklyNewsIfNeeded, weeklyNews_fetches.
    destruct (ostr_truthy (apiKey s)) eqn:Hk; cbn.
    + rewrite Hk, marker_or_truthy. done.
    + rewrite Hk. done.
  - intros l resp2 now2 Hl s1.
    apply loadTeamsListIfNeeded_ignores_marker.
    unfold s1, loadTeamsListIfNeeded. cbn. done.
  - intros d resp2 now2 Hd s1.
    unfold s1, loadTeamsListIfNeeded, teams_fetches. cbn. by rewrite Hd.
  - done.
  - intros force r. unfold loadWeeklyNewsIfNeeded, weeklyNews_fetches.
    destruct (apiKey s) as [k|]; cbn; [|done].
    destruct (str_truthy k) eqn:Hk; cbn; [|done].
    case_match; [|done]. intros _. by exists k.
  - intros force r1 r2 r3 r4 after. unfold after.
    unfold loadStatsLeadersIfNeeded, loadStandingsIfNeeded,
      loadTeamsListIfNeeded, loadWeeklyNewsIfNeeded.
    split_and!; case_match; try done.
    + by destruct r1.
    + by destruct r1.
    + by destruct r2.
    + by destruct r2.
    + by destruct r3.
    + by destruct r3.
    + by destruct r4.
    + by destruct r4.
Qed.

(** X25, witness: the team list answered empty is asked for again. *)
Lemma X25_witness :
  snd (loadTeamsListIfNeeded false RespThrow Demo.noon
         (fst (loadTeamsListIfNeeded true (RespOk (Some [])) Demo.noon
                 Demo.atl_loaded)))
  = [Fetch "/api/teams"].
Proof.
  destruct (X25_view_loaders Demo.noon Demo.atl_loaded)
    as (_ & _ & _ & _ & _ & H & _).
  by destruct (H (Some []) RespThrow Demo.noon eq_refl) as [_ ->].
Defined.

(** ** API key screen *)

Lemma key_format_length (key : string) :
  key_format key = true →
  (14 ≤ String.length key)%nat ∧ str_truthy key = true
  ∧ String.prefix "AIza" key = true.
Proof.
  destruct key as [|c1 [|c2 [|c3 [|c4 rest]]]]; try done.
  unfold key_format. rewrite !andb_true_iff.
  intros [[[[[H1 H2] H3] H4] Hlen] _].
  apply Ascii.eqb_eq in H1, H2, H3, H4. subst.
  apply Nat.leb_le in Hlen. split_and!.
  - simpl. lia.
  - done.
  - simpl. by destruct rest.
Qed.

(** X26. The key screen. A request is sent exactly when the trimmed input
    has the form [AIza] followed by at least 10 letters, digits, hyphens or
    underscores, and it carries that input; a missing or malformed key
    never leaves the page. The key is stored and the team selection is
    shown exactly when such a request was answered with an OK status; in
    every other case the page and the state stay as they were. So the key
    the application holds is always of that form, hence at least 14
    characters long and never empty. *)
Theorem X26_key_is_checked_before_it_is_stored
    (key : string) (resp : Fetched (option string)) (p : Page) :
  let run := onApiKeyNext key resp p in
  let answered_ok := resp = NotParsed true ∨ ∃ d, resp = Parsed true d in
  (snd run ≠ [] ↔ key_format key = true)
  ∧ (key_format key = true →
     snd run = [PostJson "/api/validate-key" (KeyBody key)])
  ∧ (snd (fst run) = KeyConfirmed ↔ key_format key = true ∧ answered_ok)
  ∧ (snd (fst run) = KeyConfirmed →
     apiKey (page_app (fst (fst run))) = Some key
     ∧ screen (fst (fst run)) = "teamSelect")
  ∧ (snd (fst run) ≠ KeyConfirmed → fst (fst run) = p)
  ∧ (key_well_formed p → key_well_formed (fst (fst run)))
  ∧ (key_format key = true →
     (14 ≤ String.length key)%nat ∧ str_truthy key = true).
Proof.
  intros run answered_ok. unfold run, answered_ok, onApiKeyNext.
  destruct (key_format key) eqn:Hfmt.
  - destruct (key_format_length key Hfmt) as (Hlen & Htr & _).
    rewrite Htr. cbn [negb].
    destruct resp as [[|] d|[|]|]; cbn; split_and!; try done.
    all: try (split; [done|]; intros [_ [?|[? ?]]]; done).
    + split; [|done]. intros _. split; [done|]. right. by eexists.
    + split; [|done]. intros _. split; [done|]. by left.
  - destruct (str_truthy key); cbn; split_and!; try done.
    all: split; try done; by intros [? _].
Qed.

(** X26, witness: a well-formed key answered with an OK status. *)
Lemma X26_witness :
  apiKey
    (page_app (fst (fst (onApiKeyNext "AIzaSyD-9tSrke72PouQMnMX"
                           (NotParsed true) PostseasonDemo.main_page))))
  = Some "AIzaSyD-9tSrke72PouQMnMX".
Proof.
  destruct (X26_key_is_checked_before_it_is_stored "AIzaSyD-9tSrke72PouQMnMX"
              (NotParsed true) PostseasonDemo.main_page)
    as (_ & _ & Hiff & Hstored & _).
  apply Hstored, Hiff. split; [reflexivity|by left].
Defined.

(** ** Postseason views: one command at a time *)

(** X27. Whatever the postseason state holds, a rendering leaves at most
    one of the three command buttons displayed. The play-in button is
    displayed exactly when there is no playoffs data yet and the user's
    team has a play-in game without a result; once playoffs data is there
    the play-in button is hidden, open play-in game or not, and exactly one
    of the two playoff buttons is displayed until a champion is known. *)
Theorem X27_one_command_at_a_time
    (ps : option Postseason) (s : AppState) (b : StageButtons) :
  renderPostseasonViews ps s = Some b →
  (shown_count b ≤ 1)%nat
  ∧ (play_in_shown b = true ↔
     ∃ d m, ps = Some d ∧ ps_playoffs d = None
            ∧ my_next_play_in (ps_play_in d) s = Some m)
  ∧ (∀ d, ps = Some d → is_Some (ps_playoffs d) →
       play_in_shown b = false
       ∧ (ostr_truthy (ps_champion d) = false → shown_count b = 1%nat)
       ∧ (ostr_truthy (ps_champion d) = true → shown_count b = 0%nat)).
Proof.
  unfold renderPostseasonViews.
  destruct ps as [d|]; [|done].
  destruct (ps_playoffs d) as [playoffs|] eqn:Hp.
  - intros [= <-]. unfold shown_count, renderPlayoffStage, playoff_buttons.
    split_and!.
    + destruct (findMySeries (Some playoffs) s) as [sr|]; cbn;
        [destruct (ostr_truthy (sr_winner sr))|];
        destruct (ostr_truthy (ps_champion d)); cbn; lia.
    + split; [done|]. intros (d' & m & [= <-] & Hnone & _). congruence.
    + intros d' [= <-] _. split_and!; [done| |].
      * intros ->.
        destruct (findMySeries (Some playoffs) s) as [sr|]; cbn;
          [by destruct (ostr_truthy (sr_winner sr))|done].
      * intros ->.
        destruct (findMySeries (Some playoffs) s) as [sr|]; cbn;
          [by destruct (ostr_truthy (sr_winner sr))|done].
  - destruct (ps_play_in d) as [playIn|] eqn:Hpi; [|done].
    intros [= <-]. unfold shown_count. cbn. split_and!.
    + destruct (bool_decide _); cbn; lia.
    + rewrite bool_decide_eq_true. split.
      * intros [m Hm]. exists d, m. by rewrite Hpi.
      * intros (d' & m & [= <-] & _ & Hm). rewrite Hpi in Hm. by exists m.
    + intros d' [= <-] [? ?]. congruence.
Qed.

(** X27, witness: Atlanta has its nine-ten game to play; the play-in button
    is the only one displayed. *)
Lemma X27_witness :
  renderPostseasonViews StageDemo.play_in_open Demo.atl_selected
  = Some {| play_in_shown := true; playoff_game_shown := false;
            auto_advance_shown := false |}
  ∧ (shown_count {| play_in_shown := true; playoff_game_shown := false;
                    auto_advance_shown := false |} ≤ 1)%nat.
Proof.
  assert (H : renderPostseasonViews StageDemo.play_in_open Demo.atl_selected
              = Some {| play_in_shown := true; playoff_game_shown := false;
                        auto_advance_shown := false |})
    by (vm_compute; reflexivity).
  split; [exact H|].
  by destruct (X27_one_command_at_a_time _ _ _ H) as [Hc _].
Defined.

(** ** Default minutes *)

(** X28. The default minutes fill a game exactly: for each rotation size
    from 6 to 10, five starters and the rest of the rotation on the bench
    get 240 minutes together, five times the 48 of a game. Outside that
    range the stock values 32 and 22 are used, which add up to 240 for no
    rotation size. A starter never gets fewer minutes than a bench player,
    and every default lies within the 0 to 48 the minutes input accepts; any
    role other than ["starter"] counts as bench. *)
Theorem X28_default_minutes_fill_the_game (role : string) (size : Z) :
  (6 ≤ size ≤ 10 →
   5 * getDefaultMinutesForRole "starter" size
   + (size - 5) * getDefaultMinutesForRole "bench" size = 240)
  ∧ (size < 6 ∨ 10 < size →
     getDefaultMinutesForRole "starter" size = 32
     ∧ getDefaultMinutesForRole "bench" size = 22
     ∧ 5 * 32 + (size - 5) * 22 ≠ 240)
  ∧ getDefaultMinutesForRole "bench" size
    ≤ getDefaultMinutesForRole "starter" size
  ∧ 0 ≤ getDefaultMinutesForRole role size ≤ 48
  ∧ (role ≠ "starter" →
     getDefaultMinutesForRole role size = getDefaultMinutesForRole "bench" size).
Proof.
  assert (Hcases : (6 ≤ size ≤ 10 ∧ (size = 6 ∨ size = 7 ∨ size = 8
                                      ∨ size = 9 ∨ size = 10))
                   ∨ ((size < 6 ∨ 10 < size)
                      ∧ List.find (λ kv : Z * (Z * Z), fst kv =? size)
                          ROTATION_MINUTE_DEFAULTS = None)).
  { destruct (decide (6 ≤ size ≤ 10)) as [Hin|Hout].
    - left. split; [done|]. lia.
    - right. split; [lia|]. unfold ROTATION_MINUTE_DEFAULTS. cbn [List.find fst].
      rewrite !(proj2 (Z.eqb_neq _ size)) by lia. done. }
  assert (Hrole : role ≠ "starter" →
            getDefaultMinutesForRole role size
            = getDefaultMinutesForRole "bench" size).
  { intros Hne. unfold getDefaultMinutesForRole.
    apply String.eqb_neq in Hne. by rewrite Hne. }
  assert (Hrange : ∀ r, r = "starter" ∨ r = "bench" →
            0 ≤ getDefaultMinutesForRole r size ≤ 48
            ∧ getDefaultMinutesForRole "bench" size
              ≤ getDefaultMinutesForRole "starter" size).
  { intros r Hr. unfold getDefaultMinutesForRole.
    destruct Hcases as [[_ Hs]|[_ Hnone]].
    - destruct Hs as [-> | [-> | [-> | [-> | ->]]]], Hr as [->| ->]; cbn; lia.
    - rewrite Hnone. destruct Hr as [->| ->]; cbn; lia. }
  split; [|split; [|split; [|split]]].
  - intros Hin. destruct Hcases as [[_ Hs]|[Hout _]]; [|lia].
    destruct Hs as [-> | [-> | [-> | [-> | ->]]]]; reflexivity.
  - intros Hout. destruct Hcases as [[Hin _]|[_ Hnone]]; [lia|].
    unfold getDefaultMinutesForRole. rewrite Hnone. cbn. split_and!; [done..|].
    lia.
  - apply (Hrange "starter"). by left.
  - destruct (decide (role = "starter")) as [->|Hne].
    + apply (Hrange "starter"). by left.
    + rewrite (Hrole Hne). apply (Hrange "bench"). by right.
  - exact Hrole.
Qed.

(** X28, witness: a rotation of 8. *)
Lemma X28_witness :
  5 * getDefaultMinutesForRole "starter" 8
  + (8 - 5) * getDefaultMinutesForRole "bench" 8 = 240.
Proof.
  destruct (X28_default_minutes_fill_the_game "starter" 8) as [H _].
  apply H. lia.
Defined.
